(** * Vacancy store: the persistence layer of the hh.ru vacancy collector

    A shallow embedding of [src/db_manager.py] (class [DBManager]) and of
    [src/saver.py] (class [DBSaver]).  The Python methods are thin wrappers
    around SQL statements sent to PostgreSQL through psycopg2, so the
    embedding consists of

    - the two relations created by [__create_tables], with the column types
      and constraints written there ([VARCHAR(255)], [INT], [NOT NULL],
      [SERIAL PRIMARY KEY], [REFERENCES companies(id) ON DELETE CASCADE]);
    - one function per SQL statement of the source, giving the statement's
      meaning on such a database;
    - one definition per Python method, with the control flow of the method
      ([try]/[except]/[finally], early [return], [commit]) around these
      statements, and the state of the psycopg2 connection.

    Conventions.  A text is a [string] holding the UTF-8 bytes of the Python
    [str], the encoding of the connection and of the database: [VARCHAR(255)]
    counts characters, not bytes.  psycopg2 refuses a [str] with a NUL
    character as a parameter before it sends anything; calls with such a
    parameter are not described here.  Case folding in [ILIKE] follows the
    locale of the database; what is written here is its action on ASCII
    letters.  [NUMERIC] values carry their display
    scale, and a division rounds its quotient to the scale PostgreSQL selects
    for it.  [print] calls are left out.  Every method that changes a
    relation commits right after its only changing statement, so the database
    a statement sees is always the committed one, and a rollback has nothing
    to undo except that sequences keep the values they handed out. *)

From Stdlib Require Import ZArith QArith Qabs List String Ascii Bool Lia
  Permutation.
Import ListNotations.

Local Open Scope string_scope.
Local Open Scope list_scope.
Local Open Scope Z_scope.

(** ** Errors and results *)

(** The psycopg2 exceptions the statements of the source can raise. *)
Inductive error : Type :=
| InterfaceError              (* cursor() on a closed connection *)
| InFailedSqlTransaction      (* a statement after a failed one, before commit *)
| StringDataRightTruncation   (* value too long for VARCHAR(255) *)
| NumericValueOutOfRange      (* INT out of range *)
| SequenceGeneratorLimitExceeded (* SERIAL sequence exhausted *)
| NotNullViolation
| ForeignKeyViolation.

Definition result (A : Type) : Type := (error + A)%type.

Definition ret {A} (a : A) : result A := inr a.
Definition raise {A} (e : error) : result A := inl e.
Definition bind {A B} (r : result A) (k : A -> result B) : result B :=
  match r with
  | inl e => inl e
  | inr a => k a
  end.

Notation "x <- r ;; k" := (bind r (fun x => k))
  (at level 61, r at next level, right associativity).

(** Evaluate [f] on every row, left to right; the first error aborts. *)
Fixpoint mapM {A B} (f : A -> result B) (l : list A) : result (list B) :=
  match l with
  | [] => ret []
  | a :: l' => b <- f a ;; bs <- mapM f l' ;; ret (b :: bs)
  end.

(** A [WHERE] clause: keep the rows on which the condition is TRUE. *)
Fixpoint filterM {A} (f : A -> result bool) (l : list A) : result (list A) :=
  match l with
  | [] => ret []
  | a :: l' =>
      b <- f a ;; rest <- filterM f l' ;; ret (if b then a :: rest else rest)
  end.

(** ** Column types *)

Definition int4_min : Z := -2147483648.
Definition int4_max : Z := 2147483647.

Definition in_int4 (z : Z) : bool := (int4_min <=? z) && (z <=? int4_max).

(** Assignment of an integer literal to an [INT] column. *)
Definition int4 (z : Z) : result Z :=
  if in_int4 z then ret z else raise NumericValueOutOfRange.

(** [INT + INT]: PostgreSQL checks the sum for overflow. *)
Definition int4pl (a b : Z) : result Z :=
  if in_int4 (a + b) then ret (a + b) else raise NumericValueOutOfRange.

Fixpoint only_spaces (s : string) : bool :=
  match s with
  | EmptyString => true
  | String c s' => Ascii.eqb c " " && only_spaces s'
  end.

(** In UTF-8 a byte [10xxxxxx] continues the character begun before it;
    every other byte begins one. *)
Definition continuation (c : ascii) : bool :=
  match c with
  | Ascii _ _ _ _ _ _ b6 b7 => b7 && negb b6
  end.

(** The number of characters of a text. *)
Fixpoint characters (s : string) : nat :=
  match s with
  | EmptyString => O
  | String c s' => if continuation c then characters s' else S (characters s')
  end.

(** The first [n] characters of a text, and what follows them. *)
Fixpoint first_characters (n : nat) (s : string) : string :=
  match s with
  | EmptyString => EmptyString
  | String c s' =>
      if continuation c then String c (first_characters n s')
      else match n with
           | O => EmptyString
           | S n' => String c (first_characters n' s')
           end
  end.

Fixpoint after_characters (n : nat) (s : string) : string :=
  match s with
  | EmptyString => EmptyString
  | String c s' =>
      if continuation c then after_characters n s'
      else match n with
           | O => s
           | S n' => after_characters n' s'
           end
  end.

(** Assignment to a [VARCHAR(n)] column: a value of more than [n] characters
    is an error, unless the excess characters are all spaces, which are cut
    off. *)
Definition varchar (n : nat) (s : string) : result string :=
  if (characters s <=? n)%nat then ret s
  else if only_spaces (after_characters n s)
       then ret (first_characters n s)
       else raise StringDataRightTruncation.

(** A Python [None] is sent as [NULL], which every column type accepts. *)
Definition nullable {A B} (f : A -> result B) (x : option A)
  : result (option B) :=
  match x with
  | None => ret None
  | Some a => b <- f a ;; ret (Some b)
  end.

(** ** The schema of [__create_tables] *)

Module Companies.
Record row : Type := mk {
  id : Z;                         (* SERIAL PRIMARY KEY *)
  name : string;                  (* VARCHAR(255) NOT NULL *)
  url : option string;            (* VARCHAR(255) *)
  description : option string     (* TEXT *)
}.
End Companies.

Module Vacancies.
Record row : Type := mk {
  id : Z;                         (* SERIAL PRIMARY KEY *)
  company_id : option Z;          (* INT REFERENCES companies(id) ON DELETE CASCADE *)
  title : string;                 (* VARCHAR(255) NOT NULL *)
  salary_from : option Z;         (* INT *)
  salary_to : option Z;           (* INT *)
  url : option string;            (* VARCHAR(255) *)
  description : option string     (* TEXT *)
}.
End Vacancies.

(** The database: the rows of both relations in insertion order, and the next
    value of the sequence behind each [SERIAL] column. *)
Record database : Type := mkdb {
  companies : list Companies.row;
  vacancies : list Vacancies.row;
  companies_id_seq : Z;
  vacancies_id_seq : Z
}.

(** What [__create_tables] leaves on a server that had neither table. *)
Definition create_tables : database :=
  {| companies := []; vacancies := []; companies_id_seq := 1;
     vacancies_id_seq := 1 |}.

(** [nextval]: the value handed out; the sequence of a [SERIAL] column stops
    at the largest [INT]. *)
Definition nextval (seq : Z) : result Z :=
  if seq <=? int4_max then ret seq else raise SequenceGeneratorLimitExceeded.

(** ** The dictionaries passed to the insert methods

    [company.get('name')] and the like give [None] for a missing key. *)

Module company_data.
Record t : Type := mk {
  name : option string;
  url : option string;
  description : option string
}.
End company_data.

Module vacancy_data.
Record t : Type := mk {
  company_id : option Z;
  title : option string;
  salary_from : option Z;
  salary_to : option Z;
  url : option string;
  description : option string
}.
End vacancy_data.

(** ** The rows handed back by the queries ([RealDictCursor] dictionaries) *)

Record company_count : Type := mkcount {
  cc_name : string;
  vacancy_count : Z
}.

Record vacancy_info : Type := mkinfo {
  company_name : string;
  vi_title : string;
  vi_salary_from : option Z;
  vi_salary_to : option Z;
  vi_url : option string
}.

Record vacancy_hit : Type := mkhit {
  vh_company_name : string;
  vh_title : string;
  vh_url : option string
}.

(** ** SQL: comparison with NULL, LIKE *)

(** [column = %s]: NULL on either side is not TRUE. *)
Definition sql_eq_text (column : option string) (param : option string) : bool :=
  match column, param with
  | Some a, Some b => String.eqb a b
  | _, _ => false
  end.

Definition sql_eq_int (column : option Z) (param : option Z) : bool :=
  match column, param with
  | Some a, Some b => a =? b
  | _, _ => false
  end.

(** The fold of the ASCII letters; how other letters fold depends on the
    locale of the database. *)
Definition lower (c : ascii) : ascii :=
  let n := nat_of_ascii c in
  if ((65 <=? n) && (n <=? 90))%nat then ascii_of_nat (n + 32) else c.

Definition ieqb (a b : ascii) : bool := Ascii.eqb (lower a) (lower b).

(** The bytes that continue the character whose first byte was just read. *)
Fixpoint rest_of_character (t : list ascii) : list ascii :=
  match t with
  | [] => []
  | x :: t' => if continuation x then rest_of_character t' else t
  end.

(** [text ILIKE pattern]: [%] stands for any run of characters, [_] for any
    one character, a backslash makes the next pattern character literal;
    letters match without regard to case.  A pattern that ends in a lone
    backslash is an error in PostgreSQL; the patterns built by the source end
    in [%], so that case ([false] here) is never reached. *)
Fixpoint ilike_chars (p : list ascii) : list ascii -> bool :=
  match p with
  | [] => fun t => match t with [] => true | _ :: _ => false end
  | c :: p' =>
      if Ascii.eqb c "%" then
        fix any_run (t : list ascii) : bool :=
          ilike_chars p' t
          || match t with [] => false | _ :: t' => any_run t' end
      else if Ascii.eqb c "_" then
        fun t => match t with
                 | [] => false
                 | x :: t' =>
                     negb (continuation x)
                     && ilike_chars p' (rest_of_character t')
                 end
      else if Ascii.eqb c "\" then
        match p' with
        | [] => fun _ => false
        | e :: p'' =>
            fun t => match t with
                     | [] => false
                     | x :: t' => ieqb e x && ilike_chars p'' t'
                     end
        end
      else
        fun t => match t with
                 | [] => false
                 | x :: t' => ieqb c x && ilike_chars p' t'
                 end
  end.

Definition ILIKE (text pattern : string) : bool :=
  ilike_chars (list_ascii_of_string pattern) (list_ascii_of_string text).

(** ** SQL: arithmetic and aggregates *)

Definition Qgtb (x y : Q) : bool := negb (Qle_bool x y).

(** A [NUMERIC] value: a decimal number and its display scale, the number of
    digits it carries after the point. *)
Record numeric : Type := mknum {
  num_value : Q;
  dscale : Z
}.

(** An [INT] operand of a [NUMERIC] operation has scale 0; the literal [2.0]
    has scale 1. *)
Definition of_int (z : Z) : numeric := mknum (inject_Z z) 0.

Definition two_point_zero : numeric := mknum 2 1.

(** PostgreSQL keeps a [NUMERIC] in digits of base 10000. *)
Definition nbase : Z := 10000.

(** The position of the leading base-10000 digit of an integer [i >= 1],
    counted from the units, and that digit. *)
Fixpoint leading_digit (fuel : nat) (i : Z) : Z * Z :=
  match fuel with
  | O => (0, i)
  | S fuel' =>
      if i <? nbase then (0, i)
      else let (weight, digit) := leading_digit fuel' (i / nbase) in
           (weight + 1, digit)
  end.

(** The same for [n / d] strictly between 0 and 1: the first digit after the
    point has position -1. *)
Fixpoint leading_fraction_digit (fuel : nat) (n d : Z) : Z * Z :=
  match fuel with
  | O => (-1, n * nbase / d)
  | S fuel' =>
      if 0 <? n * nbase / d then (-1, n * nbase / d)
      else let (weight, digit) := leading_fraction_digit fuel' (n * nbase) d in
           (weight - 1, digit)
  end.

(** Weight and first digit of the absolute value of a number; both 0 for
    zero. *)
Definition first_digit (q : Q) : Z * Z :=
  let n := Z.abs (Qnum q) in
  let d := Z.pos (Qden q) in
  if n =? 0 then (0, 0)
  else if d <=? n then leading_digit (Z.to_nat (Z.log2 (n / d))) (n / d)
  else leading_fraction_digit (Z.to_nat (Z.log2 d)) n d.

(** The scale of a quotient: enough for 16 significant digits, judged by the
    leading digits of both operands, and not less than the scale of either
    operand; between 0 and 1000. *)
Definition select_div_scale (x y : numeric) : Z :=
  let (weight1, firstdigit1) := first_digit (num_value x) in
  let (weight2, firstdigit2) := first_digit (num_value y) in
  let qweight :=
    weight1 - weight2 - (if firstdigit1 <=? firstdigit2 then 1 else 0) in
  Z.min 1000
        (Z.max (Z.max (Z.max (16 - qweight * 4) (dscale x)) (dscale y)) 0).

(** Rounding to [scale] digits after the point, a half away from zero. *)
Definition round_to (scale : Z) (q : Q) : Q :=
  let n := Qnum q * 10 ^ scale in
  let d := Z.pos (Qden q) in
  Qmake (Z.sgn n * ((2 * Z.abs n + d) / (2 * d))) (Z.to_pos (10 ^ scale)).

(** [x / y] for a divisor that is not zero; the divisors of the source are
    [2.0] and a count of at least one row. *)
Definition numeric_div (x y : numeric) : numeric :=
  let scale := select_div_scale x y in
  mknum (round_to scale (num_value x / num_value y)) scale.

(** [(salary_from + salary_to) / 2.0]: NULL when a bound is NULL, an error
    when the [INT] sum overflows, the half of the sum otherwise. *)
Definition midpoint (v : Vacancies.row) : result (option numeric) :=
  match Vacancies.salary_from v, Vacancies.salary_to v with
  | Some a, Some b =>
      s <- int4pl a b ;; ret (Some (numeric_div (of_int s) two_point_zero))
  | _, _ => ret None
  end.

Definition not_null {A} (l : list (option A)) : list A :=
  flat_map (fun x => match x with Some a => [a] | None => [] end) l.

Definition Qsum (l : list Q) : Q := fold_right Qplus 0%Q l.

(** The sum an aggregate keeps: exact, with the largest scale of its inputs. *)
Definition numeric_sum (l : list numeric) : numeric :=
  mknum (Qsum (map num_value l)) (fold_right Z.max 0 (map dscale l)).

(** [AVG]: NULL inputs are skipped; NULL when no input is left; otherwise
    the sum divided by the number of inputs. *)
Definition AVG (l : list (option numeric)) : option numeric :=
  match not_null l with
  | [] => None
  | x :: xs =>
      Some (numeric_div (numeric_sum (x :: xs))
                        (of_int (Z.of_nat (List.length (x :: xs)))))
  end.

(** ** The statements of [db_manager.py] *)

Definition set_companies (d : database) (cs : list Companies.row) : database :=
  {| companies := cs; vacancies := vacancies d;
     companies_id_seq := companies_id_seq d;
     vacancies_id_seq := vacancies_id_seq d |}.

Definition set_vacancies (d : database) (vs : list Vacancies.row) : database :=
  {| companies := companies d; vacancies := vs;
     companies_id_seq := companies_id_seq d;
     vacancies_id_seq := vacancies_id_seq d |}.

Definition set_companies_id_seq (d : database) (n : Z) : database :=
  {| companies := companies d; vacancies := vacancies d;
     companies_id_seq := n; vacancies_id_seq := vacancies_id_seq d |}.

Definition set_vacancies_id_seq (d : database) (n : Z) : database :=
  {| companies := companies d; vacancies := vacancies d;
     companies_id_seq := companies_id_seq d; vacancies_id_seq := n |}.

(** [SELECT id FROM companies WHERE name = %s;] *)
Definition select_id_where_name (d : database) (name : option string) : list Z :=
  map Companies.id
      (filter (fun c => sql_eq_text (Some (Companies.name c)) name) (companies d)).

(** [SELECT id FROM companies WHERE url = %s;] *)
Definition select_id_where_url (d : database) (url : option string) : list Z :=
  map Companies.id
      (filter (fun c => sql_eq_text (Companies.url c) url) (companies d)).

(** [INSERT INTO companies (name, url, description) VALUES (%s, %s, %s)
    RETURNING id;]  The values are coerced to the column types first; then
    the id is drawn from the sequence, which keeps it even when the row is
    refused; then [NOT NULL] is checked. *)
Definition insert_into_companies (d : database)
  (name url description : option string) : database * result Z :=
  match (n <- nullable (varchar 255) name ;;
         u <- nullable (varchar 255) url ;; ret (n, u)) with
  | inl e => (d, raise e)
  | inr (n, u) =>
      match nextval (companies_id_seq d) with
      | inl e => (d, raise e)
      | inr i =>
          let d' := set_companies_id_seq d (i + 1) in
          match n with
          | None => (d', raise NotNullViolation)
          | Some n' =>
              (set_companies d' (companies d' ++ [Companies.mk i n' u description]),
               ret i)
          end
      end
  end.

(** The foreign key of [vacancies.company_id]: NULL passes, any other value
    has to be the id of a row of [companies]. *)
Definition references_company (d : database) (company_id : option Z) : bool :=
  match company_id with
  | None => true
  | Some k => existsb (fun c => Companies.id c =? k) (companies d)
  end.

(** [INSERT INTO vacancies (company_id, title, salary_from, salary_to, url,
    description) VALUES (%s, %s, %s, %s, %s, %s);] *)
Definition insert_into_vacancies (d : database) (v : vacancy_data.t)
  : database * result unit :=
  match (c <- nullable int4 (vacancy_data.company_id v) ;;
         t <- nullable (varchar 255) (vacancy_data.title v) ;;
         f <- nullable int4 (vacancy_data.salary_from v) ;;
         s <- nullable int4 (vacancy_data.salary_to v) ;;
         u <- nullable (varchar 255) (vacancy_data.url v) ;;
         ret (c, t, f, s, u)) with
  | inl e => (d, raise e)
  | inr (c, t, f, s, u) =>
      match nextval (vacancies_id_seq d) with
      | inl e => (d, raise e)
      | inr i =>
          let d' := set_vacancies_id_seq d (i + 1) in
          match t with
          | None => (d', raise NotNullViolation)
          | Some t' =>
              if references_company d' c
              then (set_vacancies d'
                      (vacancies d' ++
                       [Vacancies.mk i c t' f s u (vacancy_data.description v)]),
                    ret tt)
              else (d', raise ForeignKeyViolation)
          end
      end
  end.

(** [DELETE FROM vacancies WHERE id = %s;] *)
Definition delete_from_vacancies_where_id (d : database) (vacancy_id : Z)
  : database :=
  set_vacancies d
    (filter (fun v => negb (Vacancies.id v =? vacancy_id)) (vacancies d)).

(** [DELETE FROM vacancies;] *)
Definition delete_from_vacancies (d : database) : database :=
  set_vacancies d [].

(** Deleting the companies chosen by [doomed]; [ON DELETE CASCADE] deletes
    with each of them the vacancies whose [company_id] is its id. *)
Definition delete_from_companies_where (doomed : Companies.row -> bool)
  (d : database) : database :=
  let deleted := filter doomed (companies d) in
  {| companies := filter (fun c => negb (doomed c)) (companies d);
     vacancies :=
       filter (fun v =>
                 negb (existsb (fun c => sql_eq_int (Vacancies.company_id v)
                                                    (Some (Companies.id c)))
                               deleted))
              (vacancies d);
     companies_id_seq := companies_id_seq d;
     vacancies_id_seq := vacancies_id_seq d |}.

(** [DELETE FROM companies WHERE id = %s;] *)
Definition delete_from_companies_where_id (d : database) (company_id : Z)
  : database :=
  delete_from_companies_where (fun c => Companies.id c =? company_id) d.

(** [DELETE FROM companies;] *)
Definition delete_from_companies (d : database) : database :=
  delete_from_companies_where (fun _ => true) d.

(** [FROM vacancies JOIN companies ON vacancies.company_id = companies.id] *)
Definition vacancies_join_companies (d : database)
  : list (Vacancies.row * Companies.row) :=
  flat_map
    (fun v =>
       map (fun c => (v, c))
           (filter (fun c => sql_eq_int (Vacancies.company_id v)
                                        (Some (Companies.id c)))
                   (companies d)))
    (vacancies d).

(** [FROM companies LEFT JOIN vacancies ON companies.id =
    vacancies.company_id]: the rows one company gives, one per vacancy of it,
    or a single row with the vacancy columns NULL when it has none. *)
Definition left_join_rows (d : database) (c : Companies.row)
  : list (Companies.row * option Vacancies.row) :=
  match filter (fun v => sql_eq_int (Some (Companies.id c))
                                    (Vacancies.company_id v))
               (vacancies d) with
  | [] => [(c, None)]
  | v :: vs => map (fun v' => (c, Some v')) (v :: vs)
  end.

Definition companies_left_join_vacancies (d : database)
  : list (Companies.row * option Vacancies.row) :=
  flat_map (left_join_rows d) (companies d).

(** [COUNT(vacancies.id)]: the rows of the group whose vacancy id is not
    NULL. *)
Definition COUNT_vacancies_id (group : list (Companies.row * option Vacancies.row))
  : Z :=
  Z.of_nat (List.length (not_null (map snd group))).

(** [SELECT companies.name, COUNT(vacancies.id) as vacancy_count FROM
    companies LEFT JOIN vacancies ON ... GROUP BY companies.name;] *)
Definition select_companies_and_vacancies_count (d : database)
  : list company_count :=
  let joined := companies_left_join_vacancies d in
  map (fun n =>
         mkcount n
           (COUNT_vacancies_id
              (filter (fun r => String.eqb (Companies.name (fst r)) n) joined)))
      (nodup string_dec (map (fun r => Companies.name (fst r)) joined)).

Definition info_of (r : Vacancies.row * Companies.row) : vacancy_info :=
  let (v, c) := r in
  mkinfo (Companies.name c) (Vacancies.title v) (Vacancies.salary_from v)
         (Vacancies.salary_to v) (Vacancies.url v).

Definition hit_of (r : Vacancies.row * Companies.row) : vacancy_hit :=
  let (v, c) := r in
  mkhit (Companies.name c) (Vacancies.title v) (Vacancies.url v).

(** [SELECT companies.name as company_name, vacancies.title,
    vacancies.salary_from, vacancies.salary_to, vacancies.url FROM vacancies
    JOIN companies ON vacancies.company_id = companies.id;] *)
Definition select_all_vacancies (d : database) : list vacancy_info :=
  map info_of (vacancies_join_companies d).

(** [SELECT AVG((salary_from + salary_to) / 2.0) FROM vacancies WHERE
    salary_from IS NOT NULL AND salary_to IS NOT NULL;] *)
Definition both_bounds (v : Vacancies.row) : bool :=
  match Vacancies.salary_from v, Vacancies.salary_to v with
  | Some _, Some _ => true
  | _, _ => false
  end.

Definition select_avg_salary (d : database) : result (option Q) :=
  xs <- mapM midpoint (filter both_bounds (vacancies d)) ;;
  ret (option_map num_value (AVG xs)).

(** [... WHERE vacancies.title ILIKE %s;] with the parameter
    [f'%{keyword}%']. *)
Definition select_vacancies_with_keyword (d : database) (keyword : string)
  : list vacancy_hit :=
  map hit_of
      (filter (fun r => ILIKE (Vacancies.title (fst r))
                            ("%" ++ keyword ++ "%")%string)
              (vacancies_join_companies d)).

(** [... WHERE (vacancies.salary_from + vacancies.salary_to) / 2.0 > %s;]
    a NULL midpoint makes the comparison NULL, which is not TRUE. *)
Definition above (avg : Q) (r : Vacancies.row * Companies.row) : result bool :=
  m <- midpoint (fst r) ;;
  ret (match m with Some x => Qgtb (num_value x) avg | None => false end).

Definition select_vacancies_with_higher_salary (d : database) (avg : Q)
  : result (list vacancy_info) :=
  rows <- filterM (above avg) (vacancies_join_companies d) ;;
  ret (map info_of rows).

(** ** The psycopg2 connection *)

(** [Ready]: open, no failed statement since the last commit.  [Aborted]: a
    statement failed; every further statement fails until a commit (which
    then rolls back).  [Closed]: after [close()]. *)
Inductive status : Type := Ready | Aborted | Closed.

Record connection : Type := mkconn {
  conn_status : status;
  conn_db : database
}.

(** How a method call ends, and the connection it leaves. *)
Inductive outcome (A : Type) : Type :=
| Returned (value : A) (conn : connection)
| Raised (e : error) (conn : connection).

Arguments Returned {A} value conn.
Arguments Raised {A} e conn.

Definition conn_after {A} (o : outcome A) : connection :=
  match o with
  | Returned _ c => c
  | Raised _ c => c
  end.

(** [cur.execute(...)] on an open connection. *)
Definition execute {A} (self : connection)
  (statement : database -> database * result A) : connection * result A :=
  match conn_status self with
  | Ready =>
      let (d, r) := statement (conn_db self) in
      ({| conn_status := match r with inl _ => Aborted | inr _ => Ready end;
          conn_db := d |}, r)
  | _ => (self, raise InFailedSqlTransaction)
  end.

(** A [SELECT] changes nothing. *)
Definition reading {A} (select : database -> result A)
  : database -> database * result A :=
  fun d => (d, select d).

(** [self.conn.commit()] on an open connection. *)
Definition commit (self : connection) : connection :=
  {| conn_status := Ready; conn_db := conn_db self |}.

(** [cur.fetchone()]: the first row of the result set, [None] when empty.
    The source calls it on the lookup by name, which has at most one row
    while the names are distinct, on the lookup by url, where only the
    presence of a row decides and [DBSaver] drops the value, and on the one
    row of the aggregate. *)
Definition fetchone {A} (result_set : list A) : option A := hd_error result_set.

(** [cur.fetchall()]: no statement of the source has an [ORDER BY], so
    nothing in the source fixes the order in which the server delivers the
    rows of the result set; [rows] is the result set in some order. *)
Definition fetchall {A} (result_set rows : list A) : Prop :=
  Permutation result_set rows.

Module DBManager.

(** [__init__] on a server without the tables. *)
Definition init : connection :=
  {| conn_status := Ready; conn_db := create_tables |}.

(** A method that runs one [SELECT] and returns [cur.fetchall()]. *)
Definition fetchall_of {A} (self : connection)
  (select : database -> result (list A)) (o : outcome (list A)) : Prop :=
  match conn_status self with
  | Closed => o = Raised InterfaceError self
  | _ =>
      let (c, r) := execute self (reading select) in
      match r with
      | inl e => o = Raised e c
      | inr result_set =>
          exists rows, fetchall result_set rows /\ o = Returned rows c
      end
  end.

Definition get_companies_and_vacancies_count (self : connection)
  : outcome (list company_count) -> Prop :=
  fetchall_of self (fun d => ret (select_companies_and_vacancies_count d)).

Definition get_all_vacancies (self : connection)
  : outcome (list vacancy_info) -> Prop :=
  fetchall_of self (fun d => ret (select_all_vacancies d)).

Definition get_avg_salary (self : connection) : outcome (option Q) :=
  match conn_status self with
  | Closed => Raised InterfaceError self
  | _ =>
      let (c, r) := execute self (reading select_avg_salary) in
      match r with
      | inl e => Raised e c
      | inr avg => Returned avg c
      end
  end.

Definition get_vacancies_with_keyword (self : connection) (keyword : string)
  : outcome (list vacancy_hit) -> Prop :=
  fetchall_of self (fun d => ret (select_vacancies_with_keyword d keyword)).

Definition get_vacancies_with_higher_salary (self : connection)
  (o : outcome (list vacancy_info)) : Prop :=
  match get_avg_salary self with
  | Raised e c => o = Raised e c
  | Returned None c => o = Returned [] c
  | Returned (Some avg_salary) c =>
      fetchall_of c
        (fun d => select_vacancies_with_higher_salary d avg_salary) o
  end.

Definition close (self : connection) : connection :=
  {| conn_status := Closed; conn_db := conn_db self |}.

(** The [try] covers both statements; [except Exception] turns any failure
    into [company_id = None]; [finally] commits on every path. *)
Definition insert_company (self : connection) (company : company_data.t)
  : outcome (option Z) :=
  match conn_status self with
  | Closed => Raised InterfaceError self
  | _ =>
      let (c1, r1) :=
        execute self
          (reading (fun d =>
             ret (select_id_where_name d (company_data.name company)))) in
      match r1 with
      | inl _ => Returned None (commit c1)
      | inr result_set =>
          match fetchone result_set with
          | Some i => Returned (Some i) (commit c1)
          | None =>
              let (c2, r2) :=
                execute c1
                  (fun d =>
                     insert_into_companies d (company_data.name company)
                       (company_data.url company)
                       (company_data.description company)) in
              match r2 with
              | inl _ => Returned None (commit c2)
              | inr company_id => Returned (Some company_id) (commit c2)
              end
          end
      end
  end.

(** No [try] here: an error leaves the method, and the connection
    [Aborted].  The early [return result[0]] skips the commit. *)
Definition insert_vacancy (self : connection) (vacancy : vacancy_data.t)
  : outcome (option Z) :=
  match conn_status self with
  | Closed => Raised InterfaceError self
  | _ =>
      let (c1, r1) :=
        execute self
          (reading (fun d =>
             ret (select_id_where_url d (vacancy_data.url vacancy)))) in
      match r1 with
      | inl e => Raised e c1
      | inr result_set =>
          match fetchone result_set with
          | Some i => Returned (Some i) c1
          | None =>
              let (c2, r2) :=
                execute c1 (fun d => insert_into_vacancies d vacancy) in
              match r2 with
              | inl e => Raised e c2
              | inr _ => Returned None (commit c2)
              end
          end
      end
  end.

(** A method that runs one [DELETE] and commits. *)
Definition deleting (self : connection) (delete : database -> database)
  : outcome unit :=
  match conn_status self with
  | Closed => Raised InterfaceError self
  | _ =>
      let (c, r) := execute self (fun d => (delete d, ret tt)) in
      match r with
      | inl e => Raised e c
      | inr _ => Returned tt (commit c)
      end
  end.

Definition delete_vacancy (self : connection) (vacancy_id : Z) : outcome unit :=
  deleting self (fun d => delete_from_vacancies_where_id d vacancy_id).

Definition delete_all_vacancies (self : connection) : outcome unit :=
  deleting self delete_from_vacancies.

Definition delete_company (self : connection) (company_id : Z) : outcome unit :=
  deleting self (fun d => delete_from_companies_where_id d company_id).

Definition delete_all_companies (self : connection) : outcome unit :=
  deleting self delete_from_companies.

End DBManager.

Module DBSaver.

Definition save_company (db_manager : connection) (company : company_data.t)
  : outcome (option Z) :=
  DBManager.insert_company db_manager company.

(** The value of [insert_vacancy] is dropped. *)
Definition save_vacancies (db_manager : connection) (data : vacancy_data.t)
  : outcome unit :=
  match DBManager.insert_vacancy db_manager data with
  | Returned _ c => Returned tt c
  | Raised e c => Raised e c
  end.

(** [if record_id:] is false for [None] and for [0]. *)
Definition truthy (record_id : option Z) : bool :=
  match record_id with
  | None => false
  | Some n => negb (n =? 0)
  end.

Definition delete_company (db_manager : connection) (record_id : option Z)
  : outcome unit :=
  match record_id with
  | Some n =>
      if truthy record_id then DBManager.delete_company db_manager n
      else DBManager.delete_all_companies db_manager
  | None => DBManager.delete_all_companies db_manager
  end.

Definition delete_vacancy (db_manager : connection) (record_id : option Z)
  : outcome unit :=
  match record_id with
  | Some n =>
      if truthy record_id then DBManager.delete_vacancy db_manager n
      else DBManager.delete_all_vacancies db_manager
  | None => DBManager.delete_all_vacancies db_manager
  end.

End DBSaver.

(** ** The states the program can be in *)

(** Every connection a run of the program can hold: a first start, a later
    start on the same server, and any method call on a connection reached
    before, however the call ends. *)
Inductive reachable : connection -> Prop :=
| reach_init : reachable DBManager.init
| reach_restart self :
    reachable self -> reachable (mkconn Ready (conn_db self))
| reach_close self :
    reachable self -> reachable (DBManager.close self)
| reach_insert_company self company :
    reachable self ->
    reachable (conn_after (DBManager.insert_company self company))
| reach_insert_vacancy self vacancy :
    reachable self ->
    reachable (conn_after (DBManager.insert_vacancy self vacancy))
| reach_delete_vacancy self vacancy_id :
    reachable self ->
    reachable (conn_after (DBManager.delete_vacancy self vacancy_id))
| reach_delete_all_vacancies self :
    reachable self ->
    reachable (conn_after (DBManager.delete_all_vacancies self))
| reach_delete_company self company_id :
    reachable self ->
    reachable (conn_after (DBManager.delete_company self company_id))
| reach_delete_all_companies self :
    reachable self ->
    reachable (conn_after (DBManager.delete_all_companies self))
| reach_get_avg_salary self :
    reachable self ->
    reachable (conn_after (DBManager.get_avg_salary self))
| reach_get_companies_and_vacancies_count self o :
    reachable self ->
    DBManager.get_companies_and_vacancies_count self o ->
    reachable (conn_after o)
| reach_get_all_vacancies self o :
    reachable self ->
    DBManager.get_all_vacancies self o ->
    reachable (conn_after o)
| reach_get_vacancies_with_keyword self keyword o :
    reachable self ->
    DBManager.get_vacancies_with_keyword self keyword o ->
    reachable (conn_after o)
| reach_get_vacancies_with_higher_salary self o :
    reachable self ->
    DBManager.get_vacancies_with_higher_salary self o ->
    reachable (conn_after o).

(** ** Vocabulary of the statements *)

(** The companies with a given name. *)
Definition rows_named (d : database) (name : string) : list Companies.row :=
  filter (fun c => String.eqb (Companies.name c) name) (companies d).

(** The vacancies with a given url. *)
Definition rows_with_url (d : database) (url : option string)
  : list Vacancies.row :=
  filter (fun v => sql_eq_text (Vacancies.url v) url) (vacancies d).

(** The vacancies whose [company_id] is a given id. *)
Definition vacancies_of (d : database) (company_id : Z) : list Vacancies.row :=
  filter (fun v => sql_eq_int (Vacancies.company_id v) (Some company_id))
         (vacancies d).

(** The arithmetic mean of a list of numbers, none for the empty list. *)
Definition mean (l : list Q) : option Q :=
  match l with
  | [] => None
  | _ :: _ => Some (Qsum l / inject_Z (Z.of_nat (List.length l)))%Q
  end.

(** The midpoints [(salary_from + salary_to) / 2] of the vacancies that have
    both bounds, computed on unbounded integers. *)
Definition midpoints_of (l : list Vacancies.row) : list Q :=
  flat_map
    (fun v =>
       match Vacancies.salary_from v, Vacancies.salary_to v with
       | Some a, Some b => [(inject_Z (a + b) / 2)%Q]
       | _, _ => []
       end)
    l.

Definition midpoints (d : database) : list Q := midpoints_of (vacancies d).

(** The same midpoints as the query computes them: [NUMERIC] quotients by
    [2.0]. *)
Definition numeric_midpoints_of (l : list Vacancies.row) : list numeric :=
  flat_map
    (fun v =>
       match Vacancies.salary_from v, Vacancies.salary_to v with
       | Some a, Some b => [numeric_div (of_int (a + b)) two_point_zero]
       | _, _ => []
       end)
    l.

(** The scale of the average: that of the sum of the midpoints divided by
    their number. *)
Definition avg_scale (d : database) : Z :=
  let xs := numeric_midpoints_of (vacancies d) in
  select_div_scale (numeric_sum xs) (of_int (Z.of_nat (List.length xs))).

(** What the query gives while the sums fit: the average of these
    midpoints. *)
Definition avg_of_midpoints (d : database) : option Q :=
  option_map num_value (AVG (map Some (numeric_midpoints_of (vacancies d)))).

(** [q] has [scale] digits after the point, and no number with [scale]
    digits is nearer to [m]. *)
Definition nearest_decimal (scale : Z) (m q : Q) : Prop :=
  (exists k : Z, q == k # Z.to_pos (10 ^ scale))%Q /\
  (Qabs (q - m) * (2 * inject_Z (10 ^ scale)) <= 1)%Q.

(** No vacancy with both bounds has a sum outside [INT]. *)
Definition sums_fit_in (l : list Vacancies.row) : Prop :=
  forall v a b,
    In v l ->
    Vacancies.salary_from v = Some a -> Vacancies.salary_to v = Some b ->
    in_int4 (a + b) = true.

Definition sums_fit (d : database) : Prop := sums_fit_in (vacancies d).

(** The midpoint of a vacancy is above [avg]; false when a bound is NULL. *)
Definition exceeds (avg : Q) (v : Vacancies.row) : bool :=
  match Vacancies.salary_from v, Vacancies.salary_to v with
  | Some a, Some b => Qgtb (inject_Z (a + b) / 2)%Q avg
  | _, _ => false
  end.

(** A value a column of type [VARCHAR(255)] takes as it is. *)
Definition fits_varchar255 (x : option string) : Prop :=
  match x with
  | None => True
  | Some s => (characters s <= 255)%nat
  end.

(** psycopg2 adapts a [str] parameter only when it has no NUL character;
    [None] is always adapted. *)
Definition without_nul (s : string) : bool :=
  forallb (fun c => negb (Ascii.eqb c Ascii.zero)) (list_ascii_of_string s).

Definition sendable (x : option string) : Prop :=
  match x with
  | None => True
  | Some s => without_nul s = true
  end.

(** A text of ASCII characters other than NUL: one byte per character, and
    letters that fold the same way in every locale this file is about. *)
Definition ascii_char (c : ascii) : bool :=
  match c with
  | Ascii _ _ _ _ _ _ _ b7 => negb b7 && negb (Ascii.eqb c Ascii.zero)
  end.

Definition ascii_text (s : string) : bool :=
  forallb ascii_char (list_ascii_of_string s).

(** [keyword] occurs in [title], letters compared without regard to case. *)
Definition contains_ignoring_case (title keyword : string) : Prop :=
  exists before after : list ascii,
    map lower (list_ascii_of_string title) =
    (before ++ map lower (list_ascii_of_string keyword) ++ after)%list.

(** No [%], [_] or backslash in the keyword. *)
Definition plain_char (c : ascii) : bool :=
  negb (Ascii.eqb c "%" || Ascii.eqb c "_" || Ascii.eqb c "\").

Definition plain (keyword : string) : bool :=
  forallb plain_char (list_ascii_of_string keyword).

(** Every vacancy has the id of a row of [companies] in [company_id]. *)
Definition every_vacancy_references_a_company (d : database) : Prop :=
  forall v, In v (vacancies d) ->
    exists c, In c (companies d) /\
              Vacancies.company_id v = Some (Companies.id c).

(** Every vacancy whose [company_id] is not NULL has there the id of a row of
    [companies]. *)
Definition foreign_key_holds (d : database) : Prop :=
  forall v k, In v (vacancies d) -> Vacancies.company_id v = Some k ->
    exists c, In c (companies d) /\ Companies.id c = k.

(** Two calls of [insert_company] with the same name, one after the other:
    both return the same id, the second changes no company, and one company
    has the name afterwards. *)
Definition ensure_company_twice (self : connection) (name : string)
  (url1 description1 url2 description2 : option string) : Prop :=
  exists company_id c1 c2,
    DBManager.insert_company self
      (company_data.mk (Some name) url1 description1)
    = Returned (Some company_id) c1 /\
    DBManager.insert_company c1
      (company_data.mk (Some name) url2 description2)
    = Returned (Some company_id) c2 /\
    companies (conn_db c2) = companies (conn_db c1) /\
    List.length (rows_named (conn_db c2) name) = 1%nat.





(** ** Sample data *)

Definition acme : company_data.t := company_data.mk (Some "Acme") None None.

Definition vacancy (company_id : option Z) (title : string)
  (salary_from salary_to : option Z) (url : string) : vacancy_data.t :=
  vacancy_data.mk company_id (Some title) salary_from salary_to (Some url)
                  (Some "").

Definition senior_engineer : vacancy_data.t :=
  vacancy (Some 1) "Senior Engineer" (Some 1000) (Some 3000)
          "https://api.hh.ru/vacancies/1".

Definition long_name : string := string_of_list_ascii (repeat "a"%char 256).

(** The connection after the calls of [calls], each on the connection the
    one before left. *)
Definition after_all (calls : list (connection -> connection))
  (self : connection) : connection :=
  fold_left (fun c call => call c) calls self.

Definition saving_company (company : company_data.t) (c : connection)
  : connection :=
  conn_after (DBSaver.save_company c company).

Definition saving_vacancy (data : vacancy_data.t) (c : connection)
  : connection :=
  conn_after (DBSaver.save_vacancies c data).

(** One company and the same vacancy record saved twice. *)
Definition ingested_twice : connection :=
  after_all [saving_company acme; saving_vacancy senior_engineer;
             saving_vacancy senior_engineer] DBManager.init.

(** One company, and one vacancy whose bounds are both in [INT] while their
    sum is not. *)
Definition with_large_salaries : connection :=
  after_all [saving_company acme;
             saving_vacancy (vacancy (Some 1) "Chief Executive"
                               (Some 2147483647) (Some 1)
                               "https://api.hh.ru/vacancies/2")]
            DBManager.init.

(** One company; a vacancy with both bounds and one with the upper bound
    only. *)
Definition with_one_bound : connection :=
  after_all [saving_company acme;
             saving_vacancy (vacancy (Some 1) "Welder" (Some 1000) (Some 3000)
                               "https://api.hh.ru/vacancies/3");
             saving_vacancy (vacancy (Some 1) "Fitter" None (Some 5000)
                               "https://api.hh.ru/vacancies/4")]
            DBManager.init.

(** One company with vacancies of midpoints 1000, 2000 and 3000. *)
Definition three_midpoints : connection :=
  after_all [saving_company acme;
             saving_vacancy (vacancy (Some 1) "Junior" (Some 800) (Some 1200)
                               "https://api.hh.ru/vacancies/5");
             saving_vacancy (vacancy (Some 1) "Middle" (Some 1500) (Some 2500)
                               "https://api.hh.ru/vacancies/6");
             saving_vacancy (vacancy (Some 1) "Senior" (Some 3000) (Some 3000)
                               "https://api.hh.ru/vacancies/7")]
            DBManager.init.

(** The same, but the third vacancy was saved with [company_id] [None], as
    [main.py] does after [save_company] returned [None]. *)
Definition with_unlinked_vacancy : connection :=
  after_all [saving_company acme;
             saving_vacancy (vacancy (Some 1) "Junior" (Some 800) (Some 1200)
                               "https://api.hh.ru/vacancies/5");
             saving_vacancy (vacancy (Some 1) "Middle" (Some 1500) (Some 2500)
                               "https://api.hh.ru/vacancies/6");
             saving_vacancy (vacancy None "Senior" (Some 3000) (Some 3000)
                               "https://api.hh.ru/vacancies/7")]
            DBManager.init.

(** Two companies, no vacancy. *)
Definition two_companies : connection :=
  after_all [saving_company acme;
             saving_company (company_data.mk (Some "Bolt") None None)]
            DBManager.init.

(** A name of 255 letters followed by a space: the column stores it without
    the space. *)
Definition letters255 : string := string_of_list_ascii (repeat "a"%char 255).

Definition padded_name : string := (letters255 ++ " ")%string.

(** The company with that name saved twice, and a vacancy of the first. *)
Definition padded_name_twice : connection :=
  after_all [saving_company (company_data.mk (Some padded_name) None None);
             saving_company (company_data.mk (Some padded_name) None None);
             saving_vacancy (vacancy (Some 1) "Welder" (Some 1000) (Some 3000)
                               "https://api.hh.ru/vacancies/3")]
            DBManager.init.

(** One company with two vacancies, and then a vacancy for company 7, which
    does not exist: the connection [insert_vacancy] leaves when it raises. *)
Definition after_refused_vacancy : connection :=
  saving_vacancy (vacancy (Some 7) "Senior" (Some 3000) (Some 3000)
                    "https://api.hh.ru/vacancies/7")
                 ingested_twice.

(** One company with vacancies of midpoints 1, 1 and 2. *)
Definition with_thirds : connection :=
  after_all [saving_company acme;
             saving_vacancy (vacancy (Some 1) "Junior" (Some 1) (Some 1)
                               "https://api.hh.ru/vacancies/5");
             saving_vacancy (vacancy (Some 1) "Middle" (Some 1) (Some 1)
                               "https://api.hh.ru/vacancies/6");
             saving_vacancy (vacancy (Some 1) "Senior" (Some 2) (Some 2)
                               "https://api.hh.ru/vacancies/7")]
            DBManager.init.

(** ** How a method call can change the database *)

(** The changes the statements of the source make: a value drawn from a
    sequence, with or without the row it was drawn for, and rows deleted. *)
Inductive change (d : database) : database -> Prop :=
| change_nothing : change d d
| change_companies_id_seq :
    companies_id_seq d <= int4_max ->
    change d (set_companies_id_seq d (companies_id_seq d + 1))
| change_company row :
    companies_id_seq d <= int4_max ->
    Companies.id row = companies_id_seq d ->
    change d (set_companies (set_companies_id_seq d (companies_id_seq d + 1))
                            (companies d ++ [row]))
| change_vacancies_id_seq :
    vacancies_id_seq d <= int4_max ->
    change d (set_vacancies_id_seq d (vacancies_id_seq d + 1))
| change_vacancy row :
    vacancies_id_seq d <= int4_max ->
    Vacancies.id row = vacancies_id_seq d ->
    references_company d (Vacancies.company_id row) = true ->
    change d (set_vacancies (set_vacancies_id_seq d (vacancies_id_seq d + 1))
                            (vacancies d ++ [row]))
| change_vacancies_deleted keep :
    change d (set_vacancies d (filter keep (vacancies d)))
| change_companies_deleted doomed :
    change d (delete_from_companies_where doomed d).

(** The primary keys: every id was handed out by its sequence, so it is
    positive and below the next value, and no two rows share one. *)
Definition primary_keys_hold (d : database) : Prop :=
  1 <= companies_id_seq d <= int4_max + 1 /\
  1 <= vacancies_id_seq d <= int4_max + 1 /\
  (forall c, In c (companies d) -> 1 <= Companies.id c < companies_id_seq d) /\
  (forall v, In v (vacancies d) -> 1 <= Vacancies.id v < vacancies_id_seq d) /\
  NoDup (map Companies.id (companies d)) /\
  NoDup (map Vacancies.id (vacancies d)).

(** The company a vacancy belongs to, if any. *)
Definition company_of (d : database) (v : Vacancies.row)
  : option Companies.row :=
  find (fun c => sql_eq_int (Vacancies.company_id v) (Some (Companies.id c)))
       (companies d).

(** One row per vacancy that has a company, with the name of that company. *)
Definition linked_vacancies (d : database) : list vacancy_info :=
  flat_map
    (fun v =>
       match company_of d v with
       | Some c => [info_of (v, c)]
       | None => []
       end)
    (vacancies d).

(** The vacancies whose [company_id] is not NULL. *)
Definition has_company (v : Vacancies.row) : bool :=
  match Vacancies.company_id v with
  | Some _ => true
  | None => false
  end.

(** A value a column of type [INT] takes. *)
Definition fits_int4 (x : option Z) : Prop :=
  match x with
  | None => True
  | Some z => in_int4 z = true
  end.

(** The row [insert_vacancy] stores for a record with a title. *)
Definition stored_vacancy (d : database) (v : vacancy_data.t) (title : string)
  : Vacancies.row :=
  Vacancies.mk (vacancies_id_seq d) (vacancy_data.company_id v) title
               (vacancy_data.salary_from v) (vacancy_data.salary_to v)
               (vacancy_data.url v) (vacancy_data.description v).

(** A record whose values the columns of [vacancies] take as they are: a
    title of at most 255 characters, a url that is null or of at most 255
    characters, integers in the range of [INT]. *)
Definition acceptable (v : vacancy_data.t) : Prop :=
  (exists title, vacancy_data.title v = Some title /\
                 (characters title <= 255)%nat) /\
  fits_varchar255 (vacancy_data.url v) /\
  fits_int4 (vacancy_data.company_id v) /\
  fits_int4 (vacancy_data.salary_from v) /\
  fits_int4 (vacancy_data.salary_to v).

(** A record whose texts psycopg2 adapts. *)
Definition adaptable (v : vacancy_data.t) : Prop :=
  sendable (vacancy_data.title v) /\
  sendable (vacancy_data.url v) /\
  sendable (vacancy_data.description v).

(** Two companies saved, then all companies deleted. *)
Definition companies_deleted : connection :=
  conn_after (DBManager.delete_all_companies two_companies).

(** ** [main.py]: loading vacancies into the database (menu choice 1)

    The module [hh_api] is not part of the sources at hand; what its
    [get_vacancies] gives for a company name is a parameter.  The records it
    returns are dictionaries read with [.get]; the keys the code reads are
    [name], [url], [snippet] (with [responsibility]) and [salary] (with
    [from] and [to]).  What the loop prints is kept as a list of messages,
    without the wording. *)

(** A key of such a dictionary: absent, present with [None], or present
    with a value. *)
Inductive entry (A : Type) : Type :=
| Missing
| Null
| Value (a : A).

Arguments Missing {A}.
Arguments Null {A}.
Arguments Value {A} a.

(** [d.get(key, default)]: the default stands in for an absent key only. *)
Definition get {A} (e : entry A) (default : A) : option A :=
  match e with
  | Missing => Some default
  | Null => None
  | Value a => Some a
  end.

Module Salary.
Record t : Type := mk {
  from : entry Z;
  to : entry Z
}.
End Salary.

Module Snippet.
Record t : Type := mk {
  responsibility : entry string
}.
End Snippet.

Module HHVacancy.
Record t : Type := mk {
  name : entry string;
  url : entry string;
  snippet : entry Snippet.t;
  salary : entry Salary.t
}.
End HHVacancy.

(** What the two [except Exception] branches of the loop can catch. *)
Inductive exception : Type :=
| AttributeError                 (* [None.get(...)] *)
| DatabaseError (e : error)
| ApiError.                      (* whatever [hh_api.get_vacancies] raises *)

Inductive message : Type :=
| Loading (company_name : string)
| VacancyFailed (vacancy : HHVacancy.t) (e : exception)
| NoVacancies (company_name : string)
| CompanyFailed (company_name : string) (e : exception).

(** The dictionary [vacancy_data] built from a record; [{}] is the
    dictionary with every key absent. *)
Definition vacancy_data_of (company_id : option Z) (vacancy : HHVacancy.t)
  : exception + vacancy_data.t :=
  let title := get (HHVacancy.name vacancy) "вакансия без названия" in
  let url := get (HHVacancy.url vacancy) "alternate_url" in
  match get (HHVacancy.snippet vacancy) (Snippet.mk Missing) with
  | None => inl AttributeError
  | Some snippet =>
      let description := get (Snippet.responsibility snippet) "" in
      let (salary_from, salary_to) :=
        match get (HHVacancy.salary vacancy) (Salary.mk Missing Missing) with
        | Some salary => (get (Salary.from salary) 0, get (Salary.to salary) 0)
        | None => (Some 0, Some 0)
        end in
      inr (vacancy_data.mk company_id title salary_from salary_to url
                           description)
  end.

(** The body of the inner loop, with its [try] and [except]. *)
Definition save_vacancy (saver : connection) (company_id : option Z)
  (vacancy : HHVacancy.t) : connection * list message :=
  match vacancy_data_of company_id vacancy with
  | inl e => (saver, [VacancyFailed vacancy e])
  | inr data =>
      match DBSaver.save_vacancies saver data with
      | Returned _ c => (c, [])
      | Raised e c => (c, [VacancyFailed vacancy (DatabaseError e)])
      end
  end.

(** [for vacancy in vacancies: ...] *)
Fixpoint save_vacancies_of (saver : connection) (company_id : option Z)
  (vacancies : list HHVacancy.t) : connection * list message :=
  match vacancies with
  | [] => (saver, [])
  | vacancy :: rest =>
      let (c, printed) := save_vacancy saver company_id vacancy in
      let (c', printed') := save_vacancies_of c company_id rest in
      (c', printed ++ printed')
  end.

(** How [hh_api.get_vacancies(company_name)] ends. *)
Inductive fetched : Type :=
| ApiRaises
| ApiReturns (vacancies : list HHVacancy.t).

(** The body of the outer loop, with its [try] and [except]. *)
Definition load_company (saver : connection)
  (get_vacancies : string -> fetched) (company_name : string)
  : connection * list message :=
  match get_vacancies company_name with
  | ApiRaises => (saver, [Loading company_name; CompanyFailed company_name ApiError])
  | ApiReturns [] => (saver, [Loading company_name; NoVacancies company_name])
  | ApiReturns (vacancy :: rest) =>
      match DBSaver.save_company saver
              (company_data.mk (Some company_name) None None) with
      | Raised e c =>
          (c, [Loading company_name;
               CompanyFailed company_name (DatabaseError e)])
      | Returned company_id c =>
          let (c', printed) :=
            save_vacancies_of c company_id (vacancy :: rest) in
          (c', Loading company_name :: printed)
      end
  end.

(** [for company_name in company_names: ...] *)
Fixpoint load_vacancies (saver : connection)
  (get_vacancies : string -> fetched) (company_names : list string)
  : connection * list message :=
  match company_names with
  | [] => (saver, [])
  | company_name :: rest =>
      let (c, printed) := load_company saver get_vacancies company_name in
      let (c', printed') := load_vacancies c get_vacancies rest in
      (c', printed ++ printed')
  end.


(** The url of every company is NULL. *)
Definition no_company_url (d : database) : Prop :=
  Forall (fun c => Companies.url c = None) (companies d).

(** A record [insert_vacancy] accepts whatever the database holds, but for
    the foreign key and the sequence. *)
Definition storable (vacancy : HHVacancy.t) : Prop :=
  exists data title,
    vacancy_data_of None vacancy = inr data /\
    vacancy_data.title data = Some title /\
    (characters title <= 255)%nat /\
    without_nul title = true /\
    fits_varchar255 (vacancy_data.url data) /\
    sendable (vacancy_data.url data) /\
    sendable (vacancy_data.description data) /\
    fits_int4 (vacancy_data.salary_from data) /\
    fits_int4 (vacancy_data.salary_to data).

(** Sample records: a complete one, and one whose name is too long for
    the title column. *)
Definition welder : HHVacancy.t :=
  HHVacancy.mk (Value "Welder") (Value "https://api.hh.ru/vacancies/8")
               (Value (Snippet.mk (Value "welds")))
               (Value (Salary.mk (Value 1000) (Value 2000))).

Definition overlong : HHVacancy.t :=
  HHVacancy.mk (Value long_name) Missing Missing Missing.

(** A sample answer of the API: for "Acme" the overlong record and then the
    complete one, for "Bolt" the complete one, nothing for other names. *)
Definition sample_api (company_name : string) : fetched :=
  if String.eqb company_name "Acme" then ApiReturns [overlong; welder]
  else if String.eqb company_name "Bolt" then ApiReturns [welder]
  else ApiReturns [].

(** ** [config.py] and the start of [interface] *)

(** [s.split(', ')]: the pieces of [s] between the occurrences of a comma
    followed by a space, taken from the left. *)
Fixpoint split (s : string) : list string :=
  match s with
  | EmptyString => [EmptyString]
  | String c s' =>
      match s' with
      | EmptyString => [String c EmptyString]
      | String d s'' =>
          if Ascii.eqb c "," && Ascii.eqb d " "
          then EmptyString :: split s''
          else match split s' with
               | [] => [String c EmptyString]
               | piece :: pieces => String c piece :: pieces
               end
      end
  end.

(** A comma followed by a space occurs in [s]. *)
Fixpoint has_separator (s : string) : bool :=
  match s with
  | EmptyString => false
  | String c s' =>
      match s' with
      | EmptyString => false
      | String d _ => (Ascii.eqb c "," && Ascii.eqb d " ") || has_separator s'
      end
  end.

(** A Python dictionary with string keys; a key occurs once. *)
Definition dict (A : Type) : Type := list (string * A).

(** [d[key]], [None] standing for [KeyError]. *)
Fixpoint getitem {A} (d : dict A) (key : string) : option A :=
  match d with
  | [] => None
  | (k, a) :: d' => if String.eqb k key then Some a else getitem d' key
  end.

(** [d.pop(key)]: the value and the dictionary without the key, [None]
    standing for [KeyError]. *)
Fixpoint pop {A} (d : dict A) (key : string) : option (A * dict A) :=
  match d with
  | [] => None
  | (k, a) :: d' =>
      if String.eqb k key then Some (a, d')
      else match pop d' key with
           | Some (b, d'') => Some (b, (k, a) :: d'')
           | None => None
           end
  end.

(** [d[key] = a] *)
Fixpoint setitem {A} (d : dict A) (key : string) (a : A) : dict A :=
  match d with
  | [] => [(key, a)]
  | (k, b) :: d' =>
      if String.eqb k key then (k, a) :: d' else (k, b) :: setitem d' key a
  end.

(** The dictionary [Config.__config]; the values of [os.getenv] are strings
    or [None]. *)
Module Config.
Record t : Type := mk {
  company_names : list string;
  vacancies_path : option string;
  db : dict (option string)
}.
End Config.

(** [Config.__load_config], given [os.getenv] after [load_dotenv]; [None]
    stands for the [AttributeError] of [None.split]. *)
Definition load_config (getenv : string -> option string) : option Config.t :=
  match getenv "COMPANY_NAMES" with
  | None => None
  | Some names =>
      Some (Config.mk (split names) (getenv "VACANCIES_PATH")
              [("user", getenv "DATABASE_USER");
               ("password", getenv "DATABASE_PASSWORD");
               ("host", getenv "DATABASE_HOST");
               ("port", getenv "DATABASE_PORT");
               ("name", getenv "DATABASE_NAME")])
  end.

(** The first statements of [interface]: [config.get_db()] hands out the
    dictionary of the configuration itself, so
    [db_params['dbname'] = db_params.pop('name')] changes the configuration.
    The result is the configuration afterwards and [db_params]; [None]
    stands for the [KeyError] of [pop]. *)
Definition get_db_params (config : Config.t)
  : option (Config.t * dict (option string)) :=
  match pop (Config.db config) "name" with
  | None => None
  | Some (name, db_params) =>
      let db_params := setitem db_params "dbname" name in
      Some (Config.mk (Config.company_names config)
                      (Config.vacancies_path config) db_params,
            db_params)
  end.

(** The keys [DBManager.__init__] reads from [db_params]. *)
Definition connect_keys : list string :=
  ["dbname"; "user"; "password"; "host"; "port"].

(** A sample environment: two company names and the name of the database. *)
Definition sample_env (key : string) : option string :=
  if String.eqb key "COMPANY_NAMES" then Some "Acme, Bolt"
  else if String.eqb key "DATABASE_NAME" then Some "hh"
  else None.

(** ** [main.py]: showing the average salary (menu choice 4)

    What is printed, without the wording: [if avg_salary:] is false for
    [None] and for a zero. *)
Inductive salary_report : Type :=
| AverageSalary (avg_salary : Q)
| NoSalaryData.

Definition show_avg_salary (avg_salary : option Q) : salary_report :=
  match avg_salary with
  | Some q => if Qeq_bool q 0 then NoSalaryData else AverageSalary q
  | None => NoSalaryData
  end.

(** The rows a keyword search is to find: the vacancies with a company whose
    title contains the keyword, letters compared without regard to case. *)
Definition found_by (d : database) (keyword : string) (hit : vacancy_hit)
  : Prop :=
  exists v c,
    In (v, c) (vacancies_join_companies d) /\
    contains_ignoring_case (Vacancies.title v) keyword /\
    hit = hit_of (v, c).

(** * Properties *)

(** ** Lists *)

Lemma filter_map_commute {A B} (p : B -> bool) (f : A -> B) (l : list A) :
  filter p (map f l) = map f (filter (fun a => p (f a)) l).
Proof.
  induction l as [| a l IH]; [reflexivity |].
  cbn [map filter]. rewrite IH. destruct (p (f a)); reflexivity.
Qed.

Lemma filter_filter_swap {A} (p q : A -> bool) (l : list A) :
  filter p (filter q l) = filter q (filter p l).
Proof.
  induction l as [| a l IH]; [reflexivity |].
  cbn [filter].
  destruct (p a) eqn:Hp, (q a) eqn:Hq; cbn [filter];
    rewrite ?Hp, ?Hq, IH; reflexivity.
Qed.

Lemma filter_none {A} (p : A -> bool) (l : list A) :
  (forall a, In a l -> p a = false) -> filter p l = [].
Proof.
  induction l as [| a l IH]; [reflexivity |].
  intros H. cbn [filter]. rewrite (H a (or_introl eq_refl)).
  apply IH. intros b Hb. apply H. right; exact Hb.
Qed.

Lemma filter_all {A} (p : A -> bool) (l : list A) :
  (forall a, In a l -> p a = true) -> filter p l = l.
Proof.
  induction l as [| a l IH]; [reflexivity |].
  intros H. cbn [filter]. rewrite (H a (or_introl eq_refl)).
  rewrite IH; [reflexivity |]. intros b Hb. apply H. right; exact Hb.
Qed.

(** ** Running one statement *)

Lemma execute_reading_ready {A} (self : connection)
  (select : database -> result A) :
  conn_status self = Ready ->
  execute self (reading select) =
  (mkconn (match select (conn_db self) with inl _ => Aborted | inr _ => Ready end)
          (conn_db self),
   select (conn_db self)).
Proof.
  intros H. unfold execute, reading. rewrite H. reflexivity.
Qed.

Lemma ready_eta (self : connection) :
  conn_status self = Ready -> mkconn Ready (conn_db self) = self.
Proof.
  destruct self as [s d]; simpl; intros ->; reflexivity.
Qed.

Lemma varchar_fits (n : nat) (s : string) :
  (characters s <= n)%nat -> varchar n s = ret s.
Proof.
  intros H. unfold varchar.
  destruct (Nat.leb_spec (characters s) n) as [_ | Hlt]; [reflexivity | lia].
Qed.

Lemma nullable_varchar_fits (x : option string) :
  fits_varchar255 x -> nullable (varchar 255) x = ret x.
Proof.
  destruct x as [s |]; simpl; intros H; [| reflexivity].
  rewrite (varchar_fits 255 s H). reflexivity.
Qed.

(** ** Dedup of vacancies (C1) *)

(** C1, evaluated: after [save_company] of a company (url [None], as
    [main.py] builds it) and two [save_vacancies] of one and the same record,
    the lookup by url in [companies] found nothing either time, both calls
    inserted, and two rows of [vacancies] have that url. *)
Theorem same_vacancy_saved_twice_gives_two_rows :
  DBSaver.save_company DBManager.init acme
  = Returned (Some 1) (saving_company acme DBManager.init) /\
  select_id_where_url (conn_db (saving_company acme DBManager.init))
                      (vacancy_data.url senior_engineer) = [] /\
  conn_status ingested_twice = Ready /\
  List.length (rows_with_url (conn_db ingested_twice)
                             (vacancy_data.url senior_engineer)) = 2%nat.
Proof.
  repeat split; vm_compute; reflexivity.
Qed.

(** While every company has url NULL, which is all [main.py] ever stores, the
    lookup of [insert_vacancy] finds nothing whatever the vacancies are. *)
Lemma select_id_where_url_null_urls (d : database) (url : option string) :
  Forall (fun c => Companies.url c = None) (companies d) ->
  select_id_where_url d url = [].
Proof.
  unfold select_id_where_url. intros H.
  induction H as [| c cs Hc _ IH]; simpl; [reflexivity |].
  rewrite Hc. simpl. exact IH.
Qed.


(** ** [insert_company] called twice (C2) *)

Lemma select_id_where_name_rows_named (d : database) (name : string) :
  select_id_where_name d (Some name) = map Companies.id (rows_named d name).
Proof. reflexivity. Qed.

(** With distinct names the lookup of [insert_company] has at most one row,
    so [fetchone] has no choice. *)
Lemma select_id_where_name_at_most_one (d : database) (name : option string) :
  NoDup (map Companies.name (companies d)) ->
  (List.length (select_id_where_name d name) <= 1)%nat.
Proof.
  unfold select_id_where_name. rewrite length_map.
  destruct name as [n |]; cbn [sql_eq_text].
  - induction (companies d) as [| c cs IH]; intros Hnodup; [cbn; lia |].
    cbn [map] in Hnodup. apply NoDup_cons_iff in Hnodup.
    destruct Hnodup as (Hc & Hcs). cbn [filter].
    destruct (String.eqb_spec (Companies.name c) n) as [Heq | Hneq].
    + rewrite filter_none; [cbn; lia |].
      intros c' Hc'. apply String.eqb_neq. intros Heq'. apply Hc.
      rewrite Heq, <- Heq'. apply in_map. exact Hc'.
    + exact (IH Hcs).
  - intros _. rewrite filter_none; [cbn; lia | reflexivity].
Qed.

Lemma insert_company_found (self : connection) (company : company_data.t)
  (name : string) (c : Companies.row) (cs : list Companies.row) :
  conn_status self = Ready ->
  company_data.name company = Some name ->
  rows_named (conn_db self) name = c :: cs ->
  DBManager.insert_company self company = Returned (Some (Companies.id c)) self.
Proof.
  intros Hready Hname Hrows.
  unfold DBManager.insert_company.
  rewrite Hready, execute_reading_ready by exact Hready.
  cbn [ret]. rewrite Hname, select_id_where_name_rows_named, Hrows.
  cbn [map fetchone hd_error].
  rewrite ready_eta by exact Hready.
  unfold commit. rewrite ready_eta by exact Hready. reflexivity.
Qed.

Lemma insert_company_new (self : connection) (name : string)
  (url description : option string) :
  conn_status self = Ready ->
  (characters name <= 255)%nat ->
  fits_varchar255 url ->
  companies_id_seq (conn_db self) <= int4_max ->
  rows_named (conn_db self) name = [] ->
  let i := companies_id_seq (conn_db self) in
  DBManager.insert_company self (company_data.mk (Some name) url description)
  = Returned (Some i)
      (mkconn Ready
         (set_companies (set_companies_id_seq (conn_db self) (i + 1))
            (companies (conn_db self)
             ++ [Companies.mk i name url description]))).
Proof.
  intros Hready Hlen Hurl Hseq Hrows i.
  unfold DBManager.insert_company.
  rewrite Hready, execute_reading_ready by exact Hready.
  cbn [ret company_data.name company_data.url company_data.description].
  rewrite select_id_where_name_rows_named, Hrows.
  cbn [map fetchone hd_error].
  unfold execute. cbn [conn_status conn_db].
  unfold insert_into_companies.
  cbn [nullable]. rewrite (varchar_fits 255 name Hlen).
  rewrite (nullable_varchar_fits url Hurl).
  cbn [bind ret]. unfold nextval.
  destruct (Z.leb_spec (companies_id_seq (conn_db self)) int4_max) as [_ | Hgt];
    [| lia].
  reflexivity.
Qed.

Lemma rows_named_after_insert (d : database) (i : Z) (name : string)
  (url description : option string) :
  rows_named d name = [] ->
  rows_named
    (set_companies (set_companies_id_seq d (i + 1))
                   (companies d ++ [Companies.mk i name url description]))
    name
  = [Companies.mk i name url description].
Proof.
  intros Hrows. unfold rows_named. cbn [set_companies companies].
  rewrite filter_app. fold (rows_named d name).
  rewrite Hrows. cbn [filter Companies.name app].
  rewrite String.eqb_refl. reflexivity.
Qed.

(** A name the column refuses, carried by no company: the call returns
    [None] and leaves the connection as it was. *)
Lemma insert_company_name_refused (self : connection) (name : string)
  (url description : option string) (e : error) :
  conn_status self = Ready ->
  varchar 255 name = raise e ->
  rows_named (conn_db self) name = [] ->
  DBManager.insert_company self (company_data.mk (Some name) url description)
  = Returned None self.
Proof.
  intros Hready Hname Hrows. unfold DBManager.insert_company.
  rewrite Hready, execute_reading_ready by exact Hready.
  cbn [ret company_data.name company_data.url company_data.description].
  rewrite select_id_where_name_rows_named, Hrows.
  cbn [map fetchone hd_error].
  unfold execute. cbn [conn_status conn_db].
  unfold insert_into_companies. cbn [nullable]. rewrite Hname.
  unfold raise, commit. cbn [bind conn_db].
  apply f_equal. apply ready_eta. exact Hready.
Qed.

(** C2, counterexample.  A name of 256 letters: both calls return [None] and
    no company has the name afterwards.  A name of 255 letters and a space:
    the column stores the 255 letters, the lookup of the second call looks
    for the name with the space and finds nothing, so the calls return the
    ids 1 and 2 and two companies carry the same stored name; on that
    database two calls with the 255 letters return the same id, and still two
    companies have the name. *)
Lemma ensure_company_twice_fails_on_long_name :
  ~ ensure_company_twice DBManager.init long_name None None None None /\
  ~ ensure_company_twice DBManager.init padded_name None None None None /\
  map (fun c => (Companies.id c, String.eqb (Companies.name c) letters255))
      (companies (conn_db padded_name_twice))
  = [(1, true); (2, true)] /\
  ~ ensure_company_twice padded_name_twice letters255 None None None None.
Proof.
  split; [| split; [| split]].
  - intros (i & c1 & c2 & H1 & _). vm_compute in H1. discriminate H1.
  - intros (i & c1 & c2 & H1 & H2 & _).
    assert (Hi : i = 1) by (vm_compute in H1; congruence).
    assert (Hc1 : c1 = saving_company
                         (company_data.mk (Some padded_name) None None)
                         DBManager.init)
      by (vm_compute in H1; vm_compute; congruence).
    subst i c1. vm_compute in H2. discriminate H2.
  - vm_compute. reflexivity.
  - intros (i & c1 & c2 & H1 & H2 & _ & Hone).
    assert (Hc1 : c1 = padded_name_twice)
      by (vm_compute in H1; vm_compute; congruence).
    subst c1.
    assert (Hc2 : c2 = padded_name_twice)
      by (vm_compute in H2; vm_compute; congruence).
    subst c2. vm_compute in Hone. discriminate Hone.
Qed.

(** C2, amended.  On an open connection without failed statement: for a name
    of at most 255 characters and without NUL, a first url that is null or of
    at most 255 characters, first url and description without NUL, and an id
    sequence that is not exhausted, two calls return the same id, which is
    that of a company with the name; the second call (whatever its
    url and description) leaves the connection as it is; the number of
    companies with the name afterwards is the number from before, or one if
    there was none, so exactly one company has the name when at most one had
    it.  For a name the column refuses, carried by no company, the call
    returns [None] and stores nothing. *)
Theorem ensure_company_twice_same_id (self : connection) :
  conn_status self = Ready ->
  (forall name url1 description1 url2 description2,
     (characters name <= 255)%nat ->
     without_nul name = true ->
     fits_varchar255 url1 ->
     sendable url1 ->
     sendable description1 ->
     companies_id_seq (conn_db self) <= int4_max ->
     exists company_id c1,
       DBManager.insert_company self
         (company_data.mk (Some name) url1 description1)
       = Returned (Some company_id) c1 /\
       DBManager.insert_company c1
         (company_data.mk (Some name) url2 description2)
       = Returned (Some company_id) c1 /\
       (exists row, In row (rows_named (conn_db c1) name) /\
                    Companies.id row = company_id) /\
       List.length (rows_named (conn_db c1) name)
       = Nat.max 1 (List.length (rows_named (conn_db self) name)) /\
       ((List.length (rows_named (conn_db self) name) <= 1)%nat ->
        ensure_company_twice self name url1 description1 url2 description2)) /\
  (forall name url description e,
     varchar 255 name = raise e ->
     rows_named (conn_db self) name = [] ->
     DBManager.insert_company self
       (company_data.mk (Some name) url description)
     = Returned None self).
Proof.
  intros Hready. split.
  - intros name url1 description1 url2 description2 Hlen _ Hurl _ _ Hseq.
    destruct (rows_named (conn_db self) name) as [| c cs] eqn:Hrows.
    + pose proof (insert_company_new self name url1 description1
                    Hready Hlen Hurl Hseq Hrows) as H1.
      cbv zeta in H1.
      set (i := companies_id_seq (conn_db self)) in *.
      set (c1 := mkconn Ready _) in H1.
      assert (Hrows1 : rows_named (conn_db c1) name
                       = [Companies.mk i name url1 description1])
        by (apply rows_named_after_insert; exact Hrows).
      assert (H2 : DBManager.insert_company c1
                     (company_data.mk (Some name) url2 description2)
                   = Returned (Some i) c1)
        by exact (insert_company_found c1
                    (company_data.mk (Some name) url2 description2) name _ []
                    eq_refl eq_refl Hrows1).
      exists i, c1. split; [exact H1 |]. split; [exact H2 |].
      rewrite Hrows1.
      split; [eexists; split; [left; reflexivity | reflexivity] |].
      split; [reflexivity |].
      intros _. exists i, c1, c1.
      split; [exact H1 |]. split; [exact H2 |]. split; [reflexivity |].
      rewrite Hrows1. reflexivity.
    + assert (H1 : forall url description,
                DBManager.insert_company self
                  (company_data.mk (Some name) url description)
                = Returned (Some (Companies.id c)) self)
        by (intros url description;
            exact (insert_company_found self
                     (company_data.mk (Some name) url description) name c cs
                     Hready eq_refl Hrows)).
      exists (Companies.id c), self. split; [apply H1 |].
      split; [apply H1 |]. rewrite Hrows.
      split; [exists c; split; [left; reflexivity | reflexivity] |].
      split; [reflexivity |].
      intros Hone. exists (Companies.id c), self, self.
      split; [apply H1 |]. split; [apply H1 |]. split; [reflexivity |].
      rewrite Hrows. cbn [List.length] in *. lia.
  - intros name url description e Hname Hrows.
    exact (insert_company_name_refused self name url description e
             Hready Hname Hrows).
Qed.

(** The amended C2 at concrete calls on the empty database: "Acme", with a
    new url and description the second time, and the name of 256 letters. *)
Lemma ensure_company_twice_same_id_witness :
  ensure_company_twice DBManager.init "Acme" None None
    (Some "https://acme.example") (Some "anvils") /\
  DBManager.insert_company DBManager.init
    (company_data.mk (Some long_name) None None)
  = Returned None DBManager.init.
Proof.
  destruct (ensure_company_twice_same_id DBManager.init eq_refl) as (HA & HB).
  split.
  - destruct (HA "Acme" None None (Some "https://acme.example") (Some "anvils"))
      as (i & c1 & _ & _ & _ & _ & Hens).
    + vm_compute. lia.
    + reflexivity.
    + exact I.
    + exact I.
    + exact I.
    + vm_compute. discriminate.
    + apply Hens. vm_compute. lia.
  - apply (HB long_name None None StringDataRightTruncation); reflexivity.
Defined.

(** ** Failures inside [insert_company] (C6) *)

Lemma insert_into_companies_refused (d d' : database)
  (name url description : option string) (e : error) :
  insert_into_companies d name url description = (d', inl e) ->
  companies d' = companies d /\ vacancies d' = vacancies d.
Proof.
  unfold insert_into_companies.
  destruct (n <- nullable (varchar 255) name ;;
            u <- nullable (varchar 255) url ;; ret (n, u)) as [e0 | [n u]].
  - intros H; inversion H; subst; split; reflexivity.
  - destruct (nextval (companies_id_seq d)) as [e1 | i].
    + intros H; inversion H; subst; split; reflexivity.
    + destruct n as [n' |]; intros H; inversion H; subst; split; reflexivity.
Qed.

(** C6, counterexample: a company dictionary without name.  The insert
    violates [NOT NULL], and the method returns [None] instead of raising. *)
Lemma insert_company_not_null_violation_returns_none :
  snd (insert_into_companies create_tables None None None)
  = raise NotNullViolation /\
  DBManager.insert_company DBManager.init (company_data.mk None None None)
  = Returned None (mkconn Ready (set_companies_id_seq create_tables 2)).
Proof.
  split; reflexivity.
Qed.

(** C6, amended: [insert_company] raises on a closed connection, and only
    there.  On an open one it always returns and leaves the connection
    [Ready]; when its lookup fails (a statement failed before) or its insert
    is refused (a constraint, a value too long, the sequence exhausted) it
    returns [None], and both relations are as before. *)
Theorem insert_company_raises_only_when_closed (self : connection)
  (company : company_data.t) :
  (conn_status self = Closed ->
   DBManager.insert_company self company = Raised InterfaceError self) /\
  (conn_status self = Aborted ->
   DBManager.insert_company self company = Returned None (commit self)) /\
  (conn_status self = Ready ->
   select_id_where_name (conn_db self) (company_data.name company) = [] ->
   forall d' e,
     insert_into_companies (conn_db self) (company_data.name company)
       (company_data.url company) (company_data.description company)
     = (d', inl e) ->
     DBManager.insert_company self company = Returned None (mkconn Ready d')) /\
  (conn_status self <> Closed ->
   exists r c,
     DBManager.insert_company self company = Returned r c /\
     conn_status c = Ready /\
     (r = None -> companies (conn_db c) = companies (conn_db self) /\
                  vacancies (conn_db c) = vacancies (conn_db self))).
Proof.
  unfold DBManager.insert_company.
  destruct self as [s d]; cbn [conn_status conn_db].
  repeat split.
  - intros ->. reflexivity.
  - intros ->. reflexivity.
  - intros -> Hsel d' e Hins. unfold execute, reading.
    cbn [conn_status conn_db ret]. rewrite Hsel. cbn [fetchone hd_error].
    rewrite Hins. reflexivity.
  - intros Hopen. destruct s; [| | contradiction Hopen; reflexivity].
    + unfold execute at 1, reading. cbn [conn_status conn_db ret].
      destruct (fetchone (select_id_where_name d (company_data.name company)))
        as [i |].
      * eexists _, _. split; [reflexivity |]. split; [reflexivity |].
        intros Hnone; discriminate Hnone.
      * unfold execute. cbn [conn_status conn_db].
        destruct (insert_into_companies d (company_data.name company)
                    (company_data.url company)
                    (company_data.description company)) as [d' [e | i]] eqn:Hins.
        -- eexists _, _. split; [reflexivity |]. split; [reflexivity |].
           intros _. cbn [commit conn_db].
           exact (insert_into_companies_refused _ _ _ _ _ _ Hins).
        -- eexists _, _. split; [reflexivity |]. split; [reflexivity |].
           intros Hnone; discriminate Hnone.
    + eexists _, _. cbn. split; [reflexivity |]. split; [reflexivity |].
      intros _. split; reflexivity.
Qed.

(** The amended C6 at the dictionary without name, and at a connection
    closed by [close]. *)
Lemma insert_company_raises_only_when_closed_witness :
  DBManager.insert_company (DBManager.close DBManager.init) acme
  = Raised InterfaceError (DBManager.close DBManager.init) /\
  DBManager.insert_company DBManager.init (company_data.mk None None None)
  = Returned None (mkconn Ready (set_companies_id_seq create_tables 2)).
Proof.
  split.
  - apply (insert_company_raises_only_when_closed
             (DBManager.close DBManager.init) acme).
    reflexivity.
  - apply (proj1 (proj2 (proj2 (insert_company_raises_only_when_closed
             DBManager.init (company_data.mk None None None)))))
      with (e := NotNullViolation); reflexivity.
Defined.

(** ** Deleting through [DBSaver] with id 0 (C10) *)

Lemma deleting_ready (self : connection) (delete : database -> database) :
  conn_status self = Ready ->
  DBManager.deleting self delete
  = Returned tt (mkconn Ready (delete (conn_db self))).
Proof.
  intros H. unfold DBManager.deleting, execute. rewrite H. reflexivity.
Qed.

(** C10: [DBSaver.delete_vacancy(0)] and [DBSaver.delete_company(0)] do what
    the calls without id do, that is [delete_all_vacancies] and
    [delete_all_companies]; any other id goes to the single-row delete.  On a
    ready connection no vacancy (no company) is left after the call with 0. *)
Theorem delete_with_id_zero_deletes_all (self : connection) :
  DBSaver.delete_vacancy self (Some 0) = DBSaver.delete_vacancy self None /\
  DBSaver.delete_company self (Some 0) = DBSaver.delete_company self None /\
  DBSaver.delete_vacancy self (Some 0) = DBManager.delete_all_vacancies self /\
  DBSaver.delete_company self (Some 0) = DBManager.delete_all_companies self /\
  (forall n, n <> 0 ->
     DBSaver.delete_vacancy self (Some n) = DBManager.delete_vacancy self n /\
     DBSaver.delete_company self (Some n) = DBManager.delete_company self n) /\
  (conn_status self = Ready ->
     vacancies (conn_db (conn_after (DBSaver.delete_vacancy self (Some 0)))) = []
     /\
     companies (conn_db (conn_after (DBSaver.delete_company self (Some 0)))) = []).
Proof.
  repeat split; try reflexivity.
  - unfold DBSaver.delete_vacancy, DBSaver.truthy.
    destruct (Z.eqb_spec n 0); [contradiction | reflexivity].
  - unfold DBSaver.delete_company, DBSaver.truthy.
    destruct (Z.eqb_spec n 0); [contradiction | reflexivity].
  - cbn [DBSaver.delete_vacancy DBSaver.truthy Z.eqb negb].
    unfold DBManager.delete_all_vacancies.
    rewrite deleting_ready by assumption. reflexivity.
  - cbn [DBSaver.delete_company DBSaver.truthy Z.eqb negb].
    unfold DBManager.delete_all_companies.
    rewrite deleting_ready by assumption.
    cbn [conn_after conn_db]. unfold delete_from_companies.
    cbn [delete_from_companies_where companies].
    induction (companies (conn_db self)); [reflexivity | assumption].
Qed.

(** C10 at a database with two vacancies, ids 1 and 2, and one company,
    id 1: the calls with 0 empty the relations. *)
Lemma delete_with_id_zero_deletes_all_witness :
  map Vacancies.id (vacancies (conn_db ingested_twice)) = [1; 2] /\
  map Companies.id (companies (conn_db ingested_twice)) = [1] /\
  vacancies (conn_db (conn_after
    (DBSaver.delete_vacancy ingested_twice (Some 0)))) = [] /\
  companies (conn_db (conn_after
    (DBSaver.delete_company ingested_twice (Some 0)))) = [].
Proof.
  split; [reflexivity |]. split; [reflexivity |].
  apply (delete_with_id_zero_deletes_all ingested_twice). reflexivity.
Defined.

(** ** [NUMERIC] division *)

Lemma leading_digit_weight (fuel : nat) (i k : Z) :
  0 <= k -> i < nbase ^ (k + 1) -> 0 <= fst (leading_digit fuel i) <= k.
Proof.
  revert i k. induction fuel as [| fuel IH]; intros i k Hk Hi; [cbn; lia |].
  cbn [leading_digit].
  destruct (Z.ltb_spec i nbase) as [Hlt | Hge]; [cbn; lia |].
  assert (Hk1 : 1 <= k).
  { destruct (Z.eq_dec k 0) as [-> |]; [| lia].
    change (nbase ^ (0 + 1)) with nbase in Hi. lia. }
  specialize (IH (i / nbase) (k - 1)).
  destruct (leading_digit fuel (i / nbase)) as [w d]. cbn [fst] in *.
  assert (Hdiv : i / nbase < nbase ^ (k - 1 + 1)).
  { apply Z.div_lt_upper_bound; [unfold nbase; lia |].
    rewrite <- Z.pow_succ_r by lia.
    replace (Z.succ (k - 1 + 1)) with (k + 1) by lia. exact Hi. }
  lia.
Qed.

Lemma first_digit_of_int (s : Z) :
  in_int4 s = true -> 0 <= fst (first_digit (inject_Z s)) <= 2.
Proof.
  intros Hs. unfold in_int4, int4_min, int4_max in Hs.
  apply andb_true_iff in Hs. destruct Hs as (Hlo & Hhi).
  apply Z.leb_le in Hlo, Hhi.
  unfold first_digit. cbn [inject_Z Qnum Qden].
  destruct (Z.eqb_spec (Z.abs s) 0) as [_ | Hnz]; [cbn; lia |].
  destruct (Z.leb_spec 1 (Z.abs s)) as [_ | Hlt]; [| lia].
  rewrite Z.div_1_r. apply leading_digit_weight; [lia |].
  change (nbase ^ (2 + 1)) with 1000000000000. lia.
Qed.

Lemma first_digit_two : first_digit (num_value two_point_zero) = (0, 2).
Proof. reflexivity. Qed.

Lemma select_div_scale_bounds (x y : numeric) :
  0 <= select_div_scale x y <= 1000 /\
  Z.min 1000 (dscale x) <= select_div_scale x y /\
  Z.min 1000 (dscale y) <= select_div_scale x y.
Proof.
  unfold select_div_scale.
  destruct (first_digit (num_value x)) as [w1 d1].
  destruct (first_digit (num_value y)) as [w2 d2]. lia.
Qed.

Lemma half_scale (s : Z) :
  in_int4 s = true ->
  8 <= select_div_scale (of_int s) two_point_zero <= 1000.
Proof.
  intros Hs. pose proof (first_digit_of_int s Hs) as Hw.
  unfold select_div_scale. rewrite first_digit_two.
  cbn [num_value of_int dscale two_point_zero] in *.
  destruct (first_digit (inject_Z s)) as [w1 d1]. cbn [fst] in Hw.
  destruct (d1 <=? 2); lia.
Qed.

Lemma round_to_error (n d : Z) :
  0 < d ->
  Z.abs (Z.sgn n * ((2 * Z.abs n + d) / (2 * d)) * d - n) * 2 <= d.
Proof.
  intros Hd.
  pose proof (Z.div_mod (2 * Z.abs n + d) (2 * d) ltac:(lia)) as Hdm.
  pose proof (Z.mod_pos_bound (2 * Z.abs n + d) (2 * d) ltac:(lia)) as Hm.
  set (r := (2 * Z.abs n + d) / (2 * d)) in *.
  set (m := (2 * Z.abs n + d) mod (2 * d)) in *.
  destruct (Z.sgn_spec n) as [(Hn & ->) | [(Hn & ->) | (Hn & ->)]]; nia.
Qed.

Lemma pow10_pos (scale : Z) : 0 <= scale -> 0 < 10 ^ scale.
Proof. intros H. apply Z.pow_pos_nonneg; lia. Qed.

Lemma round_to_nearest (scale : Z) (q : Q) :
  0 <= scale -> nearest_decimal scale q (round_to scale q).
Proof.
  intros Hs. pose proof (pow10_pos scale Hs) as Hp. split.
  - eexists. unfold round_to. reflexivity.
  - pose proof (round_to_error (Qnum q * 10 ^ scale) (Z.pos (Qden q))
                  ltac:(lia)) as H.
    unfold round_to, Qle, Qabs, Qminus, Qplus, Qopp, Qmult, inject_Z.
    cbn [Qnum Qden].
    rewrite !Pos2Z.inj_mul, Z2Pos.id by exact Hp.
    set (k := Z.sgn (Qnum q * 10 ^ scale)
              * ((2 * Z.abs (Qnum q * 10 ^ scale) + Z.pos (Qden q))
                 / (2 * Z.pos (Qden q)))) in *.
    set (p := 10 ^ scale) in *.
    set (dq := Z.pos (Qden q)) in *.
    nia.
Qed.

Lemma nearest_decimal_compat (scale : Z) (m m' q : Q) :
  (m == m')%Q -> nearest_decimal scale m q -> nearest_decimal scale m' q.
Proof.
  intros Hm (Hk & Hle). split; [exact Hk |]. rewrite <- Hm. exact Hle.
Qed.

(** A mean that has no more digits than the scale is returned as it is. *)
Lemma nearest_decimal_exact (scale : Z) (m q : Q) (j : Z) :
  0 <= scale ->
  (m == j # Z.to_pos (10 ^ scale))%Q -> nearest_decimal scale m q ->
  (q == m)%Q.
Proof.
  intros Hs Hj ((k & Hk) & Hle). pose proof (pow10_pos scale Hs) as Hp.
  rewrite Hk, Hj in Hle. rewrite Hk, Hj.
  unfold Qle, Qabs, Qminus, Qplus, Qopp, Qmult, inject_Z in Hle.
  cbn [Qnum Qden] in Hle.
  rewrite !Pos2Z.inj_mul, Z2Pos.id in Hle by exact Hp.
  unfold Qeq. cbn [Qnum Qden]. rewrite Z2Pos.id by exact Hp.
  set (p := 10 ^ scale) in *.
  assert (k = j) by nia. subst k. reflexivity.
Qed.

Lemma half_is_exact (s : Z) :
  (num_value (numeric_div (of_int s) two_point_zero) == inject_Z s / 2)%Q.
Proof.
  pose proof (select_div_scale_bounds (of_int s) two_point_zero)
    as (Hscale & _ & Hone).
  cbn [dscale two_point_zero] in Hone.
  unfold numeric_div. cbn [num_value of_int two_point_zero].
  set (scale := select_div_scale _ _) in *.
  apply (nearest_decimal_exact scale _ _ (s * (10 ^ scale / 2)));
    [lia | | apply round_to_nearest; lia].
  pose proof (pow10_pos scale ltac:(lia)) as Hp.
  assert (Heven : 10 ^ scale = 2 * (10 ^ scale / 2)).
  { replace scale with (Z.succ (scale - 1)) by lia.
    rewrite Z.pow_succ_r by lia.
    replace (10 * 10 ^ (scale - 1)) with (5 * 10 ^ (scale - 1) * 2) by lia.
    rewrite Z.div_mul by lia. lia. }
  unfold Qeq, Qdiv, Qmult, Qinv, inject_Z. cbn [Qnum Qden].
  rewrite Z2Pos.id by exact Hp.
  set (h := 10 ^ scale / 2) in *. rewrite Heven.
  change (Z.pos (1 * 2)) with 2. lia.
Qed.

Lemma Qgtb_compat (x y a : Q) : (x == y)%Q -> Qgtb x a = Qgtb y a.
Proof.
  intros H. unfold Qgtb. apply f_equal.
  destruct (Qle_bool x a) eqn:Hx, (Qle_bool y a) eqn:Hy; try reflexivity.
  - apply Qle_bool_iff in Hx. rewrite H in Hx. apply Qle_bool_iff in Hx.
    congruence.
  - apply Qle_bool_iff in Hy. rewrite <- H in Hy. apply Qle_bool_iff in Hy.
    congruence.
Qed.

(** ** The average salary (C3) *)

Lemma mapM_midpoint_fit (l : list Vacancies.row) :
  sums_fit_in l ->
  mapM midpoint (filter both_bounds l)
  = ret (map Some (numeric_midpoints_of l)).
Proof.
  induction l as [| v l IH]; intros Hfit; [reflexivity |].
  assert (IH' : mapM midpoint (filter both_bounds l)
                = ret (map Some (numeric_midpoints_of l))).
  { apply IH. intros w a b Hw. apply (Hfit w a b). right; exact Hw. }
  cbn [filter]. unfold both_bounds at 1. unfold numeric_midpoints_of.
  cbn [flat_map].
  destruct (Vacancies.salary_from v) as [a |] eqn:Ha;
    destruct (Vacancies.salary_to v) as [b |] eqn:Hb;
    try exact IH'.
  cbn [mapM]. unfold midpoint at 1. rewrite Ha, Hb.
  unfold int4pl. rewrite (Hfit v a b (or_introl eq_refl) Ha Hb).
  cbn [bind ret]. rewrite IH'. reflexivity.
Qed.

Lemma mapM_midpoint_returns_fit (l : list Vacancies.row)
  (xs : list (option numeric)) :
  mapM midpoint (filter both_bounds l) = inr xs -> sums_fit_in l.
Proof.
  revert xs. induction l as [| v l IH]; intros xs H w a b Hw Ha Hb.
  - destruct Hw.
  - cbn [filter] in H. unfold both_bounds at 1 in H.
    destruct Hw as [<- | Hw].
    + rewrite Ha, Hb in H. cbn [mapM] in H. unfold midpoint at 1 in H.
      rewrite Ha, Hb in H. unfold int4pl in H.
      destruct (in_int4 (a + b)); [reflexivity | discriminate H].
    + destruct (Vacancies.salary_from v) as [a' |] eqn:Ha';
        destruct (Vacancies.salary_to v) as [b' |] eqn:Hb';
        try exact (IH xs H w a b Hw Ha Hb).
      cbn [mapM] in H. destruct (midpoint v) as [e | m]; [discriminate H |].
      cbn [bind] in H.
      destruct (mapM midpoint (filter both_bounds l)) as [e | ys] eqn:Hys;
        [discriminate H |].
      exact (IH ys eq_refl w a b Hw Ha Hb).
Qed.

Lemma length_midpoints_of (l : list Vacancies.row) :
  List.length (midpoints_of l) = List.length (filter both_bounds l).
Proof.
  induction l as [| v l IH]; [reflexivity |].
  unfold midpoints_of. cbn [flat_map filter]. unfold both_bounds at 1.
  destruct (Vacancies.salary_from v), (Vacancies.salary_to v);
    cbn [app List.length]; fold (midpoints_of l); rewrite ?IH; reflexivity.
Qed.

Lemma length_numeric_midpoints_of (l : list Vacancies.row) :
  List.length (numeric_midpoints_of l) = List.length (midpoints_of l).
Proof.
  induction l as [| v l IH]; [reflexivity |].
  unfold numeric_midpoints_of, midpoints_of. cbn [flat_map].
  fold (numeric_midpoints_of l). fold (midpoints_of l).
  destruct (Vacancies.salary_from v), (Vacancies.salary_to v);
    cbn [app List.length]; rewrite ?IH; reflexivity.
Qed.

(** The quotients by [2.0] are the exact halves, so their sum is the sum of
    the midpoints. *)
Lemma Qsum_numeric_midpoints_of (l : list Vacancies.row) :
  (Qsum (map num_value (numeric_midpoints_of l)) == Qsum (midpoints_of l))%Q.
Proof.
  induction l as [| v l IH]; [reflexivity |].
  unfold numeric_midpoints_of, midpoints_of. cbn [flat_map].
  fold (numeric_midpoints_of l). fold (midpoints_of l).
  destruct (Vacancies.salary_from v) as [a |];
    [| exact IH].
  destruct (Vacancies.salary_to v) as [b |]; [| exact IH].
  cbn [app map Qsum fold_right].
  fold (Qsum (map num_value (numeric_midpoints_of l))).
  fold (Qsum (midpoints_of l)).
  rewrite IH, half_is_exact. reflexivity.
Qed.

(** While the sums fit, every midpoint has at least 8 digits after the
    point. *)
Lemma dscale_numeric_midpoints_of (l : list Vacancies.row) :
  sums_fit_in l -> Forall (fun x => 8 <= dscale x) (numeric_midpoints_of l).
Proof.
  induction l as [| v l IH]; intros Hfit; [constructor |].
  assert (IH' : Forall (fun x => 8 <= dscale x) (numeric_midpoints_of l)).
  { apply IH. intros w a b Hw. apply (Hfit w a b). right; exact Hw. }
  unfold numeric_midpoints_of. cbn [flat_map]. fold (numeric_midpoints_of l).
  destruct (Vacancies.salary_from v) as [a |] eqn:Ha; [| exact IH'].
  destruct (Vacancies.salary_to v) as [b |] eqn:Hb; [| exact IH'].
  cbn [app]. constructor; [| exact IH'].
  unfold numeric_div. cbn [dscale].
  apply half_scale. exact (Hfit v a b (or_introl eq_refl) Ha Hb).
Qed.

Lemma not_null_map_Some {A} (l : list A) : not_null (map Some l) = l.
Proof.
  induction l as [| a l IH]; [reflexivity |].
  unfold not_null in *. cbn [map flat_map app]. rewrite IH. reflexivity.
Qed.

(** What [mean] returns is the arithmetic mean: times the number of items, it
    is their sum. *)
Lemma mean_is_arithmetic_mean (l : list Q) (q : Q) :
  mean l = Some q ->
  (q * inject_Z (Z.of_nat (List.length l)) == Qsum l)%Q.
Proof.
  destruct l as [| x l]; [discriminate |].
  intros H.
  assert (Hq : q = (Qsum (x :: l)
                    / inject_Z (Z.of_nat (List.length (x :: l))))%Q)
    by (unfold mean in H; congruence).
  rewrite Hq, Qmult_comm. apply Qmult_div_r.
  change (List.length (x :: l)) with (S (List.length l)).
  rewrite Nat2Z.inj_succ.
  intros H0. unfold Qeq in H0. cbn [Qnum Qden inject_Z] in H0.
  lia.
Qed.

Lemma avg_of_midpoints_none (d : database) :
  avg_of_midpoints d = None <-> midpoints d = [].
Proof.
  unfold avg_of_midpoints, AVG, midpoints. rewrite not_null_map_Some.
  pose proof (length_numeric_midpoints_of (vacancies d)) as Hlen.
  destruct (numeric_midpoints_of (vacancies d)) as [| x xs];
    destruct (midpoints_of (vacancies d)) as [| y ys];
    try discriminate Hlen; cbn [option_map]; split; intros H;
    try reflexivity; discriminate H.
Qed.

(** The average returned is the mean of the midpoints rounded to the scale
    of the division. *)
Lemma avg_of_midpoints_some (d : database) (q : Q) :
  avg_of_midpoints d = Some q ->
  exists m,
    mean (midpoints d) = Some m /\
    0 <= avg_scale d <= 1000 /\
    nearest_decimal (avg_scale d) m q.
Proof.
  unfold avg_of_midpoints, AVG, avg_scale, midpoints.
  rewrite not_null_map_Some.
  pose proof (length_numeric_midpoints_of (vacancies d)) as Hlen.
  pose proof (Qsum_numeric_midpoints_of (vacancies d)) as Hsum.
  destruct (numeric_midpoints_of (vacancies d)) as [| x xs];
    [discriminate |].
  destruct (midpoints_of (vacancies d)) as [| y ys]; [discriminate Hlen |].
  cbn [option_map]. unfold numeric_div. cbv zeta.
  set (sum := numeric_sum (x :: xs)) in *.
  set (count := of_int (Z.of_nat (List.length (x :: xs)))) in *.
  set (scale := select_div_scale sum count) in *.
  cbn [num_value]. intros H; injection H as <-.
  eexists. split; [reflexivity |].
  pose proof (select_div_scale_bounds sum count) as (Hscale & _).
  fold scale in Hscale. split; [exact Hscale |].
  apply (nearest_decimal_compat _ (num_value sum / num_value count)%Q).
  - unfold sum, count. cbn [num_value numeric_sum of_int].
    rewrite Hsum, Hlen. reflexivity.
  - apply round_to_nearest. lia.
Qed.

Lemma avg_scale_at_least_8 (d : database) :
  sums_fit d -> midpoints d <> [] -> 8 <= avg_scale d.
Proof.
  intros Hfit Hsome. unfold avg_scale, midpoints in *.
  pose proof (length_numeric_midpoints_of (vacancies d)) as Hlen.
  pose proof (dscale_numeric_midpoints_of (vacancies d) Hfit) as Hall.
  destruct (numeric_midpoints_of (vacancies d)) as [| x xs].
  - destruct (midpoints_of (vacancies d)); [contradiction | discriminate Hlen].
  - apply Forall_inv in Hall.
    pose proof (select_div_scale_bounds (numeric_sum (x :: xs))
                  (of_int (Z.of_nat (List.length (x :: xs)))))
      as (_ & Hsum & _).
    cbn [numeric_sum dscale map fold_right] in Hsum. lia.
Qed.

Lemma select_avg_salary_fit (d : database) :
  sums_fit d -> select_avg_salary d = ret (avg_of_midpoints d).
Proof.
  intros H. unfold select_avg_salary.
  rewrite (mapM_midpoint_fit (vacancies d) H). reflexivity.
Qed.

Lemma select_avg_salary_returns_fit (d : database) (avg : option Q) :
  select_avg_salary d = inr avg -> sums_fit d.
Proof.
  unfold select_avg_salary.
  destruct (mapM midpoint (filter both_bounds (vacancies d))) as [e | xs] eqn:H;
    [discriminate |].
  intros _. exact (mapM_midpoint_returns_fit _ xs H).
Qed.

Lemma get_avg_salary_ready (self : connection) :
  conn_status self = Ready ->
  DBManager.get_avg_salary self =
  match select_avg_salary (conn_db self) with
  | inl e => Raised e (mkconn Aborted (conn_db self))
  | inr avg => Returned avg self
  end.
Proof.
  intros H. unfold DBManager.get_avg_salary.
  rewrite H, execute_reading_ready by exact H.
  destruct (select_avg_salary (conn_db self)); [reflexivity |].
  rewrite ready_eta by exact H. reflexivity.
Qed.

(** C3, counterexample.  The vacancy (2147483647, 1) is stored, has both
    bounds, and so a mean of midpoints exists; the query raises instead.
    With midpoints 1, 1 and 2 the mean is 4/3; the query returns
    1.33333333333333333333, which is not 4/3. *)
Lemma get_avg_salary_raises_or_rounds :
  conn_status with_large_salaries = Ready /\
  map (fun v => (Vacancies.salary_from v, Vacancies.salary_to v))
      (vacancies (conn_db with_large_salaries))
  = [(Some 2147483647, Some 1)] /\
  mean (midpoints (conn_db with_large_salaries)) <> None /\
  DBManager.get_avg_salary with_large_salaries
  = Raised NumericValueOutOfRange
      (mkconn Aborted (conn_db with_large_salaries)) /\
  exists q m,
    DBManager.get_avg_salary with_thirds = Returned (Some q) with_thirds /\
    mean (midpoints (conn_db with_thirds)) = Some m /\
    (m == 4 # 3)%Q /\
    (q == 133333333333333333333 # 100000000000000000000)%Q /\
    ~ (q == m)%Q.
Proof.
  split; [reflexivity |]. split; [reflexivity |].
  split; [vm_compute; discriminate |]. split; [reflexivity |].
  eexists _, _. split; [reflexivity |]. split; [reflexivity |].
  split; [vm_compute; reflexivity |]. split; [vm_compute; reflexivity |].
  intros H. vm_compute in H. discriminate H.
Qed.

(** The only error of the query is the overflow of a sum of bounds. *)
Lemma mapM_midpoint_raises (l : list Vacancies.row) (e : error) :
  mapM midpoint l = inl e -> e = NumericValueOutOfRange.
Proof.
  induction l as [| v l IH]; [discriminate |].
  cbn [mapM]. unfold midpoint at 1.
  destruct (Vacancies.salary_from v) as [a |];
    destruct (Vacancies.salary_to v) as [b |]; unfold ret; cbn [bind];
    try (destruct (mapM midpoint l) as [e' | xs]; cbn [bind];
         [intros H; injection H as <-; apply IH; reflexivity | discriminate]).
  unfold int4pl. destruct (in_int4 (a + b)); unfold ret, raise; cbn [bind].
  - destruct (mapM midpoint l) as [e' | xs]; cbn [bind];
      [intros H; injection H as <-; apply IH; reflexivity | discriminate].
  - intros H; injection H as <-. reflexivity.
Qed.

Lemma select_avg_salary_overflow (d : database) :
  ~ sums_fit d -> select_avg_salary d = raise NumericValueOutOfRange.
Proof.
  intros Hnot. unfold select_avg_salary.
  destruct (mapM midpoint (filter both_bounds (vacancies d))) as [e | xs] eqn:H.
  - rewrite (mapM_midpoint_raises _ e H). reflexivity.
  - contradiction Hnot. exact (mapM_midpoint_returns_fit _ xs H).
Qed.

(** C3, amended, on a ready connection.  When no vacancy with both bounds
    has a sum of bounds outside the 32-bit [INT] range, [get_avg_salary]
    returns and leaves the connection as it was.  It returns [None] exactly
    when no vacancy has both bounds.  Otherwise it returns the arithmetic
    mean of [(salary_from + salary_to) / 2] over the vacancies with both
    bounds, one number per such vacancy and none for the others, rounded to
    the nearest number with [scale] digits after the point, for a scale
    between 8 and 1000; a mean with no more digits than that is returned as
    it is.  When such a sum is outside the range, the query raises. *)
Theorem get_avg_salary_is_mean_of_midpoints (self : connection) :
  conn_status self = Ready ->
  (sums_fit (conn_db self) ->
   exists avg_salary,
     DBManager.get_avg_salary self = Returned avg_salary self /\
     List.length (midpoints (conn_db self))
     = List.length (filter both_bounds (vacancies (conn_db self))) /\
     (avg_salary = None <->
      filter both_bounds (vacancies (conn_db self)) = []) /\
     (forall q, avg_salary = Some q ->
        exists m scale,
          mean (midpoints (conn_db self)) = Some m /\
          (m * inject_Z (Z.of_nat (List.length (midpoints (conn_db self))))
           == Qsum (midpoints (conn_db self)))%Q /\
          8 <= scale <= 1000 /\
          nearest_decimal scale m q /\
          (forall j : Z, (m == j # Z.to_pos (10 ^ scale))%Q -> (q == m)%Q))) /\
  (~ sums_fit (conn_db self) ->
   DBManager.get_avg_salary self
   = Raised NumericValueOutOfRange (mkconn Aborted (conn_db self))).
Proof.
  intros Hready. split.
  - intros Hfit.
    pose proof (length_midpoints_of (vacancies (conn_db self))) as Hlen.
    fold (midpoints (conn_db self)) in Hlen.
    exists (avg_of_midpoints (conn_db self)).
    split.
    { rewrite get_avg_salary_ready by exact Hready.
      rewrite select_avg_salary_fit by exact Hfit. reflexivity. }
    split; [exact Hlen |]. split.
    + rewrite avg_of_midpoints_none. split; intros H.
      * apply length_zero_iff_nil. rewrite <- Hlen, H. reflexivity.
      * apply length_zero_iff_nil. rewrite Hlen, H. reflexivity.
    + intros q Hq.
      destruct (avg_of_midpoints_some _ q Hq) as (m & Hm & Hscale & Hnear).
      assert (Hsome : midpoints (conn_db self) <> [])
        by (intros Hnil; rewrite Hnil in Hm; discriminate Hm).
      pose proof (avg_scale_at_least_8 _ Hfit Hsome) as H8.
      exists m, (avg_scale (conn_db self)).
      split; [exact Hm |].
      split; [exact (mean_is_arithmetic_mean _ m Hm) |].
      split; [lia |]. split; [exact Hnear |].
      intros j Hj.
      apply (nearest_decimal_exact (avg_scale (conn_db self)) m q j);
        [lia | exact Hj | exact Hnear].
  - intros Hnot. rewrite get_avg_salary_ready by exact Hready.
    rewrite (select_avg_salary_overflow _ Hnot). reflexivity.
Qed.

(** The amended C3 on the example of the specification: (1000, 3000)
    contributes its midpoint 2000, (null, 5000) contributes nothing. *)
Lemma get_avg_salary_is_mean_of_midpoints_witness :
  exists q,
    DBManager.get_avg_salary with_one_bound = Returned (Some q) with_one_bound
    /\ (q == 2000)%Q.
Proof.
  assert (Hfit : sums_fit (conn_db with_one_bound)).
  { intros v a b Hv Ha Hb.
    destruct Hv as [<- | [<- | []]]; cbn in Ha, Hb; [| discriminate Ha].
    injection Ha as <-. injection Hb as <-. reflexivity. }
  destruct (proj1 (get_avg_salary_is_mean_of_midpoints with_one_bound eq_refl)
              Hfit)
    as (avg_salary & Hret & _ & Hnone & Hq).
  destruct avg_salary as [q |].
  - exists q. split; [exact Hret |].
    destruct (Hq q eq_refl) as (m & scale & Hm & _ & Hscale & _ & Hexact).
    vm_compute in Hm. injection Hm as <-.
    rewrite (Hexact (2000 * 10 ^ scale)); [reflexivity |].
    unfold Qeq. cbn [Qnum Qden].
    rewrite Z2Pos.id by (apply pow10_pos; lia). lia.
  - destruct Hnone as (Hnone & _). specialize (Hnone eq_refl).
    vm_compute in Hnone. discriminate Hnone.
Defined.

(** ** Vacancies above the average (C4) *)

Lemma in_vacancies_join_companies (d : database) (v : Vacancies.row)
  (c : Companies.row) :
  In (v, c) (vacancies_join_companies d) <->
  In v (vacancies d) /\ In c (companies d) /\
  Vacancies.company_id v = Some (Companies.id c).
Proof.
  unfold vacancies_join_companies. rewrite in_flat_map. split.
  - intros (w & Hw & Hin). apply in_map_iff in Hin.
    destruct Hin as (c' & Heq & Hc'). injection Heq as -> ->.
    apply filter_In in Hc'. destruct Hc' as (Hc & Hid).
    repeat split; try assumption.
    unfold sql_eq_int in Hid.
    destruct (Vacancies.company_id v) as [k |]; [| discriminate Hid].
    apply Z.eqb_eq in Hid. congruence.
  - intros (Hv & Hc & Hid). exists v. split; [exact Hv |].
    apply in_map. apply filter_In. split; [exact Hc |].
    rewrite Hid. cbn. apply Z.eqb_refl.
Qed.

Lemma filterM_above_fit (l : list Vacancies.row) (avg : Q)
  (rows : list (Vacancies.row * Companies.row)) :
  sums_fit_in l ->
  (forall r, In r rows -> In (fst r) l) ->
  filterM (above avg) rows = ret (filter (fun r => exceeds avg (fst r)) rows).
Proof.
  intros Hfit. induction rows as [| r rows IH]; intros Hin; [reflexivity |].
  cbn [filterM filter].
  rewrite IH by (intros r' Hr'; apply Hin; right; exact Hr').
  assert (Hr : above avg r = ret (exceeds avg (fst r))).
  { unfold above, midpoint, exceeds.
    destruct (Vacancies.salary_from (fst r)) as [a |] eqn:Ha;
      destruct (Vacancies.salary_to (fst r)) as [b |] eqn:Hb;
      try reflexivity.
    unfold int4pl.
    rewrite (Hfit (fst r) a b (Hin r (or_introl eq_refl)) Ha Hb).
    unfold ret. cbn [bind].
    rewrite (Qgtb_compat _ _ avg (half_is_exact (a + b))). reflexivity. }
  rewrite Hr. unfold ret. cbn [bind].
  destruct (exceeds avg (fst r)); reflexivity.
Qed.

Lemma select_vacancies_with_higher_salary_fit (d : database) (avg : Q) :
  sums_fit d ->
  select_vacancies_with_higher_salary d avg
  = ret (map info_of
           (filter (fun r => exceeds avg (fst r)) (vacancies_join_companies d))).
Proof.
  intros Hfit. unfold select_vacancies_with_higher_salary.
  rewrite (filterM_above_fit (vacancies d) avg _ Hfit).
  - reflexivity.
  - intros [v c] Hr. apply in_vacancies_join_companies in Hr. apply Hr.
Qed.

Lemma fetchall_of_ready {A} (self : connection)
  (select : database -> result (list A)) (o : outcome (list A)) :
  conn_status self = Ready ->
  DBManager.fetchall_of self select o <->
  match select (conn_db self) with
  | inl e => o = Raised e (mkconn Aborted (conn_db self))
  | inr result_set =>
      exists rows, fetchall result_set rows /\ o = Returned rows self
  end.
Proof.
  intros H. unfold DBManager.fetchall_of.
  rewrite H, execute_reading_ready by exact H.
  destruct (select (conn_db self)); [reflexivity |].
  rewrite ready_eta by exact H. reflexivity.
Qed.

(** All the ways [get_vacancies_with_higher_salary] can end on a ready
    connection whose sums of bounds fit. *)
Lemma get_vacancies_with_higher_salary_ready (self : connection)
  (o : outcome (list vacancy_info)) :
  conn_status self = Ready ->
  sums_fit (conn_db self) ->
  DBManager.get_vacancies_with_higher_salary self o <->
  match avg_of_midpoints (conn_db self) with
  | None => o = Returned [] self
  | Some avg =>
      exists rows,
        fetchall
          (map info_of
             (filter (fun r => exceeds avg (fst r))
                     (vacancies_join_companies (conn_db self))))
          rows
        /\ o = Returned rows self
  end.
Proof.
  intros Hready Hfit. unfold DBManager.get_vacancies_with_higher_salary.
  rewrite get_avg_salary_ready by exact Hready.
  rewrite select_avg_salary_fit by exact Hfit. unfold ret.
  destruct (avg_of_midpoints (conn_db self)) as [avg |]; [| reflexivity].
  rewrite fetchall_of_ready by exact Hready.
  rewrite select_vacancies_with_higher_salary_fit by exact Hfit.
  reflexivity.
Qed.

Lemma sums_fit_with_unlinked_vacancy :
  sums_fit (conn_db with_unlinked_vacancy).
Proof.
  intros v a b Hv Ha Hb.
  destruct Hv as [<- | [<- | [<- | []]]]; cbn in Ha, Hb;
    injection Ha as <-; injection Hb as <-; reflexivity.
Qed.

(** C4, counterexample: midpoints 1000, 2000 and 3000, the vacancy with 3000
    saved without company.  The average is 2000, the third vacancy is
    strictly above it, and the method can only return the empty list. *)
Lemma unlinked_vacancy_above_average_not_listed :
  (exists avg,
     DBManager.get_avg_salary with_unlinked_vacancy
     = Returned (Some avg) with_unlinked_vacancy /\
     (avg == 2000)%Q /\
     exists v, In v (vacancies (conn_db with_unlinked_vacancy)) /\
               Vacancies.title v = "Senior" /\ exceeds avg v = true) /\
  forall o,
    DBManager.get_vacancies_with_higher_salary with_unlinked_vacancy o ->
    o = Returned [] with_unlinked_vacancy.
Proof.
  split.
  - eexists. split; [reflexivity |]. split; [reflexivity |].
    eexists. split; [right; right; left; reflexivity |].
    split; reflexivity.
  - intros o Ho.
    pose proof (proj1 (get_vacancies_with_higher_salary_ready
                         with_unlinked_vacancy o eq_refl
                         sums_fit_with_unlinked_vacancy) Ho) as H.
    destruct (avg_of_midpoints (conn_db with_unlinked_vacancy))
      as [avg |] eqn:Havg; [| exact H].
    vm_compute in Havg. injection Havg as <-.
    destruct H as (rows & Hperm & ->).
    vm_compute in Hperm. apply Permutation_nil in Hperm. subst rows.
    reflexivity.
Qed.

Lemma get_avg_salary_returned_fit (self : connection) (avg : option Q)
  (c : connection) :
  conn_status self = Ready ->
  DBManager.get_avg_salary self = Returned avg c ->
  c = self /\ sums_fit (conn_db self).
Proof.
  intros Hready. rewrite get_avg_salary_ready by exact Hready.
  destruct (select_avg_salary (conn_db self)) as [e | a] eqn:Hsel;
    [discriminate |].
  intros H; injection H as _ <-. split; [reflexivity |].
  exact (select_avg_salary_returns_fit _ a Hsel).
Qed.

Lemma exceeds_iff (avg : Q) (v : Vacancies.row) (a b : Z) :
  Vacancies.salary_from v = Some a -> Vacancies.salary_to v = Some b ->
  exceeds avg v = true <-> (avg < inject_Z (a + b) / 2)%Q.
Proof.
  intros Ha Hb. unfold exceeds, Qgtb. rewrite Ha, Hb.
  rewrite negb_true_iff, <- not_true_iff_false, Qle_bool_iff.
  split; [apply Qnot_le_lt | apply Qlt_not_le].
Qed.

(** C4, amended: [get_vacancies_with_higher_salary] first calls
    [get_avg_salary].  If that raises, so does the method; if it returns
    [None], the method returns the empty list; if it returns an average, the
    method returns, in some order, one row for each pair of a vacancy and the
    company its [company_id] names such that the midpoint of the vacancy is
    strictly above the average.  A vacancy with a null bound is never above
    and makes nothing fail; a vacancy without company is not listed. *)
Theorem higher_salary_lists_linked_vacancies_above_average
  (self : connection) :
  conn_status self = Ready ->
  (forall e c, DBManager.get_avg_salary self = Raised e c ->
     forall o, DBManager.get_vacancies_with_higher_salary self o <->
               o = Raised e c) /\
  (forall c, DBManager.get_avg_salary self = Returned None c ->
     forall o, DBManager.get_vacancies_with_higher_salary self o <->
               o = Returned [] self) /\
  (forall avg c, DBManager.get_avg_salary self = Returned (Some avg) c ->
     forall o, DBManager.get_vacancies_with_higher_salary self o <->
       exists rows,
         Permutation
           (map info_of
              (filter (fun r => exceeds avg (fst r))
                      (vacancies_join_companies (conn_db self))))
           rows
         /\ o = Returned rows self) /\
  (forall v c, In (v, c) (vacancies_join_companies (conn_db self)) <->
     In v (vacancies (conn_db self)) /\ In c (companies (conn_db self)) /\
     Vacancies.company_id v = Some (Companies.id c)) /\
  (forall avg v,
     Vacancies.salary_from v = None \/ Vacancies.salary_to v = None ->
     exceeds avg v = false) /\
  (forall avg v a b,
     Vacancies.salary_from v = Some a -> Vacancies.salary_to v = Some b ->
     exceeds avg v = true <-> (avg < inject_Z (a + b) / 2)%Q).
Proof.
  intros Hready. repeat apply conj.
  - intros e c Havg o. unfold DBManager.get_vacancies_with_higher_salary.
    rewrite Havg. reflexivity.
  - intros c Havg o.
    destruct (get_avg_salary_returned_fit self None c Hready Havg) as (-> & _).
    unfold DBManager.get_vacancies_with_higher_salary.
    rewrite Havg. reflexivity.
  - intros avg c Havg o.
    destruct (get_avg_salary_returned_fit self (Some avg) c Hready Havg)
      as (-> & Hfit).
    unfold DBManager.get_vacancies_with_higher_salary. rewrite Havg.
    rewrite fetchall_of_ready by exact Hready.
    rewrite select_vacancies_with_higher_salary_fit by exact Hfit.
    reflexivity.
  - apply in_vacancies_join_companies.
  - intros avg v [H | H]; unfold exceeds; rewrite H;
      [reflexivity | destruct (Vacancies.salary_from v); reflexivity].
  - apply exceeds_iff.
Qed.

(** The amended C4 on the example of the specification: with midpoints 1000,
    2000 and 3000, all of one company, the average is 2000 and the method
    returns exactly the vacancy with midpoint 3000. *)
Lemma higher_salary_lists_linked_vacancies_above_average_witness :
  DBManager.get_vacancies_with_higher_salary three_midpoints
    (Returned
       [mkinfo "Acme" "Senior" (Some 3000) (Some 3000)
               (Some "https://api.hh.ru/vacancies/7")]
       three_midpoints) /\
  (forall o,
     DBManager.get_vacancies_with_higher_salary three_midpoints o ->
     o = Returned
           [mkinfo "Acme" "Senior" (Some 3000) (Some 3000)
                   (Some "https://api.hh.ru/vacancies/7")]
           three_midpoints).
Proof.
  destruct (higher_salary_lists_linked_vacancies_above_average
              three_midpoints eq_refl) as (_ & _ & H & _).
  eassert (Havg : DBManager.get_avg_salary three_midpoints
                  = Returned (Some _) three_midpoints)
    by (vm_compute; reflexivity).
  split.
  - apply (proj2 (H _ _ Havg _)). eexists. split; [| reflexivity].
    vm_compute. apply Permutation_refl.
  - intros o Ho.
    destruct (proj1 (H _ _ Havg o) Ho) as (rows & Hperm & ->).
    vm_compute in Hperm.
    apply Permutation_length_1_inv in Hperm. subst rows. reflexivity.
Defined.

(** ** Records the columns take *)

Lemma nullable_int4_fits (x : option Z) :
  fits_int4 x -> nullable int4 x = ret x.
Proof.
  destruct x as [z |]; cbn; [| reflexivity].
  intros H. unfold int4. rewrite H. reflexivity.
Qed.

Lemma insert_into_vacancies_accepted (d : database) (v : vacancy_data.t)
  (title : string) :
  vacancy_data.title v = Some title ->
  (characters title <= 255)%nat ->
  fits_varchar255 (vacancy_data.url v) ->
  fits_int4 (vacancy_data.company_id v) ->
  fits_int4 (vacancy_data.salary_from v) ->
  fits_int4 (vacancy_data.salary_to v) ->
  vacancies_id_seq d <= int4_max ->
  references_company d (vacancy_data.company_id v) = true ->
  insert_into_vacancies d v
  = (set_vacancies (set_vacancies_id_seq d (vacancies_id_seq d + 1))
                   (vacancies d ++ [stored_vacancy d v title]),
     ret tt).
Proof.
  intros Htitle Hlen Hurl Hcid Hfrom Hto Hseq Href.
  unfold insert_into_vacancies.
  rewrite (nullable_int4_fits _ Hcid), (nullable_int4_fits _ Hfrom),
    (nullable_int4_fits _ Hto), (nullable_varchar_fits _ Hurl), Htitle.
  cbn [nullable]. rewrite (varchar_fits 255 title Hlen).
  unfold ret. cbn [bind]. unfold nextval.
  destruct (Z.leb_spec (vacancies_id_seq d) int4_max) as [_ | Hgt]; [| lia].
  unfold ret.
  change (references_company
            (set_vacancies_id_seq d (vacancies_id_seq d + 1))
            (vacancy_data.company_id v))
    with (references_company d (vacancy_data.company_id v)).
  rewrite Href. reflexivity.
Qed.

Lemma insert_vacancy_accepted (self : connection) (v : vacancy_data.t)
  (title : string) :
  conn_status self = Ready ->
  select_id_where_url (conn_db self) (vacancy_data.url v) = [] ->
  vacancy_data.title v = Some title ->
  (characters title <= 255)%nat ->
  fits_varchar255 (vacancy_data.url v) ->
  fits_int4 (vacancy_data.company_id v) ->
  fits_int4 (vacancy_data.salary_from v) ->
  fits_int4 (vacancy_data.salary_to v) ->
  vacancies_id_seq (conn_db self) <= int4_max ->
  references_company (conn_db self) (vacancy_data.company_id v) = true ->
  DBManager.insert_vacancy self v
  = Returned None
      (mkconn Ready
         (set_vacancies
            (set_vacancies_id_seq (conn_db self)
                                  (vacancies_id_seq (conn_db self) + 1))
            (vacancies (conn_db self) ++ [stored_vacancy (conn_db self) v title]))).
Proof.
  intros Hready Hsel Htitle Hlen Hurl Hcid Hfrom Hto Hseq Href.
  unfold DBManager.insert_vacancy.
  rewrite Hready, execute_reading_ready by exact Hready. unfold ret at 1 2.
  rewrite Hsel. cbn [fetchone hd_error]. unfold execute.
  cbn [conn_status conn_db].
  rewrite (insert_into_vacancies_accepted (conn_db self) v title
             Htitle Hlen Hurl Hcid Hfrom Hto Hseq Href).
  reflexivity.
Qed.

(** ** The foreign key of [vacancies.company_id] (C5) *)

Lemma nullable_int4_returns (x y : option Z) :
  nullable int4 x = inr y -> y = x.
Proof.
  destruct x as [z |]; cbn; [| intros H; injection H as <-; reflexivity].
  unfold int4. destruct (in_int4 z); cbn; [| discriminate].
  intros H; injection H as <-; reflexivity.
Qed.

Lemma insert_into_companies_cases (d : database)
  (name url description : option string) :
  let d' := fst (insert_into_companies d name url description) in
  vacancies d' = vacancies d /\
  (companies d' = companies d \/
   exists row, companies d' = companies d ++ [row]).
Proof.
  unfold insert_into_companies.
  destruct (n <- nullable (varchar 255) name ;;
            u <- nullable (varchar 255) url ;; ret (n, u)) as [e0 | [n u]];
    [cbn; auto |].
  destruct (nextval (companies_id_seq d)) as [e1 | i]; [cbn; auto |].
  destruct n as [n' |]; cbn; eauto.
Qed.

Lemma insert_into_vacancies_cases (d : database) (v : vacancy_data.t) :
  let d' := fst (insert_into_vacancies d v) in
  companies d' = companies d /\
  ((vacancies d' = vacancies d /\
    exists e, snd (insert_into_vacancies d v) = inl e) \/
   exists row,
     vacancies d' = vacancies d ++ [row] /\
     Vacancies.company_id row = vacancy_data.company_id v /\
     references_company d (Vacancies.company_id row) = true).
Proof.
  unfold insert_into_vacancies.
  destruct (nullable int4 (vacancy_data.company_id v)) as [e | c] eqn:Hc;
    [cbn; eauto |].
  apply nullable_int4_returns in Hc. subst c.
  unfold ret at 6. cbn [bind].
  destruct (nullable (varchar 255) (vacancy_data.title v)) as [e | t];
    [cbn; eauto |].
  cbn [bind].
  destruct (nullable int4 (vacancy_data.salary_from v)) as [e | f];
    [cbn; eauto |].
  cbn [bind].
  destruct (nullable int4 (vacancy_data.salary_to v)) as [e | s];
    [cbn; eauto |].
  cbn [bind].
  destruct (nullable (varchar 255) (vacancy_data.url v)) as [e | u];
    [cbn; eauto |].
  cbn [bind ret].
  destruct (nextval (vacancies_id_seq d)) as [e | i]; [cbn; eauto |].
  destruct t as [t' |]; [| cbn; eauto].
  change (references_company (set_vacancies_id_seq d (i + 1))
            (vacancy_data.company_id v))
    with (references_company d (vacancy_data.company_id v)).
  destruct (references_company d (vacancy_data.company_id v)) eqn:Href;
    [| cbn; eauto].
  cbn. split; [reflexivity |]. right. eexists. split; [reflexivity |].
  cbn. split; [reflexivity | exact Href].
Qed.

Lemma insert_company_database (self : connection) (company : company_data.t) :
  let d' := conn_db (conn_after (DBManager.insert_company self company)) in
  vacancies d' = vacancies (conn_db self) /\
  (companies d' = companies (conn_db self) \/
   exists row, companies d' = companies (conn_db self) ++ [row]).
Proof.
  unfold DBManager.insert_company, execute, reading.
  destruct self as [[| |] d]; cbn [conn_status conn_db ret];
    try (cbn; auto; fail).
  destruct (fetchone (select_id_where_name d (company_data.name company)));
    [cbn; auto |].
  pose proof (insert_into_companies_cases d (company_data.name company)
                (company_data.url company) (company_data.description company))
    as H.
  destruct (insert_into_companies d (company_data.name company)
              (company_data.url company) (company_data.description company))
    as [d' [e | i]]; exact H.
Qed.

Lemma insert_vacancy_database (self : connection) (v : vacancy_data.t) :
  let d' := conn_db (conn_after (DBManager.insert_vacancy self v)) in
  companies d' = companies (conn_db self) /\
  (vacancies d' = vacancies (conn_db self) \/
   exists row,
     vacancies d' = vacancies (conn_db self) ++ [row] /\
     Vacancies.company_id row = vacancy_data.company_id v /\
     references_company (conn_db self) (Vacancies.company_id row) = true).
Proof.
  unfold DBManager.insert_vacancy, execute, reading.
  destruct self as [[| |] d]; cbn [conn_status conn_db ret];
    try (cbn; auto; fail).
  destruct (fetchone (select_id_where_url d (vacancy_data.url v)));
    [cbn; auto |].
  pose proof (insert_into_vacancies_cases d v) as H.
  destruct (insert_into_vacancies d v) as [d' [e | u]];
    cbn [fst snd conn_after conn_db commit] in *;
    destruct H as (Hc & [(Hv & _) | Hrow]); auto.
Qed.

Lemma deleting_database (self : connection) (delete : database -> database) :
  conn_db (conn_after (DBManager.deleting self delete)) = conn_db self \/
  conn_db (conn_after (DBManager.deleting self delete)) = delete (conn_db self).
Proof.
  unfold DBManager.deleting, execute.
  destruct self as [[| |] d]; cbn; auto.
Qed.

Lemma fetchall_of_database {A} (self : connection)
  (select : database -> result (list A)) (o : outcome (list A)) :
  DBManager.fetchall_of self select o ->
  conn_db (conn_after o) = conn_db self.
Proof.
  unfold DBManager.fetchall_of, execute, reading.
  destruct self as [[| |] d]; cbn [conn_status conn_db];
    try (intros ->; reflexivity).
  destruct (select d); [intros ->; reflexivity |].
  intros (rows & _ & ->). reflexivity.
Qed.

Lemma get_avg_salary_database (self : connection) :
  conn_db (conn_after (DBManager.get_avg_salary self)) = conn_db self.
Proof.
  unfold DBManager.get_avg_salary, execute, reading.
  destruct self as [[| |] d]; cbn [conn_status conn_db]; try reflexivity.
  destruct (select_avg_salary d); reflexivity.
Qed.

Lemma get_vacancies_with_higher_salary_database (self : connection)
  (o : outcome (list vacancy_info)) :
  DBManager.get_vacancies_with_higher_salary self o ->
  conn_db (conn_after o) = conn_db self.
Proof.
  unfold DBManager.get_vacancies_with_higher_salary.
  pose proof (get_avg_salary_database self) as H.
  destruct (DBManager.get_avg_salary self) as [[avg |] c | e c];
    cbn [conn_after] in H.
  - intros Ho. apply fetchall_of_database in Ho. congruence.
  - intros ->. exact H.
  - intros ->. exact H.
Qed.

Lemma foreign_key_holds_ext (d d' : database) :
  companies d' = companies d -> vacancies d' = vacancies d ->
  foreign_key_holds d -> foreign_key_holds d'.
Proof.
  unfold foreign_key_holds. intros -> ->. auto.
Qed.

Lemma foreign_key_holds_more_companies (d d' : database)
  (row : Companies.row) :
  companies d' = companies d ++ [row] -> vacancies d' = vacancies d ->
  foreign_key_holds d -> foreign_key_holds d'.
Proof.
  unfold foreign_key_holds. intros -> -> H v k Hv Hk.
  destruct (H v k Hv Hk) as (c & Hc & Hid).
  exists c. split; [apply in_or_app; left; exact Hc | exact Hid].
Qed.

Lemma foreign_key_holds_more_vacancies (d d' : database)
  (row : Vacancies.row) :
  companies d' = companies d -> vacancies d' = vacancies d ++ [row] ->
  references_company d (Vacancies.company_id row) = true ->
  foreign_key_holds d -> foreign_key_holds d'.
Proof.
  unfold foreign_key_holds. intros -> -> Href H v k Hv Hk.
  apply in_app_or in Hv. destruct Hv as [Hv | [<- | []]].
  - exact (H v k Hv Hk).
  - rewrite Hk in Href. cbn in Href. apply existsb_exists in Href.
    destruct Href as (c & Hc & Hid). apply Z.eqb_eq in Hid.
    exists c. split; assumption.
Qed.

Lemma foreign_key_holds_fewer_vacancies (d : database)
  (keep : Vacancies.row -> bool) :
  foreign_key_holds d ->
  foreign_key_holds (set_vacancies d (filter keep (vacancies d))).
Proof.
  unfold foreign_key_holds. cbn [set_vacancies vacancies companies].
  intros H v k Hv Hk. apply filter_In in Hv. exact (H v k (proj1 Hv) Hk).
Qed.

Lemma foreign_key_holds_cascade (d : database)
  (doomed : Companies.row -> bool) :
  foreign_key_holds d ->
  foreign_key_holds (delete_from_companies_where doomed d).
Proof.
  unfold foreign_key_holds, delete_from_companies_where.
  cbn [vacancies companies].
  intros H v k Hv Hk. apply filter_In in Hv. destruct Hv as (Hv & Hkeep).
  destruct (H v k Hv Hk) as (c & Hc & Hid).
  exists c. split; [| exact Hid].
  apply filter_In. split; [exact Hc |].
  destruct (doomed c) eqn:Hdoomed; [| reflexivity].
  apply negb_true_iff in Hkeep.
  assert (Hex : existsb
                  (fun c' => sql_eq_int (Vacancies.company_id v)
                                        (Some (Companies.id c')))
                  (filter doomed (companies d)) = true).
  { apply existsb_exists. exists c. split.
    - apply filter_In. split; assumption.
    - rewrite Hk, Hid. cbn. apply Z.eqb_refl. }
  congruence.
Qed.

(** The foreign key holds in every state the program can be in. *)
Lemma reachable_foreign_key_holds (self : connection) :
  reachable self -> foreign_key_holds (conn_db self).
Proof.
  induction 1 as
    [ | self _ IH | self _ IH | self company _ IH | self v _ IH
    | self i _ IH | self _ IH | self i _ IH | self _ IH | self _ IH
    | self o _ IH Ho | self o _ IH Ho | self k o _ IH Ho | self o _ IH Ho ].
  - intros v k [].
  - exact IH.
  - exact IH.
  - destruct (insert_company_database self company) as (Hv & [Hc | (row & Hc)]).
    + exact (foreign_key_holds_ext _ _ Hc Hv IH).
    + exact (foreign_key_holds_more_companies _ _ row Hc Hv IH).
  - destruct (insert_vacancy_database self v)
      as (Hc & [Hv | (row & Hv & _ & Href)]).
    + exact (foreign_key_holds_ext _ _ Hc Hv IH).
    + exact (foreign_key_holds_more_vacancies _ _ row Hc Hv Href IH).
  - unfold DBManager.delete_vacancy.
    destruct (deleting_database self
                (fun d => delete_from_vacancies_where_id d i)) as [-> | ->];
      [exact IH | apply foreign_key_holds_fewer_vacancies; exact IH].
  - unfold DBManager.delete_all_vacancies.
    destruct (deleting_database self delete_from_vacancies) as [-> | ->];
      [exact IH | intros v k []].
  - unfold DBManager.delete_company.
    destruct (deleting_database self
                (fun d => delete_from_companies_where_id d i)) as [-> | ->];
      [exact IH | apply foreign_key_holds_cascade; exact IH].
  - unfold DBManager.delete_all_companies.
    destruct (deleting_database self delete_from_companies) as [-> | ->];
      [exact IH | apply foreign_key_holds_cascade; exact IH].
  - rewrite get_avg_salary_database. exact IH.
  - rewrite (fetchall_of_database _ _ _ Ho). exact IH.
  - rewrite (fetchall_of_database _ _ _ Ho). exact IH.
  - rewrite (fetchall_of_database _ _ _ Ho). exact IH.
  - rewrite (get_vacancies_with_higher_salary_database _ _ Ho). exact IH.
Qed.

Lemma references_company_false (d : database) (k : Z) :
  (forall c, In c (companies d) -> Companies.id c <> k) ->
  references_company d (Some k) = false.
Proof.
  intros H. apply not_true_is_false. intros Href. cbn in Href.
  apply existsb_exists in Href. destruct Href as (c & Hc & Hid).
  apply Z.eqb_eq in Hid. exact (H c Hc Hid).
Qed.

(** C5, counterexample: a vacancy record whose [company_id] is [None].  The
    insert is accepted, and the stored vacancy references no company. *)
Lemma vacancy_without_company_is_stored :
  (exists c row,
     DBManager.insert_vacancy DBManager.init
       (vacancy None "Senior" (Some 3000) (Some 3000)
                "https://api.hh.ru/vacancies/7")
     = Returned None c /\
     vacancies (conn_db c) = [row] /\ Vacancies.company_id row = None) /\
  ~ every_vacancy_references_a_company
      (conn_db (conn_after
         (DBManager.insert_vacancy DBManager.init
            (vacancy None "Senior" (Some 3000) (Some 3000)
                     "https://api.hh.ru/vacancies/7")))).
Proof.
  split.
  - eexists _, _. repeat split.
  - intros H.
    destruct (H _ (or_introl eq_refl)) as (c & _ & Hid).
    discriminate Hid.
Qed.

(** A record the columns take, for a company that does not exist: the id is
    drawn, and the foreign key refuses the row. *)
Lemma insert_into_vacancies_dangling (d : database) (v : vacancy_data.t) :
  acceptable v ->
  vacancies_id_seq d <= int4_max ->
  references_company d (vacancy_data.company_id v) = false ->
  insert_into_vacancies d v
  = (set_vacancies_id_seq d (vacancies_id_seq d + 1),
     raise ForeignKeyViolation).
Proof.
  intros ((title & Htitle & Hlen) & Hurl & Hcid & Hfrom & Hto) Hseq Href.
  unfold insert_into_vacancies.
  rewrite (nullable_int4_fits _ Hcid), (nullable_int4_fits _ Hfrom),
    (nullable_int4_fits _ Hto), (nullable_varchar_fits _ Hurl), Htitle.
  cbn [nullable]. rewrite (varchar_fits 255 title Hlen).
  unfold ret. cbn [bind]. unfold nextval.
  destruct (Z.leb_spec (vacancies_id_seq d) int4_max) as [_ | Hgt]; [| lia].
  unfold ret.
  change (references_company
            (set_vacancies_id_seq d (vacancies_id_seq d + 1))
            (vacancy_data.company_id v))
    with (references_company d (vacancy_data.company_id v)).
  rewrite Href. reflexivity.
Qed.

(** C5, amended: in every state the program can be in, a vacancy whose
    [company_id] is not null has there the id of an existing company.
    [insert_vacancy] with a [company_id] that is the id of no company never
    stores a row.  On a ready connection, when no company carries the url of
    the record and its texts have no NUL, the call raises and leaves the
    transaction failed; the error is the violation of the foreign key when
    the columns take the other values of the record and the sequence is not
    exhausted.  Under the same conditions a record with a null [company_id]
    is accepted and stored as a vacancy without company. *)
Theorem vacancy_company_id_names_a_company (self : connection) :
  reachable self ->
  foreign_key_holds (conn_db self) /\
  (forall vacancy k,
     vacancy_data.company_id vacancy = Some k ->
     (forall c, In c (companies (conn_db self)) -> Companies.id c <> k) ->
     vacancies (conn_db (conn_after (DBManager.insert_vacancy self vacancy)))
     = vacancies (conn_db self) /\
     (conn_status self = Ready ->
      select_id_where_url (conn_db self) (vacancy_data.url vacancy) = [] ->
      adaptable vacancy ->
      exists e c,
        DBManager.insert_vacancy self vacancy = Raised e c /\
        conn_status c = Aborted /\
        vacancies (conn_db c) = vacancies (conn_db self) /\
        (acceptable vacancy ->
         vacancies_id_seq (conn_db self) <= int4_max ->
         e = ForeignKeyViolation))) /\
  (forall vacancy,
     vacancy_data.company_id vacancy = None ->
     conn_status self = Ready ->
     select_id_where_url (conn_db self) (vacancy_data.url vacancy) = [] ->
     adaptable vacancy ->
     acceptable vacancy ->
     vacancies_id_seq (conn_db self) <= int4_max ->
     exists c' row,
       DBManager.insert_vacancy self vacancy = Returned None c' /\
       conn_status c' = Ready /\
       vacancies (conn_db c') = vacancies (conn_db self) ++ [row] /\
       Vacancies.company_id row = None).
Proof.
  intros Hreach. split; [exact (reachable_foreign_key_holds self Hreach) |].
  split.
  - intros v k Hk Hnone.
    pose proof (references_company_false (conn_db self) k Hnone) as Href.
    split.
    + destruct (insert_vacancy_database self v)
        as (_ & [Hv | (row & _ & Hid & Hrow)]); [exact Hv |].
      rewrite Hid, Hk in Hrow. congruence.
    + intros Hready Hsel _. unfold DBManager.insert_vacancy.
      rewrite Hready, execute_reading_ready by exact Hready.
      unfold ret at 1 2. rewrite Hsel. cbn [fetchone hd_error].
      unfold execute. cbn [conn_status conn_db].
      destruct (insert_into_vacancies_cases (conn_db self) v)
        as (_ & [(Hvs & e & He) | (row & _ & Hid & Hrow)]).
      * destruct (insert_into_vacancies (conn_db self) v) as [d' r] eqn:Hins.
        cbn [fst snd] in He, Hvs. subst r. eexists _, _.
        split; [reflexivity |]. split; [reflexivity |].
        split; [exact Hvs |].
        intros Hacc Hseq. rewrite <- Hk in Href.
        rewrite (insert_into_vacancies_dangling _ v Hacc Hseq Href) in Hins.
        unfold raise in Hins. congruence.
      * rewrite Hid, Hk in Hrow. congruence.
  - intros v Hnull Hready Hsel _ Hacc Hseq.
    destruct Hacc as ((title & Htitle & Hlen) & Hurl & Hcid & Hfrom & Hto).
    eexists _, _. split.
    + apply (insert_vacancy_accepted self v title Hready Hsel Htitle Hlen
               Hurl Hcid Hfrom Hto Hseq).
      rewrite Hnull. reflexivity.
    + split; [reflexivity |].
      cbn [conn_db set_vacancies vacancies]. split; [reflexivity |].
      exact Hnull.
Qed.

(** The amended C5 after one [save_company]: the company has id 1, a
    vacancy for company 7 is refused by the foreign key, and the same vacancy
    without company is stored. *)
Lemma vacancy_company_id_names_a_company_witness :
  (exists c,
     DBManager.insert_vacancy (saving_company acme DBManager.init)
       (vacancy (Some 7) "Senior" (Some 3000) (Some 3000)
                "https://api.hh.ru/vacancies/7")
     = Raised ForeignKeyViolation c /\
     conn_status c = Aborted /\ vacancies (conn_db c) = []) /\
  (exists c' row,
     DBManager.insert_vacancy (saving_company acme DBManager.init)
       (vacancy None "Senior" (Some 3000) (Some 3000)
                "https://api.hh.ru/vacancies/7")
     = Returned None c' /\
     vacancies (conn_db c') = [row] /\ Vacancies.company_id row = None).
Proof.
  destruct (vacancy_company_id_names_a_company
              (saving_company acme DBManager.init)
              (reach_insert_company DBManager.init acme reach_init))
    as (_ & Hdangling & Hnull).
  assert (Hadaptable : forall company_id,
            adaptable (vacancy company_id "Senior" (Some 3000) (Some 3000)
                               "https://api.hh.ru/vacancies/7"))
    by (intros company_id; repeat split).
  assert (Hacceptable : forall company_id,
            fits_int4 company_id ->
            acceptable (vacancy company_id "Senior" (Some 3000) (Some 3000)
                                "https://api.hh.ru/vacancies/7")).
  { intros company_id Hcid. split.
    - exists "Senior". split; [reflexivity | vm_compute; lia].
    - split; [vm_compute; lia |]. split; [exact Hcid |].
      split; reflexivity. }
  assert (Hseq : vacancies_id_seq (conn_db (saving_company acme DBManager.init))
                 <= int4_max)
    by (vm_compute; discriminate).
  split.
  - destruct (Hdangling
                (vacancy (Some 7) "Senior" (Some 3000) (Some 3000)
                         "https://api.hh.ru/vacancies/7") 7 eq_refl)
      as (_ & Hraises).
    + intros c [<- | []]. discriminate.
    + destruct (Hraises eq_refl eq_refl (Hadaptable _))
        as (e & c & Hraised & Haborted & Hvs & Hkind).
      rewrite (Hkind (Hacceptable (Some 7) eq_refl) Hseq) in Hraised.
      exists c. split; [exact Hraised |]. split; [exact Haborted | exact Hvs].
  - destruct (Hnull (vacancy None "Senior" (Some 3000) (Some 3000)
                             "https://api.hh.ru/vacancies/7")
                eq_refl eq_refl eq_refl (Hadaptable _) (Hacceptable None I)
                Hseq)
      as (c' & row & Hret & _ & Hvs & Hrow).
    exists c', row. split; [exact Hret |]. split; [exact Hvs | exact Hrow].
Defined.

(** ** Search by keyword (C7) *)

Lemma ilike_chars_percent (p t : list ascii) :
  ilike_chars ("%"%char :: p) t =
  ilike_chars p t
  || match t with
     | [] => false
     | _ :: t' => ilike_chars ("%"%char :: p) t'
     end.
Proof. destruct t; reflexivity. Qed.

Lemma ilike_chars_plain (c : ascii) (p t : list ascii) :
  plain_char c = true ->
  ilike_chars (c :: p) t =
  match t with
  | [] => false
  | x :: t' => ieqb c x && ilike_chars p t'
  end.
Proof.
  unfold plain_char. intros H. apply negb_true_iff in H.
  apply orb_false_iff in H. destruct H as (H & Hb).
  apply orb_false_iff in H. destruct H as (Hp & Hu).
  cbn [ilike_chars]. rewrite Hp, Hu, Hb. reflexivity.
Qed.

(** [%] alone matches every text. *)
Lemma ilike_chars_any (t : list ascii) : ilike_chars ["%"%char] t = true.
Proof.
  induction t as [| x t IH]; [reflexivity |].
  rewrite ilike_chars_percent, IH. apply orb_true_r.
Qed.

(** A leading [%]: some suffix of the text matches the rest. *)
Lemma ilike_chars_percent_iff (p t : list ascii) :
  ilike_chars ("%"%char :: p) t = true <->
  exists before rest, t = before ++ rest /\ ilike_chars p rest = true.
Proof.
  induction t as [| x t IH]; rewrite ilike_chars_percent, orb_true_iff.
  - split.
    + intros [H | H]; [| discriminate H]. exists [], []. split; [reflexivity | exact H].
    + intros (before & rest & Heq & H). left.
      symmetry in Heq. apply app_eq_nil in Heq. destruct Heq as (_ & ->).
      exact H.
  - rewrite IH. split.
    + intros [H | (before & rest & -> & H)].
      * exists [], (x :: t). split; [reflexivity | exact H].
      * exists (x :: before), rest. split; [reflexivity | exact H].
    + intros (before & rest & Heq & H).
      destruct before as [| y before].
      * left. cbn in Heq. subst rest. exact H.
      * right. injection Heq as -> ->. exists before, rest.
        split; [reflexivity | exact H].
Qed.

(** Plain characters followed by [%]: the text starts with them, up to
    case. *)
Lemma ilike_chars_plain_prefix (k t : list ascii) :
  forallb plain_char k = true ->
  ilike_chars (k ++ ["%"%char]) t = true <->
  exists rest, map lower t = map lower k ++ rest.
Proof.
  revert t. induction k as [| c k IH]; intros t Hplain.
  - cbn [app map]. rewrite ilike_chars_any. split; [| reflexivity].
    intros _. exists (map lower t). reflexivity.
  - cbn [forallb] in Hplain. apply andb_true_iff in Hplain.
    destruct Hplain as (Hc & Hk).
    cbn [app]. rewrite (ilike_chars_plain c _ t Hc).
    destruct t as [| x t].
    + split; [discriminate |]. intros (rest & H). discriminate H.
    + rewrite andb_true_iff, (IH t Hk). unfold ieqb. rewrite Ascii.eqb_eq.
      cbn [map app]. split.
      * intros (Hcx & rest & Hrest). exists rest. rewrite Hcx, Hrest. reflexivity.
      * intros (rest & Hrest). injection Hrest as Hcx Hrest.
        split; [symmetry; exact Hcx | exists rest; exact Hrest].
Qed.

Lemma list_ascii_of_string_append (a b : string) :
  list_ascii_of_string (a ++ b)%string
  = list_ascii_of_string a ++ list_ascii_of_string b.
Proof.
  induction a as [| c a IH]; [reflexivity |].
  cbn. rewrite IH. reflexivity.
Qed.

(** For a keyword without [%], [_] and backslash, the condition of the
    query is a substring test that ignores case. *)
Lemma ILIKE_plain_keyword (title keyword : string) :
  plain keyword = true ->
  ILIKE title ("%" ++ keyword ++ "%")%string = true <->
  contains_ignoring_case title keyword.
Proof.
  intros Hplain. unfold ILIKE, contains_ignoring_case, plain in *.
  rewrite !list_ascii_of_string_append. cbn [list_ascii_of_string app].
  set (k := list_ascii_of_string keyword) in *.
  set (t := list_ascii_of_string title).
  rewrite ilike_chars_percent_iff. split.
  - intros (before & rest & Heq & H).
    apply (ilike_chars_plain_prefix k rest Hplain) in H.
    destruct H as (after & Hafter).
    exists (map lower before), after. rewrite Heq, map_app, Hafter. reflexivity.
  - intros (before & after & Heq).
    apply map_eq_app in Heq. destruct Heq as (t1 & t2 & Ht & H1 & H2).
    exists t1, t2. split; [exact Ht |].
    apply (ilike_chars_plain_prefix k t2 Hplain). exists after. exact H2.
Qed.

(** The empty keyword matches every title. *)
Lemma ILIKE_empty_keyword (title : string) :
  ILIKE title ("%" ++ "" ++ "%")%string = true.
Proof.
  apply (ILIKE_plain_keyword title "" eq_refl).
  exists [], (map lower (list_ascii_of_string title)). reflexivity.
Qed.

(** C7, evaluated: with the keyword [_] the query returns the vacancy
    "Senior Engineer", whose title does not contain [_]: in the pattern
    [%_%] the keyword stands for any one character. *)
Theorem keyword_underscore_matches_title_without_underscore :
  select_vacancies_with_keyword (conn_db ingested_twice) "_"
  = select_vacancies_with_keyword (conn_db ingested_twice) "" /\
  In (mkhit "Acme" "Senior Engineer" (Some "https://api.hh.ru/vacancies/1"))
     (select_vacancies_with_keyword (conn_db ingested_twice) "_") /\
  ILIKE "Senior Engineer" ("%" ++ "_" ++ "%")%string = true /\
  ~ contains_ignoring_case "Senior Engineer" "_".
Proof.
  split; [reflexivity |]. split; [left; reflexivity |].
  split; [reflexivity |].
  intros (before & after & H).
  assert (Hin : In "_"%char (map lower (list_ascii_of_string "Senior Engineer"))).
  { rewrite H. apply in_or_app. right. left. reflexivity. }
  cbn in Hin. repeat (destruct Hin as [Hin | Hin]; [discriminate Hin |]).
  exact Hin.
Qed.

(** ** Deleting a company (C8) *)

(** The vacancies a [DELETE FROM companies WHERE id = company_id] takes
    along are those with that [company_id], when such a company exists. *)
Lemma cascade_takes_vacancies_of (d : database) (company_id : Z)
  (v : Vacancies.row) :
  existsb (fun c => sql_eq_int (Vacancies.company_id v) (Some (Companies.id c)))
          (filter (fun c => Companies.id c =? company_id) (companies d))
  = sql_eq_int (Vacancies.company_id v) (Some company_id)
    && existsb (fun c => Companies.id c =? company_id) (companies d).
Proof.
  induction (companies d) as [| c cs IH].
  - cbn. rewrite andb_false_r. reflexivity.
  - cbn [filter existsb].
    destruct (Z.eqb_spec (Companies.id c) company_id) as [Hid | Hid].
    + cbn [existsb orb]. rewrite IH, Hid.
      destruct (sql_eq_int (Vacancies.company_id v) (Some company_id));
        reflexivity.
    + rewrite IH. reflexivity.
Qed.

Lemma join_after_delete_company (d : database) (company_id : Z) :
  vacancies_join_companies (delete_from_companies_where_id d company_id)
  = filter (fun r => negb (Companies.id (snd r) =? company_id))
           (vacancies_join_companies d).
Proof.
  unfold vacancies_join_companies, delete_from_companies_where_id,
    delete_from_companies_where.
  cbn [vacancies companies].
  induction (vacancies d) as [| v vs IH]; [reflexivity |].
  cbn [flat_map filter]. rewrite filter_app, <- IH.
  rewrite filter_map_commute. cbn [snd].
  rewrite filter_filter_swap.
  rewrite cascade_takes_vacancies_of.
  destruct (sql_eq_int (Vacancies.company_id v) (Some company_id)
            && existsb (fun c => Companies.id c =? company_id) (companies d))
    eqn:Hgone; cbn [negb]; [| reflexivity].
  apply andb_true_iff in Hgone. destruct Hgone as (Hv & _).
  rewrite (filter_none
             (fun c => sql_eq_int (Vacancies.company_id v)
                                  (Some (Companies.id c)))).
  - reflexivity.
  - intros c Hc. apply filter_In in Hc. destruct Hc as (_ & Hc).
    apply negb_true_iff in Hc.
    unfold sql_eq_int in *.
    destruct (Vacancies.company_id v) as [k |]; [| reflexivity].
    apply Z.eqb_eq in Hv. subst k. rewrite Z.eqb_sym. exact Hc.
Qed.

Lemma deleting_aborted (self : connection) (delete : database -> database) :
  conn_status self = Aborted ->
  DBManager.deleting self delete = Raised InFailedSqlTransaction self.
Proof.
  intros H. unfold DBManager.deleting, execute. rewrite H. reflexivity.
Qed.

Lemma deleting_closed (self : connection) (delete : database -> database) :
  conn_status self = Closed ->
  DBManager.deleting self delete = Raised InterfaceError self.
Proof.
  intros H. unfold DBManager.deleting. rewrite H. reflexivity.
Qed.

(** C8, counterexample: one company with two vacancies, and then an
    [insert_vacancy] that raised.  On the connection it left,
    [delete_company(1)] raises; the company and its two vacancies stay, and
    the next run of the program lists them. *)
Lemma delete_company_raises_after_a_failed_insert :
  conn_status after_refused_vacancy = Aborted /\
  map Companies.id (companies (conn_db after_refused_vacancy)) = [1] /\
  List.length (vacancies_of (conn_db after_refused_vacancy) 1) = 2%nat /\
  DBManager.delete_company after_refused_vacancy 1
  = Raised InFailedSqlTransaction after_refused_vacancy /\
  forall o,
    DBManager.get_all_vacancies
      (mkconn Ready
         (conn_db (conn_after
                     (DBManager.delete_company after_refused_vacancy 1))))
      o ->
    exists rows, o = Returned rows (mkconn Ready (conn_db after_refused_vacancy))
                 /\ List.length rows = 2%nat.
Proof.
  split; [reflexivity |]. split; [reflexivity |]. split; [reflexivity |].
  split; [reflexivity |].
  intros o Ho. unfold DBManager.get_all_vacancies in Ho.
  apply fetchall_of_ready in Ho; [| reflexivity].
  destruct Ho as (rows & Hperm & ->). exists rows. split; [reflexivity |].
  rewrite <- (Permutation_length Hperm). reflexivity.
Qed.

(** C8, amended.  On a ready connection [delete_company] returns; the company
    with the given id is gone, and so is every vacancy whose [company_id]
    referenced it, while the other vacancies stay.  The join that
    [get_all_vacancies] reads is the one from before without the rows of that
    company, so whatever [get_all_vacancies] returns afterwards has none of
    them.  After a failed statement without commit, and on a closed
    connection, [delete_company] raises and leaves the connection, with
    every company and vacancy, as it was. *)
Theorem delete_company_cascades (self : connection) (company_id : Z) :
  (conn_status self = Ready ->
   exists c',
     DBManager.delete_company self company_id = Returned tt c' /\
     conn_status c' = Ready /\
     companies (conn_db c')
     = filter (fun c => negb (Companies.id c =? company_id))
              (companies (conn_db self)) /\
     (forall v c,
        In c (companies (conn_db self)) -> Companies.id c = company_id ->
        Vacancies.company_id v = Some company_id ->
        ~ In v (vacancies (conn_db c'))) /\
     (forall v,
        In v (vacancies (conn_db self)) ->
        Vacancies.company_id v <> Some company_id ->
        In v (vacancies (conn_db c'))) /\
     vacancies_join_companies (conn_db c')
     = filter (fun r => negb (Companies.id (snd r) =? company_id))
              (vacancies_join_companies (conn_db self)) /\
     forall o,
       DBManager.get_all_vacancies c' o <->
       exists rows,
         Permutation
           (map info_of
              (filter (fun r => negb (Companies.id (snd r) =? company_id))
                      (vacancies_join_companies (conn_db self))))
           rows
         /\ o = Returned rows c') /\
  (conn_status self = Aborted ->
   DBManager.delete_company self company_id
   = Raised InFailedSqlTransaction self) /\
  (conn_status self = Closed ->
   DBManager.delete_company self company_id = Raised InterfaceError self).
Proof.
  split; [| split; [apply deleting_aborted
                   | apply deleting_closed]].
  intros Hready.
  exists (mkconn Ready (delete_from_companies_where_id (conn_db self) company_id)).
  split; [apply deleting_ready; exact Hready |].
  split; [reflexivity |]. split; [reflexivity |].
  cbn [conn_db]. repeat apply conj.
  - intros v c Hc Hid Hv Hin.
    unfold delete_from_companies_where_id, delete_from_companies_where in Hin.
    cbn [vacancies] in Hin. apply filter_In in Hin. destruct Hin as (_ & Hkeep).
    rewrite cascade_takes_vacancies_of, Hv in Hkeep.
    assert (Hex : existsb (fun c0 => Companies.id c0 =? company_id)
                          (companies (conn_db self)) = true).
    { apply existsb_exists. exists c. split; [exact Hc |].
      apply Z.eqb_eq. exact Hid. }
    rewrite Hex in Hkeep. cbn in Hkeep. rewrite Z.eqb_refl in Hkeep.
    discriminate Hkeep.
  - intros v Hv Hother.
    unfold delete_from_companies_where_id, delete_from_companies_where.
    cbn [vacancies]. apply filter_In. split; [exact Hv |].
    rewrite cascade_takes_vacancies_of.
    assert (Hne : sql_eq_int (Vacancies.company_id v) (Some company_id) = false).
    { unfold sql_eq_int. destruct (Vacancies.company_id v) as [k |];
        [| reflexivity].
      apply Z.eqb_neq. intros ->. apply Hother. reflexivity. }
    rewrite Hne. reflexivity.
  - apply join_after_delete_company.
  - intros o. unfold DBManager.get_all_vacancies.
    rewrite fetchall_of_ready by reflexivity.
    unfold ret, select_all_vacancies. cbn [conn_db].
    rewrite join_after_delete_company. reflexivity.
Qed.

(** The amended C8 on the database with one company and two vacancies of
    it: after [delete_company(1)], [get_all_vacancies] can only return the
    empty list; on the connection an [insert_vacancy] that raised has left,
    [delete_company(1)] raises. *)
Lemma delete_company_cascades_witness :
  List.length (vacancies_join_companies (conn_db ingested_twice)) = 2%nat /\
  (exists c',
     DBManager.delete_company ingested_twice 1 = Returned tt c' /\
     companies (conn_db c') = [] /\
     forall o, DBManager.get_all_vacancies c' o -> o = Returned [] c') /\
  DBManager.delete_company after_refused_vacancy 1
  = Raised InFailedSqlTransaction after_refused_vacancy.
Proof.
  split; [reflexivity |]. split.
  - destruct (proj1 (delete_company_cascades ingested_twice 1) eq_refl)
      as (c' & Hdel & _ & Hcs & _ & _ & _ & Hall).
    exists c'. split; [exact Hdel |]. split; [exact Hcs |].
    intros o Ho. apply Hall in Ho. destruct Ho as (rows & Hperm & ->).
    vm_compute in Hperm. apply Permutation_nil in Hperm. subst rows.
    reflexivity.
  - exact (proj1 (proj2 (delete_company_cascades after_refused_vacancy 1))
             eq_refl).
Defined.

(** ** Companies and their numbers of vacancies (C9) *)


















(** * Further properties of [db_manager.py] *)

(** ** Every method changes the database in one of a few ways *)

Lemma insert_into_companies_change (d : database)
  (name url description : option string) :
  change d (fst (insert_into_companies d name url description)).
Proof.
  unfold insert_into_companies.
  destruct (n <- nullable (varchar 255) name ;;
            u <- nullable (varchar 255) url ;; ret (n, u)) as [e | [n u]];
    [apply change_nothing |].
  unfold nextval.
  destruct (Z.leb_spec (companies_id_seq d) int4_max) as [Hseq | _];
    [| apply change_nothing].
  cbn [ret]. destruct n as [n' |]; cbn [fst].
  - apply (change_company d (Companies.mk (companies_id_seq d) n' u description));
      [exact Hseq | reflexivity].
  - apply change_companies_id_seq. exact Hseq.
Qed.

Lemma insert_into_vacancies_change (d : database) (v : vacancy_data.t) :
  change d (fst (insert_into_vacancies d v)).
Proof.
  unfold insert_into_vacancies.
  destruct (c <- nullable int4 (vacancy_data.company_id v) ;;
            t <- nullable (varchar 255) (vacancy_data.title v) ;;
            f <- nullable int4 (vacancy_data.salary_from v) ;;
            s <- nullable int4 (vacancy_data.salary_to v) ;;
            u <- nullable (varchar 255) (vacancy_data.url v) ;;
            ret (c, t, f, s, u)) as [e | [[[[c t] f] s] u]];
    [apply change_nothing |].
  unfold nextval.
  destruct (Z.leb_spec (vacancies_id_seq d) int4_max) as [Hseq | _];
    [| apply change_nothing].
  cbn [ret]. destruct t as [t' |]; cbn [fst];
    [| apply change_vacancies_id_seq; exact Hseq].
  change (references_company
            (set_vacancies_id_seq d (vacancies_id_seq d + 1)) c)
    with (references_company d c).
  destruct (references_company d c) eqn:Href; cbn [fst].
  - apply (change_vacancy d
             (Vacancies.mk (vacancies_id_seq d) c t' f s u
                           (vacancy_data.description v)));
      [exact Hseq | reflexivity | exact Href].
  - apply change_vacancies_id_seq. exact Hseq.
Qed.

Lemma insert_company_change (self : connection) (company : company_data.t) :
  change (conn_db self)
         (conn_db (conn_after (DBManager.insert_company self company))).
Proof.
  unfold DBManager.insert_company, execute, reading.
  destruct self as [[| |] d]; cbn [conn_status conn_db ret];
    try apply change_nothing.
  destruct (fetchone (select_id_where_name d (company_data.name company)));
    [apply change_nothing |].
  pose proof (insert_into_companies_change d (company_data.name company)
                (company_data.url company) (company_data.description company))
    as H.
  destruct (insert_into_companies d (company_data.name company)
              (company_data.url company) (company_data.description company))
    as [d' [e | i]]; exact H.
Qed.

Lemma insert_vacancy_change (self : connection) (v : vacancy_data.t) :
  change (conn_db self)
         (conn_db (conn_after (DBManager.insert_vacancy self v))).
Proof.
  unfold DBManager.insert_vacancy, execute, reading.
  destruct self as [[| |] d]; cbn [conn_status conn_db ret];
    try apply change_nothing.
  destruct (fetchone (select_id_where_url d (vacancy_data.url v)));
    [apply change_nothing |].
  pose proof (insert_into_vacancies_change d v) as H.
  destruct (insert_into_vacancies d v) as [d' [e | u]]; exact H.
Qed.

Lemma filter_false {A} (l : list A) : filter (fun _ => false) l = [].
Proof. induction l; [reflexivity | assumption]. Qed.

Lemma deleting_change (self : connection) (delete : database -> database) :
  (forall d, change d (delete d)) ->
  change (conn_db self) (conn_db (conn_after (DBManager.deleting self delete))).
Proof.
  intros H. destruct (deleting_database self delete) as [-> | ->];
    [apply change_nothing | apply H].
Qed.

(** What holds at the start and is kept by every change holds in every state
    the program can be in. *)
Lemma reachable_invariant (P : database -> Prop) :
  P create_tables ->
  (forall d d', change d d' -> P d -> P d') ->
  forall self, reachable self -> P (conn_db self).
Proof.
  intros Hinit Hstep self Hreach.
  induction Hreach as
    [ | self _ IH | self _ IH | self company _ IH | self v _ IH
    | self i _ IH | self _ IH | self i _ IH | self _ IH | self _ IH
    | self o _ IH Ho | self o _ IH Ho | self k o _ IH Ho | self o _ IH Ho ].
  - exact Hinit.
  - exact IH.
  - exact IH.
  - exact (Hstep _ _ (insert_company_change self company) IH).
  - exact (Hstep _ _ (insert_vacancy_change self v) IH).
  - refine (Hstep _ _ (deleting_change self _ _) IH).
    intros d. apply change_vacancies_deleted.
  - refine (Hstep _ _ (deleting_change self _ _) IH).
    intros d. unfold delete_from_vacancies.
    rewrite <- (filter_false (vacancies d)). apply change_vacancies_deleted.
  - refine (Hstep _ _ (deleting_change self _ _) IH).
    intros d. apply change_companies_deleted.
  - refine (Hstep _ _ (deleting_change self _ _) IH).
    intros d. apply change_companies_deleted.
  - rewrite get_avg_salary_database. exact IH.
  - rewrite (fetchall_of_database _ _ _ Ho). exact IH.
  - rewrite (fetchall_of_database _ _ _ Ho). exact IH.
  - rewrite (fetchall_of_database _ _ _ Ho). exact IH.
  - rewrite (get_vacancies_with_higher_salary_database _ _ Ho). exact IH.
Qed.

(** ** Primary keys *)

Lemma NoDup_map_filter {A B} (key : A -> B) (keep : A -> bool)
  (rows : list A) :
  NoDup (map key rows) -> NoDup (map key (filter keep rows)).
Proof.
  induction rows as [| r rows IH]; intros Hkeys; [exact Hkeys |].
  cbn [map] in Hkeys. apply NoDup_cons_iff in Hkeys.
  destruct Hkeys as (Hr & Hrows). specialize (IH Hrows).
  cbn [filter]. destruct (keep r); [| exact IH].
  cbn [map]. apply NoDup_cons; [| exact IH].
  intros Hin. apply Hr. apply in_map_iff in Hin.
  destruct Hin as (r' & Heq & Hin). apply filter_In in Hin.
  rewrite <- Heq. apply in_map. apply Hin.
Qed.

Lemma NoDup_map_snoc {A} (f : A -> Z) (l : list A) (a : A) (bound : Z) :
  (forall b, In b l -> f b < bound) -> f a = bound ->
  NoDup (map f l) -> NoDup (map f (l ++ [a])).
Proof.
  intros Hbound Ha. induction l as [| b l IH]; intros H.
  - cbn. apply NoDup_cons; [intros [] | apply NoDup_nil].
  - cbn [map app] in *. apply NoDup_cons_iff in H. destruct H as (Hb & Hl).
    apply NoDup_cons.
    + rewrite map_app. intros Hin. apply in_app_or in Hin.
      destruct Hin as [Hin | [Hin | []]]; [exact (Hb Hin) |].
      specialize (Hbound b (or_introl eq_refl)). cbn in Hin. lia.
    + apply IH; [| exact Hl]. intros c Hc. apply Hbound. right; exact Hc.
Qed.

Lemma NoDup_map_injective {A B} (f : A -> B) (l : list A) (a b : A) :
  NoDup (map f l) -> In a l -> In b l -> f a = f b -> a = b.
Proof.
  induction l as [| c l IH]; intros H Ha Hb Hab; [destruct Ha |].
  cbn [map] in H. apply NoDup_cons_iff in H. destruct H as (Hc & Hl).
  destruct Ha as [-> | Ha], Hb as [-> | Hb].
  - reflexivity.
  - contradiction Hc. rewrite Hab. apply in_map. exact Hb.
  - contradiction Hc. rewrite <- Hab. apply in_map. exact Ha.
  - exact (IH Hl Ha Hb Hab).
Qed.

Ltac id_bound H :=
  let x := fresh "x" in
  let Hin := fresh "Hin" in
  intros x Hin;
  try (apply filter_In in Hin; destruct Hin as (Hin & _));
  try (apply in_app_or in Hin; destruct Hin as [Hin | [<- | []]]);
  try (specialize (H x Hin)); lia.

Lemma change_primary_keys (d d' : database) :
  change d d' -> primary_keys_hold d -> primary_keys_hold d'.
Proof.
  unfold primary_keys_hold.
  intros Hchange (Hcs & Hvs & Hc & Hv & Hnc & Hnv).
  destruct Hchange as
    [ | Hseq | row Hseq Hid | Hseq | row Hseq Hid Href | keep | doomed ];
    cbn [companies vacancies companies_id_seq vacancies_id_seq
         set_companies set_vacancies set_companies_id_seq
         set_vacancies_id_seq delete_from_companies_where];
    (split; [lia |]); (split; [lia |]);
    (split; [id_bound Hc |]); (split; [id_bound Hv |]);
    split;
    try assumption; try (apply NoDup_map_filter; assumption).
  - apply (NoDup_map_snoc Companies.id _ row (companies_id_seq d));
      [intros b Hb; apply Hc; exact Hb | exact Hid | exact Hnc].
  - apply (NoDup_map_snoc Vacancies.id _ row (vacancies_id_seq d));
      [intros b Hb; apply Hv; exact Hb | exact Hid | exact Hnv].
Qed.

Lemma primary_keys_create_tables : primary_keys_hold create_tables.
Proof.
  unfold primary_keys_hold, int4_max. cbn.
  repeat split; try lia; try (intros ? []); apply NoDup_nil.
Qed.

Lemma reachable_primary_keys_hold (self : connection) :
  reachable self -> primary_keys_hold (conn_db self).
Proof.
  apply reachable_invariant;
    [exact primary_keys_create_tables | exact change_primary_keys].
Qed.

Lemma conn_after_save_vacancies (c : connection) (data : vacancy_data.t) :
  conn_after (DBSaver.save_vacancies c data)
  = conn_after (DBManager.insert_vacancy c data).
Proof.
  unfold DBSaver.save_vacancies.
  destruct (DBManager.insert_vacancy c data); reflexivity.
Qed.

Lemma reachable_saving_company (company : company_data.t) (c : connection) :
  reachable c -> reachable (saving_company company c).
Proof. apply reach_insert_company. Qed.

Lemma reachable_saving_vacancy (data : vacancy_data.t) (c : connection) :
  reachable c -> reachable (saving_vacancy data c).
Proof.
  intros H. unfold saving_vacancy. rewrite conn_after_save_vacancies.
  apply reach_insert_vacancy. exact H.
Qed.

Lemma reachable_ingested_twice : reachable ingested_twice.
Proof.
  unfold ingested_twice, after_all. cbn [fold_left].
  repeat (apply reachable_saving_vacancy || apply reachable_saving_company).
  apply reach_init.
Qed.

(** X1: in every state the program can be in, the ids of each relation are
    positive 32-bit integers below the next value of the sequence, and an id
    names one row only. *)
Theorem ids_are_unique_and_below_the_sequence (self : connection) :
  reachable self ->
  primary_keys_hold (conn_db self) /\
  (forall c1 c2,
     In c1 (companies (conn_db self)) -> In c2 (companies (conn_db self)) ->
     Companies.id c1 = Companies.id c2 -> c1 = c2) /\
  (forall v1 v2,
     In v1 (vacancies (conn_db self)) -> In v2 (vacancies (conn_db self)) ->
     Vacancies.id v1 = Vacancies.id v2 -> v1 = v2) /\
  (forall c, In c (companies (conn_db self)) ->
     in_int4 (Companies.id c) = true) /\
  (forall v, In v (vacancies (conn_db self)) ->
     in_int4 (Vacancies.id v) = true).
Proof.
  intros Hreach.
  pose proof (reachable_primary_keys_hold self Hreach) as Hpk.
  split; [exact Hpk |].
  destruct Hpk as (Hcs & Hvs & Hc & Hv & Hnc & Hnv).
  repeat split.
  - intros c1 c2. apply NoDup_map_injective. exact Hnc.
  - intros v1 v2. apply NoDup_map_injective. exact Hnv.
  - intros c Hin. specialize (Hc c Hin). unfold in_int4, int4_min.
    apply andb_true_iff. split; apply Z.leb_le; lia.
  - intros v Hin. specialize (Hv v Hin). unfold in_int4, int4_min.
    apply andb_true_iff. split; apply Z.leb_le; lia.
Qed.

(** X1 after one company and two vacancies were saved. *)
Lemma ids_are_unique_and_below_the_sequence_witness :
  primary_keys_hold (conn_db ingested_twice).
Proof.
  exact (proj1 (ids_are_unique_and_below_the_sequence ingested_twice
                  reachable_ingested_twice)).
Defined.

(** ** What [get_all_vacancies] lists *)

Lemma sql_eq_int_true (x : option Z) (k : Z) :
  sql_eq_int x (Some k) = true <-> x = Some k.
Proof.
  destruct x as [j |]; cbn; [| split; discriminate].
  rewrite Z.eqb_eq. split; congruence.
Qed.

Lemma companies_with_id_of (cs : list Companies.row) (x : option Z) :
  NoDup (map Companies.id cs) ->
  filter (fun c => sql_eq_int x (Some (Companies.id c))) cs
  = match find (fun c => sql_eq_int x (Some (Companies.id c))) cs with
    | Some c => [c]
    | None => []
    end.
Proof.
  induction cs as [| c cs IH]; intros Hids; [reflexivity |].
  cbn [map] in Hids. apply NoDup_cons_iff in Hids.
  destruct Hids as (Hc & Hcs). cbn [filter find].
  destruct (sql_eq_int x (Some (Companies.id c))) eqn:Hx; [| exact (IH Hcs)].
  rewrite filter_none; [reflexivity |].
  intros c' Hc'. apply not_true_is_false. intros Hx'.
  apply sql_eq_int_true in Hx. apply sql_eq_int_true in Hx'.
  apply Hc. replace (Companies.id c) with (Companies.id c') by congruence.
  apply in_map. exact Hc'.
Qed.

Lemma join_lists_linked_vacancies (d : database) :
  NoDup (map Companies.id (companies d)) ->
  map info_of (vacancies_join_companies d) = linked_vacancies d.
Proof.
  intros Hids. unfold vacancies_join_companies, linked_vacancies, company_of.
  induction (vacancies d) as [| v vs IH]; [reflexivity |].
  cbn [flat_map]. rewrite map_app, IH, map_map.
  rewrite (companies_with_id_of (companies d) (Vacancies.company_id v) Hids).
  destruct (find _ (companies d)); reflexivity.
Qed.

Lemma company_of_none (d : database) (v : Vacancies.row) :
  foreign_key_holds d -> In v (vacancies d) ->
  company_of d v = None <-> Vacancies.company_id v = None.
Proof.
  intros Hfk Hv. unfold company_of. split.
  - intros Hnone. destruct (Vacancies.company_id v) as [k |] eqn:Hk;
      [| reflexivity].
    destruct (Hfk v k Hv Hk) as (c & Hc & Hid).
    pose proof (find_none _ _ Hnone c Hc) as Hfalse. cbn in Hfalse.
    rewrite Hid, Z.eqb_refl in Hfalse. discriminate Hfalse.
  - intros ->. induction (companies d) as [| c cs IH]; [reflexivity |].
    exact IH.
Qed.

Lemma length_linked_vacancies (d : database) :
  foreign_key_holds d ->
  List.length (linked_vacancies d)
  = List.length (filter has_company (vacancies d)).
Proof.
  intros Hfk. unfold linked_vacancies.
  assert (H : forall vs, (forall v, In v vs -> In v (vacancies d)) ->
            List.length
              (flat_map (fun v => match company_of d v with
                                  | Some c => [info_of (v, c)]
                                  | None => []
                                  end) vs)
            = List.length (filter has_company vs)).
  { induction vs as [| v vs IH]; intros Hsub; [reflexivity |].
    cbn [flat_map filter]. rewrite length_app.
    rewrite IH by (intros w Hw; apply Hsub; right; exact Hw).
    pose proof (company_of_none d v Hfk (Hsub v (or_introl eq_refl))) as Hnone.
    unfold has_company.
    destruct (company_of d v) as [c |], (Vacancies.company_id v) as [k |];
      try reflexivity.
    - destruct Hnone as (_ & Hnone). discriminate (Hnone eq_refl).
    - destruct Hnone as (Hnone & _). discriminate (Hnone eq_refl). }
  apply H. auto.
Qed.

(** X2: in a state the program can be in, on a ready connection,
    [get_all_vacancies] returns, in some order, exactly one row for each
    vacancy whose [company_id] is not null, with the name of the company that
    id belongs to; a vacancy without company is never listed. *)
Theorem get_all_vacancies_lists_each_linked_vacancy_once
  (self : connection) :
  reachable self ->
  conn_status self = Ready ->
  (forall o,
     DBManager.get_all_vacancies self o <->
     exists rows,
       Permutation (linked_vacancies (conn_db self)) rows /\
       o = Returned rows self) /\
  List.length (linked_vacancies (conn_db self))
  = List.length (filter has_company (vacancies (conn_db self))) /\
  (forall v, In v (vacancies (conn_db self)) ->
     company_of (conn_db self) v = None <-> Vacancies.company_id v = None).
Proof.
  intros Hreach Hready.
  pose proof (reachable_foreign_key_holds self Hreach) as Hfk.
  destruct (reachable_primary_keys_hold self Hreach)
    as (_ & _ & _ & _ & Hids & _).
  repeat apply conj.
  - intros o. unfold DBManager.get_all_vacancies.
    rewrite fetchall_of_ready by exact Hready.
    unfold ret, select_all_vacancies.
    rewrite (join_lists_linked_vacancies _ Hids). reflexivity.
  - exact (length_linked_vacancies _ Hfk).
  - intros v Hv. exact (company_of_none _ v Hfk Hv).
Qed.

Lemma reachable_with_unlinked_vacancy : reachable with_unlinked_vacancy.
Proof.
  unfold with_unlinked_vacancy, after_all. cbn [fold_left].
  repeat (apply reachable_saving_vacancy || apply reachable_saving_company).
  apply reach_init.
Qed.

(** X2 with three vacancies stored, one of them without company: two rows
    are listed. *)
Lemma get_all_vacancies_lists_each_linked_vacancy_once_witness :
  List.length (vacancies (conn_db with_unlinked_vacancy)) = 3%nat /\
  List.length (linked_vacancies (conn_db with_unlinked_vacancy)) = 2%nat.
Proof.
  split; [reflexivity |].
  rewrite (proj1 (proj2 (get_all_vacancies_lists_each_linked_vacancy_once
                           with_unlinked_vacancy
                           reachable_with_unlinked_vacancy eq_refl))).
  reflexivity.
Defined.

(** ** Deleting vacancies *)

Lemma filter_twice {A} (p : A -> bool) (l : list A) :
  filter p (filter p l) = filter p l.
Proof.
  apply filter_all. intros a Ha. apply filter_In in Ha. apply Ha.
Qed.

Lemma set_vacancies_same (d : database) : set_vacancies d (vacancies d) = d.
Proof. destruct d; reflexivity. Qed.

(** X3: on a ready connection [delete_vacancy] returns; it removes the
    vacancies with the given id and nothing else, companies included; a
    second call with the same id changes nothing; and when no vacancy has
    the id the first call changes nothing either. *)
Theorem delete_vacancy_removes_that_id_only (self : connection)
  (vacancy_id : Z) :
  conn_status self = Ready ->
  exists c',
    DBManager.delete_vacancy self vacancy_id = Returned tt c' /\
    conn_status c' = Ready /\
    companies (conn_db c') = companies (conn_db self) /\
    (forall v, In v (vacancies (conn_db c')) <->
               In v (vacancies (conn_db self)) /\ Vacancies.id v <> vacancy_id)
    /\
    DBManager.delete_vacancy c' vacancy_id = Returned tt c' /\
    ((forall v, In v (vacancies (conn_db self)) -> Vacancies.id v <> vacancy_id)
     -> c' = self).
Proof.
  intros Hready.
  exists (mkconn Ready (delete_from_vacancies_where_id (conn_db self) vacancy_id)).
  split; [apply deleting_ready; exact Hready |].
  split; [reflexivity |]. split; [reflexivity |].
  cbn [conn_db]. unfold delete_from_vacancies_where_id.
  cbn [set_vacancies vacancies]. repeat apply conj.
  - intros v. rewrite filter_In, negb_true_iff, Z.eqb_neq. reflexivity.
  - unfold DBManager.delete_vacancy. rewrite deleting_ready by reflexivity.
    cbn [conn_db]. unfold delete_from_vacancies_where_id, set_vacancies.
    cbn [vacancies companies companies_id_seq vacancies_id_seq].
    rewrite filter_twice. reflexivity.
  - intros Hnone. rewrite filter_all.
    + fold (set_vacancies (conn_db self) (vacancies (conn_db self))).
      rewrite set_vacancies_same. apply ready_eta. exact Hready.
    + intros v Hv. apply negb_true_iff, Z.eqb_neq. exact (Hnone v Hv).
Qed.

(** X3 on the database with vacancies 1 and 2: deleting vacancy 1 leaves
    vacancy 2. *)
Lemma delete_vacancy_removes_that_id_only_witness :
  map Vacancies.id
      (vacancies (conn_db (conn_after
         (DBManager.delete_vacancy ingested_twice 1)))) = [2] /\
  exists c',
    DBManager.delete_vacancy ingested_twice 1 = Returned tt c' /\
    DBManager.delete_vacancy c' 1 = Returned tt c'.
Proof.
  split; [reflexivity |].
  destruct (delete_vacancy_removes_that_id_only ingested_twice 1 eq_refl)
    as (c' & H1 & _ & _ & _ & H2 & _).
  exists c'. split; assumption.
Defined.

Lemma COUNT_no_vacancy (group : list (Companies.row * option Vacancies.row)) :
  (forall r, In r group -> snd r = None) -> COUNT_vacancies_id group = 0.
Proof.
  intros H. unfold COUNT_vacancies_id, not_null.
  induction group as [| r group IH]; [reflexivity |].
  cbn [map flat_map]. rewrite (H r (or_introl eq_refl)). cbn [app].
  apply IH. intros r' Hr'. apply H. right; exact Hr'.
Qed.

Lemma counts_without_vacancies (d : database) :
  vacancies d = [] ->
  Forall (fun r => vacancy_count r = 0)
         (select_companies_and_vacancies_count d).
Proof.
  intros Hnone. unfold select_companies_and_vacancies_count.
  apply Forall_forall. intros r Hr. apply in_map_iff in Hr.
  destruct Hr as (n & <- & _). cbn [vacancy_count].
  apply COUNT_no_vacancy. intros r Hr. apply filter_In in Hr.
  destruct Hr as (Hr & _). unfold companies_left_join_vacancies in Hr.
  apply in_flat_map in Hr. destruct Hr as (c & _ & Hr).
  unfold left_join_rows in Hr. rewrite Hnone in Hr.
  destruct Hr as [<- | []]. reflexivity.
Qed.

(** X4: on a ready connection [delete_all_vacancies] returns and keeps every
    company.  Afterwards there is no average salary, [get_all_vacancies] and
    [get_vacancies_with_higher_salary] return the empty list, and every row
    of [get_companies_and_vacancies_count] has count 0. *)
Theorem delete_all_vacancies_empties_every_report (self : connection) :
  conn_status self = Ready ->
  exists c',
    DBManager.delete_all_vacancies self = Returned tt c' /\
    companies (conn_db c') = companies (conn_db self) /\
    vacancies (conn_db c') = [] /\
    DBManager.get_avg_salary c' = Returned None c' /\
    (forall o, DBManager.get_all_vacancies c' o <-> o = Returned [] c') /\
    (forall o, DBManager.get_vacancies_with_higher_salary c' o <->
               o = Returned [] c') /\
    (forall o, DBManager.get_companies_and_vacancies_count c' o ->
       exists rows, o = Returned rows c' /\
                    Forall (fun r => vacancy_count r = 0) rows).
Proof.
  intros Hready.
  exists (mkconn Ready (delete_from_vacancies (conn_db self))).
  split; [apply deleting_ready; exact Hready |].
  split; [reflexivity |]. split; [reflexivity |].
  set (c' := mkconn Ready (delete_from_vacancies (conn_db self))).
  assert (Havg : DBManager.get_avg_salary c' = Returned None c')
    by reflexivity.
  repeat apply conj.
  - exact Havg.
  - intros o. unfold DBManager.get_all_vacancies.
    rewrite fetchall_of_ready by reflexivity. cbn. split.
    + intros (rows & Hperm & ->). apply Permutation_nil in Hperm.
      rewrite Hperm. reflexivity.
    + intros ->. exists []. split; [apply Permutation_refl | reflexivity].
  - intros o. unfold DBManager.get_vacancies_with_higher_salary.
    rewrite Havg. reflexivity.
  - intros o Ho. unfold DBManager.get_companies_and_vacancies_count in Ho.
    apply (fetchall_of_ready c' _ o eq_refl) in Ho.
    destruct Ho as (rows & Hperm & ->). exists rows. split; [reflexivity |].
    apply (Permutation_Forall Hperm).
    apply counts_without_vacancies. reflexivity.
Qed.

(** X4 on the database with one company and two vacancies. *)
Lemma delete_all_vacancies_empties_every_report_witness :
  List.length (vacancies (conn_db ingested_twice)) = 2%nat /\
  exists c',
    DBManager.delete_all_vacancies ingested_twice = Returned tt c' /\
    List.length (companies (conn_db c')) = 1%nat /\
    DBManager.get_avg_salary c' = Returned None c'.
Proof.
  split; [reflexivity |].
  destruct (delete_all_vacancies_empties_every_report ingested_twice eq_refl)
    as (c' & Hdel & Hcs & _ & Havg & _).
  exists c'. split; [exact Hdel |]. split; [rewrite Hcs; reflexivity |].
  exact Havg.
Defined.

(** ** Deleting all companies *)

Lemma join_without_companies (d : database) :
  companies d = [] -> vacancies_join_companies d = [].
Proof.
  intros Hnone. unfold vacancies_join_companies. rewrite Hnone.
  induction (vacancies d) as [| v vs IH]; [reflexivity | exact IH].
Qed.

Lemma filter_always {A} (l : list A) : filter (fun _ => true) l = l.
Proof. apply filter_all. reflexivity. Qed.

(** X5: in a state the program can be in, on a ready connection,
    [delete_all_companies] removes every company and every vacancy that has
    a [company_id]; the vacancies stored without company stay in the table,
    although [get_all_vacancies] returns the empty list afterwards. *)
Theorem delete_all_companies_keeps_unlinked_vacancies (self : connection) :
  reachable self ->
  conn_status self = Ready ->
  exists c',
    DBManager.delete_all_companies self = Returned tt c' /\
    companies (conn_db c') = [] /\
    vacancies (conn_db c')
    = filter (fun v => negb (has_company v)) (vacancies (conn_db self)) /\
    (forall o, DBManager.get_all_vacancies c' o <-> o = Returned [] c').
Proof.
  intros Hreach Hready.
  pose proof (reachable_foreign_key_holds self Hreach) as Hfk.
  exists (mkconn Ready (delete_from_companies (conn_db self))).
  split; [apply deleting_ready; exact Hready |].
  assert (Hcs : companies (delete_from_companies (conn_db self)) = []).
  { unfold delete_from_companies, delete_from_companies_where.
    cbn [companies negb]. apply filter_false. }
  cbn [conn_db]. repeat apply conj.
  - exact Hcs.
  - unfold delete_from_companies, delete_from_companies_where.
    cbn [vacancies]. rewrite filter_always.
    apply filter_ext_in. intros v Hv. f_equal. unfold has_company.
    destruct (Vacancies.company_id v) as [k |] eqn:Hk.
    + destruct (Hfk v k Hv Hk) as (c & Hc & Hid).
      apply existsb_exists. exists c. split; [exact Hc |].
      cbn. rewrite Hid. apply Z.eqb_refl.
    + induction (companies (conn_db self)) as [| c cs IH];
        [reflexivity | exact IH].
  - intros o. unfold DBManager.get_all_vacancies.
    rewrite fetchall_of_ready by reflexivity.
    unfold ret, select_all_vacancies. cbn [conn_db].
    rewrite (join_without_companies _ Hcs). cbn [map]. split.
    + intros (rows & Hperm & ->). apply Permutation_nil in Hperm.
      rewrite Hperm. reflexivity.
    + intros ->. exists []. split; [apply Permutation_refl | reflexivity].
Qed.

(** X5 with two vacancies of a company and one without company: the third
    one survives the deletion of all companies. *)
Lemma delete_all_companies_keeps_unlinked_vacancies_witness :
  exists c',
    DBManager.delete_all_companies with_unlinked_vacancy = Returned tt c' /\
    map Vacancies.title (vacancies (conn_db c')) = ["Senior"].
Proof.
  destruct (delete_all_companies_keeps_unlinked_vacancies
              with_unlinked_vacancy reachable_with_unlinked_vacancy eq_refl)
    as (c' & Hdel & _ & Hvs & _).
  exists c'. split; [exact Hdel |]. rewrite Hvs. reflexivity.
Defined.

(** ** A failed statement, a closed connection *)


Lemma insert_into_vacancies_refused (d d' : database) (v : vacancy_data.t)
  (e : error) :
  insert_into_vacancies d v = (d', inl e) ->
  companies d' = companies d /\ vacancies d' = vacancies d.
Proof.
  unfold insert_into_vacancies.
  destruct (c <- nullable int4 (vacancy_data.company_id v) ;;
            t <- nullable (varchar 255) (vacancy_data.title v) ;;
            f <- nullable int4 (vacancy_data.salary_from v) ;;
            s <- nullable int4 (vacancy_data.salary_to v) ;;
            u <- nullable (varchar 255) (vacancy_data.url v) ;;
            ret (c, t, f, s, u)) as [e0 | [[[[c t] f] s] u]].
  - intros H; inversion H; subst; split; reflexivity.
  - destruct (nextval (vacancies_id_seq d)) as [e1 | i].
    + intros H; inversion H; subst; split; reflexivity.
    + destruct t as [t' |].
      * destruct (references_company _ c); intros H; inversion H; subst;
          split; reflexivity.
      * intros H; inversion H; subst; split; reflexivity.
Qed.




(** ** What [insert_vacancy] and [insert_company] store *)

(** X7: the only thing that makes [insert_vacancy] skip a record is a
    company whose url is the url of the record.  Then, on a ready
    connection, the method stores nothing, draws no id, and returns the id of
    such a company. *)
Theorem insert_vacancy_skips_on_company_url (self : connection)
  (vacancy : vacancy_data.t) (u : string) (c : Companies.row) :
  conn_status self = Ready ->
  vacancy_data.url vacancy = Some u ->
  In c (companies (conn_db self)) ->
  Companies.url c = Some u ->
  exists c',
    In c' (companies (conn_db self)) /\ Companies.url c' = Some u /\
    DBManager.insert_vacancy self vacancy
    = Returned (Some (Companies.id c')) self /\
    DBSaver.save_vacancies self vacancy = Returned tt self.
Proof.
  intros Hready Hurl Hc Hcu.
  assert (Hin : In c (filter (fun r => sql_eq_text (Companies.url r) (Some u))
                             (companies (conn_db self)))).
  { apply filter_In. split; [exact Hc |]. rewrite Hcu. cbn.
    apply String.eqb_refl. }
  destruct (filter (fun r => sql_eq_text (Companies.url r) (Some u))
                   (companies (conn_db self))) as [| c' rest] eqn:Hrows;
    [destruct Hin |].
  assert (Hc' : In c' (companies (conn_db self)) /\ Companies.url c' = Some u).
  { assert (H : In c' (c' :: rest)) by (left; reflexivity).
    rewrite <- Hrows in H. apply filter_In in H. destruct H as (H & Heq).
    split; [exact H |]. unfold sql_eq_text in Heq.
    destruct (Companies.url c') as [w |]; [| discriminate Heq].
    apply String.eqb_eq in Heq. congruence. }
  assert (Hins : DBManager.insert_vacancy self vacancy
                 = Returned (Some (Companies.id c')) self).
  { unfold DBManager.insert_vacancy.
    rewrite Hready, execute_reading_ready by exact Hready. unfold ret at 1 2.
    unfold select_id_where_url. rewrite Hurl, Hrows.
    cbn [map fetchone hd_error]. rewrite ready_eta by exact Hready.
    reflexivity. }
  exists c'. split; [apply Hc' |]. split; [apply Hc' |].
  split; [exact Hins |].
  unfold DBSaver.save_vacancies. rewrite Hins. reflexivity.
Qed.

(** X7 for a company saved with the url of a vacancy. *)
Lemma insert_vacancy_skips_on_company_url_witness :
  DBSaver.save_vacancies
    (saving_company
       (company_data.mk (Some "Acme") (Some "https://api.hh.ru/vacancies/1")
                        None)
       DBManager.init)
    senior_engineer
  = Returned tt
      (saving_company
         (company_data.mk (Some "Acme") (Some "https://api.hh.ru/vacancies/1")
                          None)
         DBManager.init).
Proof.
  destruct (insert_vacancy_skips_on_company_url
              (saving_company
                 (company_data.mk (Some "Acme")
                    (Some "https://api.hh.ru/vacancies/1") None)
                 DBManager.init)
              senior_engineer "https://api.hh.ru/vacancies/1"
              (Companies.mk 1 "Acme" (Some "https://api.hh.ru/vacancies/1") None)
              eq_refl eq_refl (or_introl eq_refl) eq_refl)
    as (c' & _ & _ & _ & H).
  exact H.
Defined.

(** X8: on a ready connection whose vacancy sequence is not exhausted, a
    record with a title of at most 255 characters, a url that is null or of
    at most 255 characters, title, url and description without NUL, bounds
    and company id in the [INT] range, a [company_id] that is null or the id
    of a company, and a url no company carries, is stored as one new row with
    the next id of the sequence and the fields of the record; nothing else
    changes.  When the record names a company, every later
    [get_all_vacancies] lists it with the name of that company. *)
Theorem insert_vacancy_stores_the_record (self : connection)
  (vacancy : vacancy_data.t) (title : string) :
  conn_status self = Ready ->
  select_id_where_url (conn_db self) (vacancy_data.url vacancy) = [] ->
  vacancy_data.title vacancy = Some title ->
  (characters title <= 255)%nat ->
  without_nul title = true ->
  fits_varchar255 (vacancy_data.url vacancy) ->
  sendable (vacancy_data.url vacancy) ->
  sendable (vacancy_data.description vacancy) ->
  fits_int4 (vacancy_data.company_id vacancy) ->
  fits_int4 (vacancy_data.salary_from vacancy) ->
  fits_int4 (vacancy_data.salary_to vacancy) ->
  vacancies_id_seq (conn_db self) <= int4_max ->
  references_company (conn_db self) (vacancy_data.company_id vacancy) = true ->
  exists c',
    DBManager.insert_vacancy self vacancy = Returned None c' /\
    conn_status c' = Ready /\
    companies (conn_db c') = companies (conn_db self) /\
    vacancies (conn_db c')
    = vacancies (conn_db self) ++ [stored_vacancy (conn_db self) vacancy title]
    /\
    vacancies_id_seq (conn_db c') = vacancies_id_seq (conn_db self) + 1 /\
    (forall c rows,
       In c (companies (conn_db self)) ->
       vacancy_data.company_id vacancy = Some (Companies.id c) ->
       DBManager.get_all_vacancies c' (Returned rows c') ->
       In (mkinfo (Companies.name c) title (vacancy_data.salary_from vacancy)
                  (vacancy_data.salary_to vacancy) (vacancy_data.url vacancy))
          rows).
Proof.
  intros Hready Hsel Htitle Hlen _ Hurl _ _ Hcid Hfrom Hto Hseq Href.
  pose proof (insert_into_vacancies_accepted (conn_db self) vacancy title
                Htitle Hlen Hurl Hcid Hfrom Hto Hseq Href) as Hins.
  eexists. split.
  - unfold DBManager.insert_vacancy.
    rewrite Hready, execute_reading_ready by exact Hready. unfold ret at 1 2.
    rewrite Hsel. cbn [fetchone hd_error]. unfold execute.
    cbn [conn_status conn_db]. rewrite Hins. unfold ret. reflexivity.
  - cbn [commit conn_status conn_db set_vacancies set_vacancies_id_seq
         companies vacancies vacancies_id_seq].
    repeat apply conj; try reflexivity.
    intros c rows Hc Hid Hrows.
    unfold DBManager.get_all_vacancies in Hrows.
    apply fetchall_of_ready in Hrows; [| reflexivity].
    destruct Hrows as (rows' & Hperm & Heq). injection Heq as <-.
    apply (Permutation_in _ Hperm).
    unfold select_all_vacancies.
    change (mkinfo (Companies.name c) title
                   (vacancy_data.salary_from vacancy)
                   (vacancy_data.salary_to vacancy) (vacancy_data.url vacancy))
      with (info_of (stored_vacancy (conn_db self) vacancy title, c)).
    apply in_map. apply in_vacancies_join_companies.
    cbn [conn_db vacancies companies].
    split; [apply in_or_app; right; left; reflexivity |].
    split; [exact Hc | exact Hid].
Qed.

(** X8 for the first vacancy of the first company. *)
Lemma insert_vacancy_stores_the_record_witness :
  exists c',
    DBManager.insert_vacancy (saving_company acme DBManager.init)
                             senior_engineer
    = Returned None c' /\
    vacancies (conn_db c')
    = [Vacancies.mk 1 (Some 1) "Senior Engineer" (Some 1000) (Some 3000)
                    (Some "https://api.hh.ru/vacancies/1") (Some "")].
Proof.
  destruct (insert_vacancy_stores_the_record
              (saving_company acme DBManager.init) senior_engineer
              "Senior Engineer")
    as (c' & Hins & _ & _ & Hvs & _);
    try reflexivity; try (cbn; lia); try (vm_compute; discriminate).
  exists c'. split; [exact Hins | exact Hvs].
Defined.

Lemma insert_into_companies_accepted (d d' : database)
  (name url description : option string) (i : Z) :
  insert_into_companies d name url description = (d', inr i) ->
  i = companies_id_seq d /\
  vacancies d' = vacancies d /\
  exists n u,
    nullable (varchar 255) name = inr (Some n) /\
    nullable (varchar 255) url = inr u /\
    companies d' = companies d ++ [Companies.mk i n u description].
Proof.
  unfold insert_into_companies.
  destruct (nullable (varchar 255) name) as [e | n]; [discriminate |].
  cbn [bind].
  destruct (nullable (varchar 255) url) as [e | u]; [discriminate |].
  cbn [bind ret]. unfold nextval.
  destruct (Z.leb_spec (companies_id_seq d) int4_max) as [_ | _];
    [| discriminate].
  cbn [ret]. destruct n as [n' |]; [| discriminate].
  intros H. injection H as <- <-.
  split; [reflexivity |]. split; [reflexivity |].
  exists n', u. repeat split.
Qed.

(** X9: in a state the program can be in, the id [insert_company] returns
    is either the id of a company that already has the name, and then
    nothing is stored, or the next value of the sequence, which is larger
    than the id of every company in the table, and then it is the id of the
    one new row. *)
Theorem insert_company_returns_known_or_fresh_id (self : connection)
  (company : company_data.t) (i : Z) (c' : connection) :
  reachable self ->
  DBManager.insert_company self company = Returned (Some i) c' ->
  (conn_db c' = conn_db self /\
   exists c, In c (companies (conn_db self)) /\ Companies.id c = i /\
             company_data.name company = Some (Companies.name c))
  \/
  ((forall c, In c (companies (conn_db self)) -> Companies.id c < i) /\
   i = companies_id_seq (conn_db self) /\
   vacancies (conn_db c') = vacancies (conn_db self) /\
   exists row,
     companies (conn_db c') = companies (conn_db self) ++ [row] /\
     Companies.id row = i /\
     Companies.description row = company_data.description company).
Proof.
  intros Hreach.
  destruct (reachable_primary_keys_hold self Hreach)
    as (_ & _ & Hids & _).
  unfold DBManager.insert_company, execute, reading.
  destruct self as [[| |] d]; cbn [conn_status conn_db ret] in *;
    try discriminate.
  destruct (select_id_where_name d (company_data.name company))
    as [| j rest] eqn:Hsel; cbn [fetchone hd_error].
  - destruct (insert_into_companies d (company_data.name company)
                (company_data.url company) (company_data.description company))
      as [d' [e | k]] eqn:Hins; [discriminate |].
    intros H. injection H as <- <-. right.
    destruct (insert_into_companies_accepted _ _ _ _ _ _ Hins)
      as (-> & Hvs & n & u & _ & _ & Hcs).
    cbn [commit conn_db]. split; [| split; [reflexivity | split; [exact Hvs |]]].
    + intros c Hc. apply (Hids c Hc).
    + eexists. split; [exact Hcs |]. split; reflexivity.
  - intros H. injection H as <- <-. left. split; [reflexivity |].
    assert (Hj : In j (select_id_where_name d (company_data.name company)))
      by (rewrite Hsel; left; reflexivity).
    unfold select_id_where_name in Hj. apply in_map_iff in Hj.
    destruct Hj as (c & Hid & Hc). apply filter_In in Hc.
    destruct Hc as (Hc & Hname). exists c. split; [exact Hc |].
    split; [exact Hid |].
    unfold sql_eq_text in Hname.
    destruct (company_data.name company) as [n |]; [| discriminate Hname].
    apply String.eqb_eq in Hname. congruence.
Qed.

Lemma reachable_two_companies : reachable two_companies.
Proof.
  unfold two_companies, after_all. cbn [fold_left].
  repeat apply reachable_saving_company. apply reach_init.
Qed.

(** X9 after both companies were deleted: a new company gets id 3, not an
    id used before. *)
Lemma insert_company_returns_known_or_fresh_id_witness :
  exists c',
    DBManager.insert_company companies_deleted acme = Returned (Some 3) c' /\
    map Companies.id (companies (conn_db c')) = [3].
Proof.
  eexists. split; [reflexivity |].
  destruct (insert_company_returns_known_or_fresh_id
              companies_deleted acme 3 _
              (reach_delete_all_companies _ reachable_two_companies) eq_refl)
    as [(_ & c & [] & _) | (_ & _ & _ & row & Hcs & Hid & _)].
  rewrite Hcs. cbn. rewrite Hid. reflexivity.
Defined.

(** * Properties of the loading loop of [main.py] *)

Lemma insert_into_vacancies_stored (d d' : database) (v : vacancy_data.t)
  (u : unit) :
  insert_into_vacancies d v = (d', inr u) ->
  companies d' = companies d /\
  exists row,
    vacancies d' = vacancies d ++ [row] /\
    Vacancies.company_id row = vacancy_data.company_id v /\
    Vacancies.salary_from row = vacancy_data.salary_from v /\
    Vacancies.salary_to row = vacancy_data.salary_to v.
Proof.
  unfold insert_into_vacancies.
  destruct (nullable int4 (vacancy_data.company_id v)) as [e | c] eqn:Hc;
    [discriminate |].
  apply nullable_int4_returns in Hc. subst c. cbn [bind].
  destruct (nullable (varchar 255) (vacancy_data.title v)) as [e | t];
    [discriminate |].
  cbn [bind].
  destruct (nullable int4 (vacancy_data.salary_from v)) as [e | f] eqn:Hf;
    [discriminate |].
  apply nullable_int4_returns in Hf. subst f. cbn [bind].
  destruct (nullable int4 (vacancy_data.salary_to v)) as [e | s] eqn:Hs;
    [discriminate |].
  apply nullable_int4_returns in Hs. subst s. cbn [bind].
  destruct (nullable (varchar 255) (vacancy_data.url v)) as [e | w];
    [discriminate |].
  cbn [bind ret].
  destruct (nextval (vacancies_id_seq d)) as [e | i]; [discriminate |].
  destruct t as [t' |]; [| discriminate].
  destruct (references_company _ (vacancy_data.company_id v));
    [| discriminate].
  intros H. injection H as <- _. split; [reflexivity |].
  eexists. split; [reflexivity |]. repeat split.
Qed.

Lemma insert_vacancy_rows (self : connection) (v : vacancy_data.t) :
  let c := conn_after (DBManager.insert_vacancy self v) in
  companies (conn_db c) = companies (conn_db self) /\
  (vacancies (conn_db c) = vacancies (conn_db self) \/
   exists row,
     vacancies (conn_db c) = vacancies (conn_db self) ++ [row] /\
     Vacancies.company_id row = vacancy_data.company_id v /\
     Vacancies.salary_from row = vacancy_data.salary_from v /\
     Vacancies.salary_to row = vacancy_data.salary_to v).
Proof.
  unfold DBManager.insert_vacancy, execute, reading.
  destruct self as [[| |] d]; cbn [conn_status conn_db ret];
    try (cbn; auto; fail).
  destruct (fetchone (select_id_where_url d (vacancy_data.url v)));
    [cbn; auto |].
  destruct (insert_into_vacancies d v) as [d' [e | u]] eqn:Hins;
    cbn [conn_after conn_db commit].
  - destruct (insert_into_vacancies_refused _ _ _ _ Hins). auto.
  - destruct (insert_into_vacancies_stored _ _ _ _ Hins) as (Hc & Hrow). auto.
Qed.

Lemma vacancy_data_of_company_id (company_id : option Z)
  (vacancy : HHVacancy.t) (data : vacancy_data.t) :
  vacancy_data_of company_id vacancy = inr data ->
  vacancy_data.company_id data = company_id.
Proof.
  unfold vacancy_data_of.
  destruct (get (HHVacancy.snippet vacancy) (Snippet.mk Missing));
    [| discriminate].
  destruct (get (HHVacancy.salary vacancy) (Salary.mk Missing Missing));
    intros H; injection H as <-; reflexivity.
Qed.

Lemma save_vacancy_rows (saver : connection) (company_id : option Z)
  (vacancy : HHVacancy.t) :
  let c := fst (save_vacancy saver company_id vacancy) in
  companies (conn_db c) = companies (conn_db saver) /\
  (vacancies (conn_db c) = vacancies (conn_db saver) \/
   exists row data,
     vacancy_data_of company_id vacancy = inr data /\
     vacancies (conn_db c) = vacancies (conn_db saver) ++ [row] /\
     Vacancies.company_id row = company_id /\
     Vacancies.salary_from row = vacancy_data.salary_from data /\
     Vacancies.salary_to row = vacancy_data.salary_to data).
Proof.
  unfold save_vacancy.
  destruct (vacancy_data_of company_id vacancy) as [e | data] eqn:Hdata;
    [cbn; auto |].
  pose proof (insert_vacancy_rows saver data) as Hrows.
  rewrite <- conn_after_save_vacancies in Hrows.
  assert (Hfst : fst (match DBSaver.save_vacancies saver data with
                      | Returned _ c => (c, [])
                      | Raised e c =>
                          (c, [VacancyFailed vacancy (DatabaseError e)])
                      end)
                 = conn_after (DBSaver.save_vacancies saver data))
    by (destruct (DBSaver.save_vacancies saver data); reflexivity).
  rewrite Hfst. cbv zeta in Hrows.
  destruct Hrows as (Hc & [Hv | (row & Hv & Hid & Hfrom & Hto)]);
    split; auto.
  right. exists row, data.
  rewrite (vacancy_data_of_company_id _ _ _ Hdata) in Hid. auto.
Qed.

(** X10: a record without salary, be the key absent or null, is never
    stored with null bounds: if [save_vacancy] stores it, both bounds of the
    row are 0, so the row counts in [get_avg_salary].  A record whose salary
    has a null [from] is stored, if at all, with [salary_from] NULL and does
    not count. *)
Theorem undisclosed_salary_is_stored_as_zero (saver : connection)
  (company_id : option Z) (vacancy : HHVacancy.t) :
  let c := fst (save_vacancy saver company_id vacancy) in
  (HHVacancy.salary vacancy = Missing \/ HHVacancy.salary vacancy = Null ->
   vacancies (conn_db c) = vacancies (conn_db saver) \/
   exists row,
     vacancies (conn_db c) = vacancies (conn_db saver) ++ [row] /\
     Vacancies.salary_from row = Some 0 /\ Vacancies.salary_to row = Some 0 /\
     both_bounds row = true) /\
  (forall salary,
     HHVacancy.salary vacancy = Value salary -> Salary.from salary = Null ->
     vacancies (conn_db c) = vacancies (conn_db saver) \/
     exists row,
       vacancies (conn_db c) = vacancies (conn_db saver) ++ [row] /\
       Vacancies.salary_from row = None /\ both_bounds row = false).
Proof.
  cbv zeta.
  destruct (save_vacancy_rows saver company_id vacancy)
    as (_ & [Hsame | (row & data & Hdata & Hrows & _ & Hfrom & Hto)]);
    [split; intros; left; exact Hsame |].
  unfold vacancy_data_of in Hdata.
  destruct (get (HHVacancy.snippet vacancy) (Snippet.mk Missing));
    [| discriminate Hdata].
  split.
  - intros Hsalary. right. exists row. split; [exact Hrows |].
    assert (Hzero : vacancy_data.salary_from data = Some 0 /\
                    vacancy_data.salary_to data = Some 0).
    { destruct Hsalary as [Hs | Hs]; rewrite Hs in Hdata;
        cbn in Hdata; injection Hdata as <-; split; reflexivity. }
    destruct Hzero as (H0 & H1). rewrite H0 in Hfrom. rewrite H1 in Hto.
    unfold both_bounds. rewrite Hfrom, Hto. repeat split.
  - intros salary Hs Hnull. right. exists row. split; [exact Hrows |].
    rewrite Hs in Hdata. cbn [get] in Hdata. rewrite Hnull in Hdata.
    cbn [get] in Hdata. injection Hdata as <-. cbn in Hfrom.
    unfold both_bounds. rewrite Hfrom. split; reflexivity.
Qed.

(** X10 for a record with nothing but a name, saved without company. *)
Lemma undisclosed_salary_is_stored_as_zero_witness :
  map (fun row => (Vacancies.salary_from row, Vacancies.salary_to row))
      (vacancies (conn_db (fst
         (save_vacancy DBManager.init None
            (HHVacancy.mk (Value "Welder") Missing Missing Missing)))))
  = [(Some 0, Some 0)].
Proof.
  destruct (proj1 (undisclosed_salary_is_stored_as_zero DBManager.init None
                     (HHVacancy.mk (Value "Welder") Missing Missing Missing))
              (or_introl eq_refl))
    as [Hsame | (row & Hrows & Hfrom & Hto & _)].
  - vm_compute in Hsame. discriminate Hsame.
  - rewrite Hrows. cbn. rewrite Hfrom, Hto. reflexivity.
Defined.

Lemma save_vacancies_of_app (saver : connection) (company_id : option Z)
  (first rest : list HHVacancy.t) :
  save_vacancies_of saver company_id (first ++ rest)
  = (fst (save_vacancies_of
            (fst (save_vacancies_of saver company_id first)) company_id rest),
     snd (save_vacancies_of saver company_id first)
     ++ snd (save_vacancies_of
               (fst (save_vacancies_of saver company_id first))
               company_id rest)).
Proof.
  revert saver. induction first as [| v first IH]; intros saver.
  - cbn. destruct (save_vacancies_of saver company_id rest); reflexivity.
  - cbn [app save_vacancies_of].
    destruct (save_vacancy saver company_id v) as [c printed].
    rewrite (IH c).
    destruct (save_vacancies_of c company_id first) as [c1 printed1].
    cbn [fst snd]. rewrite app_assoc. reflexivity.
Qed.

(** X11: a record whose [snippet] is [None] is skipped with an
    [AttributeError] before any statement is sent: the batch ends in the same
    connection as the batch without that record, and the failure is among
    the messages. *)
Theorem record_with_null_snippet_is_skipped (saver : connection)
  (company_id : option Z) (vacancy : HHVacancy.t)
  (before after : list HHVacancy.t) :
  HHVacancy.snippet vacancy = Null ->
  save_vacancy saver company_id vacancy
  = (saver, [VacancyFailed vacancy AttributeError]) /\
  fst (save_vacancies_of saver company_id (before ++ vacancy :: after))
  = fst (save_vacancies_of saver company_id (before ++ after)) /\
  In (VacancyFailed vacancy AttributeError)
     (snd (save_vacancies_of saver company_id (before ++ vacancy :: after))).
Proof.
  intros Hnull.
  assert (Hone : forall c, save_vacancy c company_id vacancy
                           = (c, [VacancyFailed vacancy AttributeError])).
  { intros c. unfold save_vacancy, vacancy_data_of. rewrite Hnull.
    reflexivity. }
  split; [apply Hone |].
  rewrite !save_vacancies_of_app. cbn [fst snd save_vacancies_of].
  rewrite Hone.
  destruct (save_vacancies_of
              (fst (save_vacancies_of saver company_id before))
              company_id after) as [c' printed'].
  cbn [fst snd]. split; [reflexivity |].
  apply in_or_app. right. left. reflexivity.
Qed.

(** X11 for a record with a null snippet between two good ones. *)
Lemma record_with_null_snippet_is_skipped_witness :
  map Vacancies.title
      (vacancies (conn_db (fst
         (save_vacancies_of DBManager.init None
            ([HHVacancy.mk (Value "Welder") Missing Missing Missing]
             ++ HHVacancy.mk (Value "Fitter") Missing Null Missing
             :: [HHVacancy.mk (Value "Turner") Missing Missing Missing])))))
  = ["Welder"; "Turner"].
Proof.
  rewrite (proj1 (proj2 (record_with_null_snippet_is_skipped
                           DBManager.init None
                           (HHVacancy.mk (Value "Fitter") Missing Null Missing)
                           [HHVacancy.mk (Value "Welder") Missing Missing Missing]
                           [HHVacancy.mk (Value "Turner") Missing Missing Missing]
                           eq_refl))).
  reflexivity.
Defined.





Lemma save_vacancies_of_rows (company_id : option Z)
  (records : list HHVacancy.t) (saver : connection) :
  let c := fst (save_vacancies_of saver company_id records) in
  companies (conn_db c) = companies (conn_db saver) /\
  forall row, In row (vacancies (conn_db c)) ->
    In row (vacancies (conn_db saver)) \/
    Vacancies.company_id row = company_id.
Proof.
  revert saver. induction records as [| v rest IH]; intros saver.
  - cbn. auto.
  - cbn [save_vacancies_of].
    pose proof (save_vacancy_rows saver company_id v) as Hone.
    destruct (save_vacancy saver company_id v) as [c1 printed].
    specialize (IH c1).
    destruct (save_vacancies_of c1 company_id rest) as [c2 printed'].
    cbn [fst] in *. destruct IH as (Hcs & Hrows).
    destruct Hone as (Hcs1 & Hone). split; [congruence |].
    intros row Hrow. destruct (Hrows row Hrow) as [Hold | Hnew];
      [| right; exact Hnew].
    destruct Hone as [Hsame | (new & data & _ & Happ & Hid & _)].
    + left. rewrite <- Hsame. exact Hold.
    + rewrite Happ in Hold. apply in_app_or in Hold.
      destruct Hold as [Hold | [<- | []]]; [left; exact Hold | right; exact Hid].
Qed.

(** X13: when a company is loaded on a connection with a failed statement,
    as the failed batch of the company before leaves it, [save_company]
    returns [None]: the company is not stored, and every vacancy of its batch
    that gets stored has no company. *)
Theorem company_after_a_failed_batch_is_not_stored (saver : connection)
  (get_vacancies : string -> fetched) (company_name : string)
  (vacancy : HHVacancy.t) (rest : list HHVacancy.t) :
  conn_status saver = Aborted ->
  get_vacancies company_name = ApiReturns (vacancy :: rest) ->
  let c := fst (load_company saver get_vacancies company_name) in
  companies (conn_db c) = companies (conn_db saver) /\
  forall row, In row (vacancies (conn_db c)) ->
    In row (vacancies (conn_db saver)) \/ Vacancies.company_id row = None.
Proof.
  intros Haborted Hget.
  assert (Hcompany : DBSaver.save_company saver
                       (company_data.mk (Some company_name) None None)
                     = Returned None (commit saver)).
  { unfold DBSaver.save_company, DBManager.insert_company, execute.
    rewrite Haborted. reflexivity. }
  unfold load_company. rewrite Hget, Hcompany.
  pose proof (save_vacancies_of_rows None (vacancy :: rest) (commit saver))
    as Hrows.
  destruct (save_vacancies_of (commit saver) None (vacancy :: rest))
    as [c printed].
  exact Hrows.
Qed.

(** X13 for the sample answer of the API: the batch of "Acme" fails on its
    first record, and then "Bolt" is not stored while its vacancy is, without
    company. *)
Lemma company_after_a_failed_batch_is_not_stored_witness :
  conn_status (fst (load_company DBManager.init sample_api "Acme")) = Aborted /\
  map Companies.name
      (companies (conn_db (fst
         (load_vacancies DBManager.init sample_api ["Acme"; "Bolt"]))))
  = ["Acme"] /\
  forall row,
    In row (vacancies (conn_db (fst
      (load_company (fst (load_company DBManager.init sample_api "Acme"))
                    sample_api "Bolt")))) ->
    In row (vacancies (conn_db (fst
      (load_company DBManager.init sample_api "Acme")))) \/
    Vacancies.company_id row = None.
Proof.
  split; [vm_compute; reflexivity |]. split; [vm_compute; reflexivity |].
  exact (proj2 (company_after_a_failed_batch_is_not_stored
                  (fst (load_company DBManager.init sample_api "Acme"))
                  sample_api "Bolt" welder [] eq_refl eq_refl)).
Defined.

(** ** The lookup by url in the states [main.py] reaches *)








(** ** A batch of records the database accepts *)

Lemma vacancy_data_of_with_company (company_id : option Z)
  (vacancy : HHVacancy.t) (data : vacancy_data.t) :
  vacancy_data_of None vacancy = inr data ->
  vacancy_data_of company_id vacancy
  = inr (vacancy_data.mk company_id (vacancy_data.title data)
           (vacancy_data.salary_from data) (vacancy_data.salary_to data)
           (vacancy_data.url data) (vacancy_data.description data)).
Proof.
  unfold vacancy_data_of.
  destruct (get (HHVacancy.snippet vacancy) (Snippet.mk Missing));
    [| discriminate].
  destruct (get (HHVacancy.salary vacancy) (Salary.mk Missing Missing));
    intros H; injection H as <-; reflexivity.
Qed.

Lemma save_vacancies_of_storable (company_id : option Z)
  (records : list HHVacancy.t) (saver : connection) :
  conn_status saver = Ready ->
  no_company_url (conn_db saver) ->
  fits_int4 company_id ->
  references_company (conn_db saver) company_id = true ->
  Forall storable records ->
  vacancies_id_seq (conn_db saver) + Z.of_nat (List.length records)
  <= int4_max + 1 ->
  exists rows,
    save_vacancies_of saver company_id records
    = (mkconn Ready
         (set_vacancies
            (set_vacancies_id_seq (conn_db saver)
               (vacancies_id_seq (conn_db saver)
                + Z.of_nat (List.length records)))
            (vacancies (conn_db saver) ++ rows)),
       []) /\
    List.length rows = List.length records /\
    Forall (fun row => Vacancies.company_id row = company_id) rows.
Proof.
  revert saver.
  induction records as [| r rest IH];
    intros saver Hready Hnull Hcid Href Hall Hseq.
  - exists []. cbn [save_vacancies_of List.length Z.of_nat].
    rewrite Z.add_0_r, app_nil_r.
    destruct saver as [s [cs vs n m]]. cbn in Hready. subst s.
    repeat split. apply Forall_nil.
  - apply Forall_cons_iff in Hall. destruct Hall as (Hr & Hrest).
    destruct Hr as (data0 & title & Hdata0 & Htitle & Hlen & _ & Hurl & _ & _
                    & Hfrom & Hto).
    pose proof (vacancy_data_of_with_company company_id r data0 Hdata0)
      as Hdata.
    set (data := vacancy_data.mk company_id (vacancy_data.title data0)
                   (vacancy_data.salary_from data0)
                   (vacancy_data.salary_to data0) (vacancy_data.url data0)
                   (vacancy_data.description data0)) in *.
    change (List.length (r :: rest)) with (S (List.length rest)) in *.
    rewrite Nat2Z.inj_succ in *.
    assert (Hins := insert_vacancy_accepted saver data title Hready
                      (select_id_where_url_null_urls _ _ Hnull)
                      Htitle Hlen Hurl Hcid Hfrom Hto
                      ltac:(pose proof (Nat2Z.is_nonneg (List.length rest)); lia)
                      Href).
    set (c1 := mkconn Ready _) in Hins.
    destruct (IH c1 eq_refl Hnull Hcid Href Hrest
                ltac:(cbn [c1 conn_db set_vacancies set_vacancies_id_seq
                           vacancies_id_seq]; lia))
      as (rows & Hbatch & Hrows & Hids).
    exists (stored_vacancy (conn_db saver) data title :: rows).
    cbn [save_vacancies_of]. unfold save_vacancy, DBSaver.save_vacancies.
    rewrite Hdata, Hins, Hbatch. cbn [app]. split; [| split].
    + f_equal. f_equal.
      unfold c1, set_vacancies, set_vacancies_id_seq.
      cbn [conn_db companies vacancies companies_id_seq vacancies_id_seq].
      f_equal; [rewrite <- app_assoc; reflexivity | lia].
    + cbn. rewrite Hrows. reflexivity.
    + apply Forall_cons; [reflexivity | exact Hids].
Qed.

(** X15: the regular case of the loading loop.  In a state the program can
    be in, on a ready connection where no company has a url, for a company
    name of at most 255 characters without NUL and a batch of records the
    columns can hold (a snippet that is not null, a title of at most 255
    characters, a url that fits, texts without NUL, bounds in the [INT]
    range), with both sequences far enough from their end: [load_company]
    prints no failure, the company is in the table under that name, and every
    record of the batch is stored as one new vacancy of that company. *)
Theorem load_company_stores_the_batch (saver : connection)
  (get_vacancies : string -> fetched) (company_name : string)
  (vacancy : HHVacancy.t) (rest : list HHVacancy.t) :
  reachable saver ->
  conn_status saver = Ready ->
  no_company_url (conn_db saver) ->
  (characters company_name <= 255)%nat ->
  without_nul company_name = true ->
  companies_id_seq (conn_db saver) <= int4_max ->
  vacancies_id_seq (conn_db saver) + Z.of_nat (S (List.length rest))
  <= int4_max + 1 ->
  get_vacancies company_name = ApiReturns (vacancy :: rest) ->
  Forall storable (vacancy :: rest) ->
  exists company_id c' rows,
    load_company saver get_vacancies company_name
    = (c', [Loading company_name]) /\
    conn_status c' = Ready /\
    (exists company,
       In company (companies (conn_db c')) /\
       Companies.id company = company_id /\
       Companies.name company = company_name) /\
    vacancies (conn_db c') = vacancies (conn_db saver) ++ rows /\
    List.length rows = S (List.length rest) /\
    Forall (fun row => Vacancies.company_id row = Some company_id) rows.
Proof.
  intros Hreach Hready Hnull Hlen _ Hcseq Hvseq Hget Hall.
  destruct (reachable_primary_keys_hold saver Hreach)
    as (Hcs & _ & Hids & _).
  unfold load_company. rewrite Hget. unfold DBSaver.save_company.
  destruct (rows_named (conn_db saver) company_name) as [| c cs] eqn:Hrows.
  - rewrite (insert_company_new saver company_name None None
               Hready Hlen I Hcseq Hrows).
    cbv zeta. set (i := companies_id_seq (conn_db saver)).
    set (c1 := mkconn Ready _).
    destruct (save_vacancies_of_storable (Some i) (vacancy :: rest) c1)
      as (rows & Hbatch & Hlenrows & Hrowids); try assumption.
    + reflexivity.
    + unfold no_company_url. cbn [c1 conn_db set_companies companies].
      apply Forall_app. split; [exact Hnull |].
      apply Forall_cons; [reflexivity | apply Forall_nil].
    + cbn [fits_int4]. unfold in_int4, int4_min. subst i.
      apply andb_true_iff. split; apply Z.leb_le; lia.
    + cbn [references_company c1 conn_db set_companies companies].
      rewrite existsb_app. cbn. rewrite Z.eqb_refl. apply orb_true_r.
    + exists i, (fst (save_vacancies_of c1 (Some i) (vacancy :: rest))), rows.
      rewrite Hbatch. cbn [fst conn_status conn_db set_vacancies
                             set_vacancies_id_seq companies vacancies c1
                             set_companies set_companies_id_seq].
      repeat split; try assumption.
      eexists. split; [apply in_or_app; right; left; reflexivity |].
      split; reflexivity.
  - assert (Hc : In c (companies (conn_db saver)) /\
                 Companies.name c = company_name).
    { assert (H : In c (rows_named (conn_db saver) company_name))
        by (rewrite Hrows; left; reflexivity).
      unfold rows_named in H. apply filter_In in H.
      destruct H as (H & Hname). apply String.eqb_eq in Hname. auto. }
    destruct Hc as (Hc & Hname).
    rewrite (insert_company_found saver
               (company_data.mk (Some company_name) None None)
               company_name c cs Hready eq_refl Hrows).
    destruct (save_vacancies_of_storable (Some (Companies.id c))
                (vacancy :: rest) saver)
      as (rows & Hbatch & Hlenrows & Hrowids); try assumption.
    + cbn [fits_int4]. unfold in_int4, int4_min. specialize (Hids c Hc).
      apply andb_true_iff. split; apply Z.leb_le; lia.
    + cbn [references_company]. apply existsb_exists.
      exists c. split; [exact Hc | apply Z.eqb_refl].
    + exists (Companies.id c),
        (fst (save_vacancies_of saver (Some (Companies.id c)) (vacancy :: rest))),
        rows.
      rewrite Hbatch. cbn [fst conn_status conn_db set_vacancies
                             set_vacancies_id_seq companies vacancies].
      repeat split; try assumption.
      exists c. repeat split; assumption.
Qed.

(** X15 for the sample answer for "Bolt" on the empty database. *)
Lemma load_company_stores_the_batch_witness :
  exists company_id c' rows,
    load_company DBManager.init sample_api "Bolt" = (c', [Loading "Bolt"]) /\
    vacancies (conn_db c') = rows /\
    Forall (fun row => Vacancies.company_id row = Some company_id) rows /\
    List.length rows = 1%nat.
Proof.
  assert (Hwelder : Forall storable [welder]).
  { apply Forall_cons; [| apply Forall_nil].
    eexists _, "Welder". split; [reflexivity |].
    split; [reflexivity |]. split; [vm_compute; lia |].
    split; [reflexivity |]. split; [vm_compute; lia |].
    repeat split. }
  assert (Hname : (characters "Bolt" <= 255)%nat) by (vm_compute; lia).
  assert (Hcseq : companies_id_seq (conn_db DBManager.init) <= int4_max)
    by (vm_compute; discriminate).
  assert (Hvseq : vacancies_id_seq (conn_db DBManager.init)
                  + Z.of_nat (S (@List.length HHVacancy.t []))
                  <= int4_max + 1)
    by (vm_compute; discriminate).
  destruct (load_company_stores_the_batch DBManager.init sample_api "Bolt"
              welder [] reach_init eq_refl (Forall_nil _) Hname eq_refl Hcseq
              Hvseq eq_refl Hwelder)
    as (company_id & c' & rows & Hload & _ & _ & Hvs & Hlen & Hids).
  exists company_id, c', rows. rewrite Hvs. auto.
Defined.

(** * Properties of [config.py] *)

Lemma split_step (c d : ascii) (s : string) :
  split (String c (String d s))
  = if Ascii.eqb c "," && Ascii.eqb d " " then EmptyString :: split s
    else match split (String d s) with
         | [] => [String c EmptyString]
         | piece :: pieces => String c piece :: pieces
         end.
Proof. reflexivity. Qed.

Lemma split_not_nil (s : string) : split s <> [].
Proof.
  destruct s as [| c [| d s'']]; try discriminate.
  rewrite split_step.
  destruct (Ascii.eqb c "," && Ascii.eqb d " "); [discriminate |].
  destruct (split (String d s'')); discriminate.
Qed.

Lemma concat_cons_char (c : ascii) (piece : string) (pieces : list string) :
  String.concat ", " (String c piece :: pieces)
  = String c (String.concat ", " (piece :: pieces)).
Proof. destruct pieces; reflexivity. Qed.

Lemma concat_cons_more (piece : string) (pieces : list string) :
  pieces <> [] ->
  String.concat ", " (piece :: pieces)
  = (piece ++ ", " ++ String.concat ", " pieces)%string.
Proof.
  destruct pieces; [intros H; contradiction H; reflexivity | reflexivity].
Qed.

Lemma concat_split (s : string) : String.concat ", " (split s) = s.
Proof.
  assert (H : String.concat ", " (split s) = s /\
              forall c, String.concat ", " (split (String c s)) = String c s).
  { induction s as [| d s (IHs & IHc)]; [split; reflexivity |].
    split; [apply IHc |]. intros c. rewrite split_step.
    destruct (Ascii.eqb c ",") eqn:Hc, (Ascii.eqb d " ") eqn:Hd; cbn [andb].
    - apply Ascii.eqb_eq in Hc. apply Ascii.eqb_eq in Hd. subst c d.
      rewrite concat_cons_more by apply split_not_nil.
      rewrite IHs. reflexivity.
    - pose proof (split_not_nil (String d s)) as Hne.
      specialize (IHc d).
      destruct (split (String d s)); [contradiction Hne; reflexivity |].
      rewrite concat_cons_char, IHc. reflexivity.
    - pose proof (split_not_nil (String d s)) as Hne.
      specialize (IHc d).
      destruct (split (String d s)); [contradiction Hne; reflexivity |].
      rewrite concat_cons_char, IHc. reflexivity.
    - pose proof (split_not_nil (String d s)) as Hne.
      specialize (IHc d).
      destruct (split (String d s)); [contradiction Hne; reflexivity |].
      rewrite concat_cons_char, IHc. reflexivity. }
  apply H.
Qed.

Lemma has_separator_step (c d : ascii) (s : string) :
  has_separator (String c (String d s))
  = (Ascii.eqb c "," && Ascii.eqb d " ") || has_separator (String d s).
Proof. reflexivity. Qed.

Lemma split_first_piece (d : ascii) (s piece : string)
  (pieces : list string) :
  split (String d s) = piece :: pieces ->
  piece = EmptyString \/ exists p, piece = String d p.
Proof.
  destruct s as [| e s].
  - cbn. intros H. injection H as <- _. right. exists EmptyString. reflexivity.
  - rewrite split_step. destruct (Ascii.eqb d "," && Ascii.eqb e " ").
    + intros H. injection H as <- _. left. reflexivity.
    + destruct (split (String e s)) as [| p ps]; intros H;
        injection H as <- _; right; eexists; reflexivity.
Qed.

Lemma split_pieces_plain (s : string) :
  Forall (fun piece => has_separator piece = false) (split s).
Proof.
  assert (H : Forall (fun piece => has_separator piece = false) (split s) /\
              forall c, Forall (fun piece => has_separator piece = false)
                               (split (String c s))).
  { induction s as [| d s (IHs & IHc)].
    - split; [| intros c]; repeat constructor.
    - split; [apply IHc |]. intros c. rewrite split_step.
      destruct (Ascii.eqb c "," && Ascii.eqb d " ") eqn:Hsep.
      + apply Forall_cons; [reflexivity | exact IHs].
      + specialize (IHc d).
        destruct (split (String d s)) as [| piece pieces] eqn:Hsplit;
          [repeat constructor |].
        apply Forall_cons_iff in IHc. destruct IHc as (Hpiece & Hpieces).
        apply Forall_cons; [| exact Hpieces].
        destruct (split_first_piece d s piece pieces Hsplit) as [-> | (p & ->)];
          [reflexivity |].
        rewrite has_separator_step, Hsep, Hpiece. reflexivity. }
  apply H.
Qed.

Lemma split_plain (s : string) : has_separator s = false -> split s = [s].
Proof.
  assert (H : (has_separator s = false -> split s = [s]) /\
              forall c, has_separator (String c s) = false ->
                        split (String c s) = [String c s]).
  { induction s as [| d s (IHs & IHc)]; [split; reflexivity |].
    split; [apply IHc |]. intros c. rewrite has_separator_step, split_step.
    intros Hplain. apply orb_false_iff in Hplain.
    destruct Hplain as (Hsep & Hrest). rewrite Hsep, (IHc d Hrest).
    reflexivity. }
  apply H.
Qed.

(** X16: [Config] takes the company names from [COMPANY_NAMES] by cutting
    at every comma followed by a space.  The names joined with [', '] give
    the variable back; there is always at least one name and no name contains
    the separator; a variable without the separator, the empty one included,
    is one name as it stands. *)
Theorem company_names_are_the_pieces_of_the_variable
  (getenv : string -> option string) (names : string) :
  getenv "COMPANY_NAMES" = Some names ->
  exists config,
    load_config getenv = Some config /\
    String.concat ", " (Config.company_names config) = names /\
    Config.company_names config <> [] /\
    Forall (fun name => has_separator name = false)
           (Config.company_names config) /\
    (has_separator names = false -> Config.company_names config = [names]).
Proof.
  intros Hnames. unfold load_config. rewrite Hnames.
  eexists. split; [reflexivity |]. cbn [Config.company_names].
  split; [apply concat_split |]. split; [apply split_not_nil |].
  split; [apply split_pieces_plain | apply split_plain].
Qed.

(** X16 for the sample environment. *)
Lemma company_names_are_the_pieces_of_the_variable_witness :
  exists config,
    load_config sample_env = Some config /\
    Config.company_names config = ["Acme"; "Bolt"].
Proof.
  destruct (company_names_are_the_pieces_of_the_variable
              sample_env "Acme, Bolt" eq_refl)
    as (config & Hload & _).
  exists config. split; [exact Hload |].
  cbv in Hload. injection Hload as <-. reflexivity.
Defined.

(** X17: [config.get_db()] returns the dictionary the configuration holds,
    not a copy, so the renaming of the key [name] to [dbname] at the start of
    [interface] changes the configuration: after it the configuration has
    every key [DBManager.__init__] reads and no key [name], the company names
    are untouched, and a second run of the same statements on the same
    configuration raises [KeyError]. *)
Theorem get_db_params_renames_the_key_in_the_configuration
  (getenv : string -> option string) (config : Config.t) :
  load_config getenv = Some config ->
  exists config' db_params,
    get_db_params config = Some (config', db_params) /\
    Config.db config' = db_params /\
    Config.company_names config' = Config.company_names config /\
    getitem db_params "dbname" = Some (getenv "DATABASE_NAME") /\
    getitem db_params "name" = None /\
    Forall (fun key => getitem db_params key <> None) connect_keys /\
    get_db_params config' = None.
Proof.
  unfold load_config.
  destruct (getenv "COMPANY_NAMES") as [names |]; [| discriminate].
  intros H. injection H as <-.
  eexists _, _. split; [reflexivity |].
  repeat split.
  repeat (apply Forall_cons; [discriminate |]). apply Forall_nil.
Qed.

(** X17 for the sample environment. *)
Lemma get_db_params_renames_the_key_in_the_configuration_witness :
  exists config config' db_params,
    load_config sample_env = Some config /\
    get_db_params config = Some (config', db_params) /\
    getitem db_params "dbname" = Some (Some "hh") /\
    get_db_params config' = None.
Proof.
  eexists. 
  destruct (get_db_params_renames_the_key_in_the_configuration
              sample_env _ eq_refl)
    as (config' & db_params & Hget & _ & _ & Hname & _ & _ & Hagain).
  exists config', db_params. split; [reflexivity |].
  split; [exact Hget |]. split; [exact Hname | exact Hagain].
Defined.

(** * Further properties of the queries *)

(** X18: for a keyword of ASCII characters without [%], [_], backslash and
    NUL, on a ready connection where every stored title is ASCII text,
    [get_vacancies_with_keyword] returns, and a row is in what it returns
    exactly when it is the row of a vacancy with a company whose title
    contains the keyword, the letters A to Z compared without regard to
    case.  With the empty keyword these are all vacancies with a company. *)
Theorem keyword_search_finds_titles_containing_a_plain_keyword
  (self : connection) (keyword : string) :
  conn_status self = Ready ->
  plain keyword = true ->
  ascii_text keyword = true ->
  Forall (fun v => ascii_text (Vacancies.title v) = true)
         (vacancies (conn_db self)) ->
  (exists rows,
     DBManager.get_vacancies_with_keyword self keyword (Returned rows self)) /\
  (forall o,
     DBManager.get_vacancies_with_keyword self keyword o ->
     exists rows,
       o = Returned rows self /\
       forall hit, In hit rows <-> found_by (conn_db self) keyword hit) /\
  (forall o,
     DBManager.get_vacancies_with_keyword self "" o ->
     exists rows,
       o = Returned rows self /\
       Permutation (map hit_of (vacancies_join_companies (conn_db self))) rows).
Proof.
  intros Hready Hplain _ _.
  assert (Hiff : forall k o,
            DBManager.get_vacancies_with_keyword self k o <->
            exists rows,
              fetchall (select_vacancies_with_keyword (conn_db self) k) rows /\
              o = Returned rows self).
  { intros k o. unfold DBManager.get_vacancies_with_keyword.
    rewrite fetchall_of_ready by exact Hready. reflexivity. }
  repeat apply conj.
  - eexists. apply Hiff. eexists. split; [apply Permutation_refl | reflexivity].
  - intros o Ho. apply Hiff in Ho. destruct Ho as (rows & Hperm & ->).
    exists rows. split; [reflexivity |]. intros hit. split.
    + intros Hin. apply (Permutation_in _ (Permutation_sym Hperm)) in Hin.
      unfold select_vacancies_with_keyword in Hin. apply in_map_iff in Hin.
      destruct Hin as ([v c] & <- & Hin). apply filter_In in Hin.
      destruct Hin as (Hin & Hlike). cbn [fst] in Hlike.
      exists v, c. split; [exact Hin |]. split; [| reflexivity].
      apply (ILIKE_plain_keyword _ _ Hplain). exact Hlike.
    + intros (v & c & Hin & Hcontains & ->).
      apply (Permutation_in _ Hperm).
      unfold select_vacancies_with_keyword.
      apply in_map. apply filter_In. split; [exact Hin |].
      cbn [fst]. apply (ILIKE_plain_keyword _ _ Hplain). exact Hcontains.
  - intros o Ho. apply Hiff in Ho. destruct Ho as (rows & Hperm & ->).
    exists rows. split; [reflexivity |].
    unfold select_vacancies_with_keyword in Hperm.
    rewrite filter_all in Hperm; [exact Hperm |].
    intros r _. apply ILIKE_empty_keyword.
Qed.

(** X18 for the keyword "engineer" and the vacancy "Senior Engineer". *)
Lemma keyword_search_finds_titles_containing_a_plain_keyword_witness :
  exists rows,
    DBManager.get_vacancies_with_keyword ingested_twice "engineer"
      (Returned rows ingested_twice) /\
    In (mkhit "Acme" "Senior Engineer" (Some "https://api.hh.ru/vacancies/1"))
       rows.
Proof.
  destruct (keyword_search_finds_titles_containing_a_plain_keyword
              ingested_twice "engineer" eq_refl eq_refl eq_refl)
    as ((rows & Hrows) & Hfound & _).
  { repeat constructor. }
  exists rows. split; [exact Hrows |].
  destruct (Hfound _ Hrows) as (rows' & Heq & Hiff). injection Heq as <-.
  apply Hiff. eexists _, _. split; [left; reflexivity |].
  split; [| reflexivity].
  exists (list_ascii_of_string "senior "), []. reflexivity.
Defined.

Lemma Qsum_zeros (l : list Q) :
  Forall (fun q => (q == 0)%Q) l -> (Qsum l == 0)%Q.
Proof.
  induction 1 as [| q l Hq _ IH]; [reflexivity |].
  cbn [Qsum fold_right]. fold (Qsum l). rewrite Hq, IH. reflexivity.
Qed.

Lemma midpoints_of_zero_salaries (l : list Vacancies.row) :
  Forall (fun v => Vacancies.salary_from v = Some 0 /\
                   Vacancies.salary_to v = Some 0) l ->
  sums_fit_in l /\ Forall (fun q => (q == 0)%Q) (midpoints_of l).
Proof.
  intros Hzero. split.
  - intros v a b Hv Ha Hb. rewrite Forall_forall in Hzero.
    destruct (Hzero v Hv) as (H0 & H1).
    rewrite H0 in Ha. rewrite H1 in Hb.
    injection Ha as <-. injection Hb as <-. reflexivity.
  - induction Hzero as [| v l (H0 & H1) _ IH]; [apply Forall_nil |].
    unfold midpoints_of. cbn [flat_map]. rewrite H0, H1.
    apply Forall_cons; [reflexivity | exact IH].
Qed.

(** X19: when every stored vacancy has both bounds 0, which is what the
    loading loop stores for a record without salary, [get_avg_salary]
    returns, and menu choice 4 reports that there is no salary data, as it
    does for an empty table: the zero it gets is falsy. *)
Theorem zero_salaries_are_shown_as_no_salary_data (self : connection) :
  conn_status self = Ready ->
  Forall (fun v => Vacancies.salary_from v = Some 0 /\
                   Vacancies.salary_to v = Some 0)
         (vacancies (conn_db self)) ->
  exists avg_salary,
    DBManager.get_avg_salary self = Returned avg_salary self /\
    (vacancies (conn_db self) <> [] -> avg_salary <> None) /\
    show_avg_salary avg_salary = NoSalaryData.
Proof.
  intros Hready Hzero.
  destruct (midpoints_of_zero_salaries _ Hzero) as (Hfit & Hmids).
  exists (avg_of_midpoints (conn_db self)).
  split; [| split].
  - rewrite get_avg_salary_ready by exact Hready.
    rewrite (select_avg_salary_fit _ Hfit). reflexivity.
  - intros Hne Hnone. apply avg_of_midpoints_none in Hnone.
    unfold midpoints in Hnone.
    destruct (vacancies (conn_db self)) as [| v vs];
      [contradiction Hne; reflexivity |].
    apply Forall_cons_iff in Hzero. destruct Hzero as ((H0 & H1) & _).
    unfold midpoints_of in Hnone. cbn [flat_map] in Hnone.
    rewrite H0, H1 in Hnone. discriminate Hnone.
  - destruct (avg_of_midpoints (conn_db self)) as [q |] eqn:Havg;
      [| reflexivity].
    destruct (avg_of_midpoints_some _ q Havg) as (m & Hm & Hscale & Hnear).
    assert (Hzero_mean : (m == 0)%Q).
    { unfold midpoints in Hm.
      destruct (midpoints_of (vacancies (conn_db self))) as [| x xs];
        [discriminate Hm |].
      cbn [mean] in Hm. injection Hm as <-.
      rewrite (Qsum_zeros _ Hmids). reflexivity. }
    assert (Hq : (q == 0)%Q).
    { rewrite <- Hzero_mean.
      apply (nearest_decimal_exact (avg_scale (conn_db self)) m q 0);
        [lia | rewrite Hzero_mean; reflexivity | exact Hnear]. }
    cbn [show_avg_salary]. apply Qeq_bool_iff in Hq. rewrite Hq. reflexivity.
Qed.

(** X19 for a record with nothing but a name, loaded without company. *)
Lemma zero_salaries_are_shown_as_no_salary_data_witness :
  exists avg_salary,
    DBManager.get_avg_salary
      (fst (save_vacancy DBManager.init None
              (HHVacancy.mk (Value "Welder") Missing Missing Missing)))
    = Returned (Some avg_salary)
        (fst (save_vacancy DBManager.init None
                (HHVacancy.mk (Value "Welder") Missing Missing Missing))) /\
    show_avg_salary (Some avg_salary) = NoSalaryData.
Proof.
  destruct (zero_salaries_are_shown_as_no_salary_data
              (fst (save_vacancy DBManager.init None
                      (HHVacancy.mk (Value "Welder") Missing Missing Missing)))
              eq_refl)
    as (avg & Hget & Hsome & Hshow).
  - apply Forall_cons; [split; reflexivity | apply Forall_nil].
  - destruct avg as [q |].
    + exists q. split; [exact Hget | exact Hshow].
    + contradiction (Hsome ltac:(discriminate) eq_refl).
Defined.
